(** * Finite-size corrections for charged point defects

    A shallow embedding of [pymatgen/analysis/defects/corrections.py] and
    [pymatgen/analysis/defects/compatibility.py], and the properties the
    specification states about them.

    Conventions of the embedding.
    - A Python float or numpy scalar is a [float]: a rational, one of the
      two infinities, or [NaN].  Arithmetic on rationals is exact (rounding
      error, overflow and underflow are outside the model); the special
      values follow IEEE 754 as numpy applies it: a division by zero yields
      an infinity or [NaN] and the computation goes on, [NaN] propagates
      through the arithmetic and makes every comparison false.  Zero is
      unsigned, so the sign of an infinity obtained from a zero divisor is
      that of the dividend.  Division of Python scalars raises
      [ZeroDivisionError] instead.
    - The band-filling correction only adds and multiplies the eigenvalues,
      occupations and weights it is given; it is embedded over the
      rationals directly.
    - A Python [dict] used as an open record (the entry's parameter store and
      the metadata dictionaries) is a [gmap key value]; a [dict] whose
      insertion order is observed (the eigenvalue spectrum) is an
      association list.
    - A method is a computation in a state-and-exception monad: the state is
      the object the method mutates ([self] or the defect entry) and it
      survives a raised exception, as it does in Python.
    - Routines of scipy, numpy and of pymatgen modules other than the two
      files above are parameters of the sections that use them. *)

From Stdlib Require Import QArith Qabs Qround Lia Lqa.
From stdpp Require Import base option list gmap strings.

Set Warnings "-register-all".
Set Default Proof Using "Type".

(* ================================================================== *)
(** * Part I.  The embedding                                           *)
(* ================================================================== *)

(** ** Rational arithmetic as the code uses it *)

Module Num.

Definition leb (x y : Q) : bool := Qle_bool x y.
Definition ltb (x y : Q) : bool := negb (Qle_bool y x).
Definition eqb (x y : Q) : bool := Qeq_bool x y.

(** Python truthiness of a number: [if x:] holds exactly when [x != 0]. *)
Definition truthy (x : Q) : bool := negb (Qeq_bool x 0).

Definition sum (l : list Q) : Q := foldr Qplus 0%Q l.

Definition of_nat (n : nat) : Q := inject_Z (Z.of_nat n).

(** [int(x)]: truncation toward zero. *)
Definition trunc (x : Q) : Z := Z.quot (Qnum x) (Zpos (Qden x)).

(** [round(x, 6)]: nearest multiple of [10^-6], ties to the even one. *)
Definition round_half_even (x : Q) : Z :=
  let f := Qfloor x in
  let r := (x - inject_Z f)%Q in
  match (r ?= 1 # 2)%Q with
  | Lt => f
  | Gt => (f + 1)%Z
  | Eq => if Z.even f then f else (f + 1)%Z
  end.

Definition round6 (x : Q) : Q :=
  (inject_Z (round_half_even (x * 1000000)) / 1000000)%Q.

End Num.

Infix "<=?" := Num.leb (at level 70, no associativity) : Q_scope.
Infix "<?" := Num.ltb (at level 70, no associativity) : Q_scope.
Infix "=?" := Num.eqb (at level 70, no associativity) : Q_scope.

(** ** Python exceptions and the two monads *)

Inductive key := KStr (s : string) | KInt (z : Z).

#[global] Instance key_eq_dec : EqDecision key.
Proof. solve_decision. Defined.

#[global] Instance key_countable : Countable key.
Proof.
  refine (inj_countable'
            (fun k => match k with KStr s => inl s | KInt z => inr z end)
            (fun x => match x with inl s => KStr s | inr z => KInt z end) _).
  intros []; reflexivity.
Defined.

Coercion KStr : string >-> key.

Inductive exn :=
| KeyError (k : key)
| IndexError
| ValueError (msg : string)
| TypeError
| AttributeError (attr : string)
| NameError (name : string)
| ImportError (name : string)
| ZeroDivisionError
| OverflowError
| LinAlgError
| Exception_ (msg : string).

Inductive result (A : Type) :=
| Raise (e : exn)
| Return (a : A).
Arguments Raise {A} e.
Arguments Return {A} a.

#[global] Instance result_ret : MRet result := fun A a => Return a.
#[global] Instance result_bind : MBind result :=
  fun A B k m => match m with Raise e => Raise e | Return a => k a end.

(** [M S A]: a computation over a mutable object of type [S] that either
    returns an [A] or raises; the object is handed back in both cases. *)
Definition M (S A : Type) : Type := S -> result A * S.

#[global] Instance M_ret {S} : MRet (M S) := fun A a s => (Return a, s).
#[global] Instance M_bind {S} : MBind (M S) :=
  fun A B k m s =>
    match m s with
    | (Raise e, s') => (Raise e, s')
    | (Return a, s') => k a s'
    end.

Definition raise {S A} (e : exn) : M S A := fun s => (Raise e, s).
Definition get {S} : M S S := fun s => (Return s, s).
Definition put {S} (s : S) : M S unit := fun _ => (Return tt, s).
Definition modify {S} (f : S -> S) : M S unit := fun s => (Return tt, f s).
Definition lift {S A} (r : result A) : M S A := fun s => (r, s).

Definition returned {A} (r : result A) : option A :=
  match r with Return a => Some a | Raise _ => None end.

Definition raises {A} (r : result A) : Prop :=
  match r with Raise _ => True | Return _ => False end.

Definition succeeds {A} (r : result A) : bool :=
  match r with Return _ => true | Raise _ => false end.

(** Running a method of one object inside a computation over a pair. *)
Definition on_fst {S1 S2 A} (m : M S1 A) : M (S1 * S2) A :=
  fun s => let '(r, s1) := m (fst s) in (r, (s1, snd s)).
Definition on_snd {S1 S2 A} (m : M S2 A) : M (S1 * S2) A :=
  fun s => let '(r, s2) := m (snd s) in (r, (fst s, s2)).

Fixpoint foldM {S A B} (f : A -> B -> M S A) (a : A) (l : list B) : M S A :=
  match l with
  | [] => mret a
  | b :: l' => a' ← f a b; foldM f a' l'
  end.

Fixpoint foldR {A B} (f : A -> B -> result A) (a : A) (l : list B)
  : result A :=
  match l with
  | [] => Return a
  | b :: l' => a' ← f a b; foldR f a' l'
  end.

(** ** Floating-point numbers *)

(** A float: a rational, [+inf], [-inf] or [nan]. *)
Inductive float :=
| Fin (x : Q)
| PInf
| NInf
| NaN.

Coercion Fin : Q >-> float.

Declare Scope float_scope.
Delimit Scope float_scope with F.
Bind Scope float_scope with float.

Module F.

Definition is_nan (a : float) : bool :=
  match a with NaN => true | _ => false end.

Definition is_finite (a : float) : bool :=
  match a with Fin _ => true | _ => false end.

(** The infinity whose sign is that of a rational compared with 0;
    [nan] for 0 itself ([0 * inf], [0 / 0]). *)
Definition signed_inf (c : comparison) : float :=
  match c with Gt => PInf | Lt => NInf | Eq => NaN end.

Definition neg (a : float) : float :=
  match a with
  | Fin x => Fin (- x)
  | PInf => NInf
  | NInf => PInf
  | NaN => NaN
  end.

Definition add (a b : float) : float :=
  match a with
  | NaN => NaN
  | Fin x => match b with
             | Fin y => Fin (x + y)
             | other => other
             end
  | PInf => match b with
            | NInf | NaN => NaN
            | _ => PInf
            end
  | NInf => match b with
            | PInf | NaN => NaN
            | _ => NInf
            end
  end.

Definition sub (a b : float) : float := add a (neg b).

Definition mul (a b : float) : float :=
  match a with
  | NaN => NaN
  | Fin x => match b with
             | Fin y => Fin (x * y)
             | PInf => signed_inf (x ?= 0)%Q
             | NInf => signed_inf (0 ?= x)%Q
             | NaN => NaN
             end
  | PInf => match b with
            | Fin y => signed_inf (y ?= 0)%Q
            | PInf => PInf
            | NInf => NInf
            | NaN => NaN
            end
  | NInf => match b with
            | Fin y => signed_inf (0 ?= y)%Q
            | PInf => NInf
            | NInf => PInf
            | NaN => NaN
            end
  end.

(** Division as numpy performs it: no exception, a zero divisor yields
    an infinity ([nan] for [0 / 0]). *)
Definition div (a b : float) : float :=
  match a with
  | NaN => NaN
  | Fin x => match b with
             | Fin y => if Qeq_bool y 0 then signed_inf (x ?= 0)%Q
                        else Fin (x / y)
             | PInf | NInf => Fin 0
             | NaN => NaN
             end
  | PInf => match b with
            | Fin y => if Qeq_bool y 0 then PInf
                       else signed_inf (y ?= 0)%Q
            | _ => NaN
            end
  | NInf => match b with
            | Fin y => if Qeq_bool y 0 then NInf
                       else signed_inf (0 ?= y)%Q
            | _ => NaN
            end
  end.

Definition abs (a : float) : float :=
  match a with
  | Fin x => Fin (Qabs x)
  | PInf | NInf => PInf
  | NaN => NaN
  end.

(** Comparisons: false as soon as an operand is [nan]. *)
Definition ltb (a b : float) : bool :=
  match a with
  | NaN => false
  | Fin x => match b with
             | Fin y => Num.ltb x y
             | PInf => true
             | _ => false
             end
  | PInf => false
  | NInf => match b with
            | Fin _ | PInf => true
            | _ => false
            end
  end.

Definition leb (a b : float) : bool :=
  match a with
  | NaN => false
  | Fin x => match b with
             | Fin y => Num.leb x y
             | PInf => true
             | _ => false
             end
  | PInf => match b with PInf => true | _ => false end
  | NInf => match b with NaN => false | _ => true end
  end.

Definition eqb (a b : float) : bool :=
  match a with
  | NaN => false
  | Fin x => match b with Fin y => Num.eqb x y | _ => false end
  | PInf => match b with PInf => true | _ => false end
  | NInf => match b with NInf => true | _ => false end
  end.

(** Python truthiness: [if x:] holds exactly when [x != 0], so [nan] and
    the infinities are true. *)
Definition truthy (a : float) : bool := negb (eqb a (Fin 0)).

(** [int(x)] *)
Definition trunc (a : float) : result Z :=
  match a with
  | Fin x => Return (Num.trunc x)
  | PInf | NInf => Raise OverflowError
  | NaN => Raise (ValueError "cannot convert float NaN to integer")
  end.

(** [round(x, 6)] *)
Definition round6 (a : float) : float :=
  match a with
  | Fin x => Fin (Num.round6 x)
  | other => other
  end.

Definition of_Z (z : Z) : float := Fin (inject_Z z).
Definition of_nat (n : nat) : float := Fin (Num.of_nat n).

Definition sum (l : list float) : float := foldr add (Fin 0) l.

(** [np.mean]: the sum over the number of elements, hence [nan] on an
    empty sample. *)
Definition mean (l : list float) : float := div (sum l) (of_nat (length l)).

(** Two floats are the same number: the same special value, or equal
    rationals. *)
Definition eq (a b : float) : Prop :=
  match a, b with
  | Fin x, Fin y => (x == y)%Q
  | PInf, PInf | NInf, NInf | NaN, NaN => True
  | _, _ => False
  end.

End F.

#[global] Instance float_equiv : Equiv float := F.eq.

Infix "+" := F.add : float_scope.
Infix "-" := F.sub : float_scope.
Infix "*" := F.mul : float_scope.
Infix "/" := F.div : float_scope.
Notation "- x" := (F.neg x) : float_scope.
Infix "<=?" := F.leb (at level 70, no associativity) : float_scope.
Infix "<?" := F.ltb (at level 70, no associativity) : float_scope.
Infix "=?" := F.eqb (at level 70, no associativity) : float_scope.

(** ** What the crystallography collaborator supplies *)

Module Crystal.

Local Open Scope Q_scope.
Local Open Scope float_scope.

Definition vec : Type := float * float * float.

(** A lattice with the quantities pymatgen derives from its matrix: the
    cell lengths [abc], the cell [volume], the lengths of the reciprocal
    lattice vectors and the facets of the Wigner-Seitz cell. *)
Record Lattice := mkLattice {
  matrix : vec * vec * vec;
  abc : vec;
  volume : float;
  reciprocal_abc : vec;
  wigner_seitz_cell : list (list vec)
}.

Record Site := mkSite { species : string; frac_coords : vec }.

Record Structure := mkStructure { lattice : Lattice; sites : list Site }.

Inductive defect_type := Vacancy | Interstitial | Substitution.

Record Defect := mkDefect {
  charge : Z;
  kind : defect_type;
  site : Site
}.

Definition matrix3 : Type := vec * vec * vec.

(** A vector of rationals. *)
Definition vfin (a b c : Q) : vec := (Fin a, Fin b, Fin c).

Definition vsub (a b : vec) : vec :=
  let '(a1, a2, a3) := a in
  let '(b1, b2, b3) := b in
  (a1 - b1, a2 - b2, a3 - b3).

Definition vscale (c : float) (a : vec) : vec :=
  let '(a1, a2, a3) := a in (c * a1, c * a2, c * a3).

Definition dot (a b : vec) : float :=
  let '(a1, a2, a3) := a in
  let '(b1, b2, b3) := b in
  a1 * b1 + a2 * b2 + a3 * b3.

Definition cross (a b : vec) : vec :=
  let '(a1, a2, a3) := a in
  let '(b1, b2, b3) := b in
  (a2 * b3 - a3 * b2, a3 * b1 - a1 * b3, a1 * b2 - a2 * b1).

(** [np.dot(m, v)] *)
Definition mat_vec (m : matrix3) (v : vec) : vec :=
  let '(r1, r2, r3) := m in (dot r1 v, dot r2 v, dot r3 v).

(** [np.dot(v, m)] *)
Definition vec_mat (v : vec) (m : matrix3) : vec :=
  let '(r1, r2, r3) := m in
  let '(v1, v2, v3) := v in
  let '(a1, a2, a3) := r1 in
  let '(b1, b2, b3) := r2 in
  let '(c1, c2, c3) := r3 in
  (v1 * a1 + v2 * b1 + v3 * c1,
   v1 * a2 + v2 * b2 + v3 * c2,
   v1 * a3 + v2 * b3 + v3 * c3).

(** [np.linalg.det] *)
Definition det (m : matrix3) : float :=
  let '(r1, r2, r3) := m in dot r1 (cross r2 r3).

(** The adjugate, whose quotient by the determinant is [np.linalg.inv]. *)
Definition adjugate (m : matrix3) : matrix3 :=
  let '(r1, r2, r3) := m in
  let '(c1x, c1y, c1z) := cross r2 r3 in
  let '(c2x, c2y, c2z) := cross r3 r1 in
  let '(c3x, c3y, c3z) := cross r1 r2 in
  ((c1x, c2x, c3x), (c1y, c2y, c3y), (c1z, c2z, c3z)).

Definition mscale (c : float) (m : matrix3) : matrix3 :=
  let '(r1, r2, r3) := m in (vscale c r1, vscale c r2, vscale c r3).

(** The dielectric constant as the constructors receive it: a number or a
    3x3 matrix. *)
Inductive dielectric_arg :=
| Scalar (x : float)
| Tensor (m : matrix3).

(** [np.identity(3) * x] *)
Definition isotropic (x : float) : matrix3 :=
  ((1 * x, 0 * x, 0 * x), (0 * x, 1 * x, 0 * x), (0 * x, 0 * x, 1 * x)).

(** [lattice.get_cartesian_coords(fractional_coords)] *)
Definition get_cartesian_coords (l : Lattice) (frac : vec) : vec :=
  vec_mat frac (matrix l).

(** [np.mean(points, axis=0)] of a list of points. *)
Definition centroid (points : list vec) : vec :=
  (F.mean (map (fun p => fst (fst p)) points),
   F.mean (map (fun p => snd (fst p)) points),
   F.mean (map snd points)).

End Crystal.

(** ** Python values held in dictionaries *)

Inductive value :=
| VNone
| VBool (b : bool)
| VNum (x : float)
| VStr (s : string)
| VList (l : list value)
| VDict (d : gmap key value)
| VStructure (s : Crystal.Structure).

Module Py.

Abbreviation dict := (gmap key value).

(** [d[k]] on a dict. *)
Definition dict_getitem (d : dict) (k : key) : result value :=
  match d !! k with
  | Some v => Return v
  | None => Raise (KeyError k)
  end.

(** [l[i]] on a list, negative indices counting from the end. *)
Definition list_getitem {A} (l : list A) (i : Z) : result A :=
  let j := if (i <? 0)%Z then (i + Z.of_nat (length l))%Z else i in
  if (j <? 0)%Z then Raise IndexError
  else match l !! Z.to_nat j with
       | Some v => Return v
       | None => Raise IndexError
       end.

(** [v[k]] on an arbitrary value. *)
Definition getitem (v : value) (k : key) : result value :=
  match v, k with
  | VDict d, _ => dict_getitem d k
  | VList l, KInt i => list_getitem l i
  | _, _ => Raise TypeError
  end.

Definition as_num (v : value) : result float :=
  match v with VNum x => Return x | _ => Raise TypeError end.

Definition as_structure (v : value) : result Crystal.Structure :=
  match v with VStructure s => Return s | _ => Raise TypeError end.

Definition as_dict (v : value) : result dict :=
  match v with VDict d => Return d | _ => Raise TypeError end.

(** [d.update(d')]: the entries of [d'] replace those of [d]. *)
Definition update (d d' : dict) : dict := d' ∪ d.

Definition as_list (v : value) : result (list value) :=
match v with VList l => Return l | _ => Raise TypeError end.

Definition as_vec (v : value) : result Crystal.vec :=
match v with
| VList [VNum a; VNum b; VNum c] => Return (a, b, c)
| _ => Raise TypeError
end.

(** Truthiness of a value: [if v:]. *)
Definition truthy (v : value) : bool :=
match v with
| VNone => false
| VBool b => b
| VNum x => F.truthy x
| VStr s => negb (String.eqb s "")
| VList l => negb (bool_decide (length l = 0%nat))
| VDict d => negb (bool_decide (d = ∅))
| VStructure s => negb (bool_decide (length (Crystal.sites s) = 0%nat))
end.

(** [min(l)]: the first element that no later one is smaller than. *)
Definition min_list (l : list float) : result float :=
match l with
| [] => Raise (ValueError "min() arg is an empty sequence")
| x :: l' => Return (fold_left (fun m y => if (y <? m)%F then y else m) l' x)
end.

(** [numpy.ndarray.max()]: [nan] as soon as an element is [nan]. *)
Definition max_list (l : list float) : result float :=
match l with
| [] => Raise (ValueError "zero-size array to reduction operation maximum which has no identity")
| x :: l' =>
    Return (fold_left (fun m y => if F.is_nan m then m
                                  else if F.is_nan y then y
                                  else if (m <? y)%F then y else m) l' x)
end.

Definition as_num_list (v : value) : result (list float) :=
as_list v ≫= mapM as_num.

(** [np.array(v)] for a list of rows of numbers. *)
Definition as_grid (v : value) : result (list (list float)) :=
as_list v ≫= mapM as_num_list.

(** [t[i]] on a 3-tuple. *)
Definition vec_getitem (v : Crystal.vec) (i : Z) : result float :=
let '(a, b, c) := v in list_getitem [a; b; c] i.

(** [np.roll(l, shift)] *)
Definition roll {A} (l : list A) (shift : Z) : list A :=
match length l with
| O => l
| n => let s := Z.to_nat (shift mod Z.of_nat n) in
       drop (n - s) l ++ take (n - s) l
end.

(** [range(lo, hi)] *)
Definition range (lo hi : Z) : list Z :=
map (fun k => (lo + Z.of_nat k)%Z) (seq 0 (Z.to_nat (hi - lo))).

(** [a - b] on one-dimensional arrays, with numpy's broadcasting. *)
Definition np_sub (a b : list float) : result (list float) :=
if bool_decide (length a = length b) then Return (zip_with F.sub a b)
else match a, b with
     | _, [y] => Return (map (fun x => x - y)%F a)
     | [x], _ => Return (map (fun y => x - y)%F b)
     | _, _ => Raise (ValueError "operands could not be broadcast together")
     end.

(** [str.lower()] on ASCII text. *)
Definition ascii_lower (c : Ascii.ascii) : Ascii.ascii :=
  let n := Ascii.nat_of_ascii c in
  if (65 <=? n)%nat && (n <=? 90)%nat then Ascii.ascii_of_nat (n + 32) else c.

Fixpoint lower (s : string) : string :=
  match s with
  | EmptyString => EmptyString
  | String c s' => String (ascii_lower c) (lower s')
  end.

(** [needle in hay] on strings. *)
Definition contains (needle hay : string) : bool :=
  match String.index 0 needle hay with Some _ => true | None => false end.

(** [sorted]: a stable insertion sort for the order [le]. *)
Fixpoint insert_sorted {A} (le : A -> A -> bool) (x : A) (l : list A)
  : list A :=
  match l with
  | [] => [x]
  | y :: l' => if le x y then x :: y :: l' else y :: insert_sorted le x l'
  end.

Definition sorted {A} (le : A -> A -> bool) (l : list A) : list A :=
  foldr (insert_sorted le) [] l.

(** Division of Python scalars: a zero divisor raises. *)
Definition py_div (x y : float) : result float :=
  if (y =? Fin 0)%F then Raise ZeroDivisionError else Return (x / y)%F.

End Py.

(** A defect entry: the defect, the mutable parameter store and the
    accumulated corrections. *)
Record DefectEntry := mkEntry {
  defect : Crystal.Defect;
  parameters : Py.dict;
  correction : gmap key float
}.

Definition entry_charge (e : DefectEntry) : Z := Crystal.charge (defect e).

Definition set_parameters (f : Py.dict -> Py.dict) (e : DefectEntry)
  : DefectEntry :=
  mkEntry (defect e) (f (parameters e)) (correction e).

Definition set_correction (f : gmap key float -> gmap key float)
    (e : DefectEntry) : DefectEntry :=
  mkEntry (defect e) (parameters e) (f (correction e)).

(** ** What scipy supplies *)

Module Scipy.

(** The result of [scipy.stats.describe]. *)
Record DescribeResult := mkDescribe {
  nobs : nat;
  minmax : float * float;
  mean : float;
  variance : float;
  skewness : float;
  kurtosis : float
}.

(** [DescribeResult._asdict()] *)
Definition asdict (d : DescribeResult) : value :=
  VDict {[ KStr "nobs" := VNum (F.of_nat (nobs d));
           KStr "minmax" := VList [VNum (fst (minmax d)); VNum (snd (minmax d))];
           KStr "mean" := VNum (mean d);
           KStr "variance" := VNum (variance d);
           KStr "skewness" := VNum (skewness d);
           KStr "kurtosis" := VNum (kurtosis d) ]}.

End Scipy.

(** ** What [pymatgen.analysis.defects.utils] supplies *)

Module Utils.

Local Open Scope float_scope.

(** The loop of [converge]: [g] is the last value of [f], [h] the next
    cutoff; [fuel] bounds the number of turns.  The result is the value
    returned together with the cutoff at which the loop stopped. *)
Fixpoint converge_loop (fuel : nat) (f : Q -> result float)
    (step : Q) (tol : float) (max_h : Q) (g : float) (h : Q)
  : result (float * Q) :=
  match fuel with
  | O => Raise (Exception_ "Did not converge")
  | S fuel' =>
      g2 ← f h;
      if (max_h <? h + step)%Q then Raise (Exception_ "Did not converge")
      else if F.abs (g - g2) <? tol then Return (g2, h)
      else converge_loop fuel' f step tol max_h g2 (h + step)%Q
  end.

(** The run of [converge]: the value it returns and the cutoff at which
    it was obtained. *)
Definition converge_run (f : Q -> result float) (step : Q) (tol : float)
    (max_h : Q) : result (float * Q) :=
  g ← f 0%Q;
  converge_loop (S (Z.to_nat (Qceiling (max_h / step)))) f step tol max_h
                g step.

(** Modelled from the spec: [converge(f, initial_precision, tolerance,
    max_cutoff)] is missing from the sources.  It "repeatedly evaluates [f]
    at increasing resolution/cutoff until two successive evaluations differ
    by less than tolerance; fails (fatal) if the maximum cutoff is exhausted
    without convergence".  The cutoff grows by [step] from 0; the number of
    turns is bounded by [max_h / step], so the loop always ends. *)
Definition converge (f : Q -> result float) (step : Q) (tol : float)
    (max_h : Q) : result float :=
  r ← converge_run f step tol max_h; Return (fst r).

(** The cutoff at which [converge] stops. *)
Definition stopping_cutoff (f : Q -> result float) (step : Q) (tol : float)
    (max_h : Q) : result Q :=
  r ← converge_run f step tol max_h; Return (snd r).

End Utils.

(** ** FreysoldtCorrection (corrections.py, lines 31-284) *)

Module FreysoldtCorrection.

Import Crystal.

(** A complex number: real and imaginary part. *)
Abbreviation complex := (float * float)%type.

(** [QModel]: the model charge in reciprocal space and its limit at 0. *)
Record QModel := mkQModel {
  rho_rec : float -> float;
  rho_rec_limit0 : float
}.

(** The [axis] argument: [None], an integer or a list of integers. *)
Inductive axis_arg :=
| AxisNone
| AxisInt (a : Z)
| AxisList (l : list Z).

(** [self]. *)
Record t := mk {
  q_model : QModel;
  energy_cutoff : Q;
  madetol : float;
  dielectric : float;
  axis : axis_arg;
  metadata : Py.dict;
  pot_corr : option float
}.

(** [__init__] (lines 39-65); [q_model] is the model in use. *)
Definition init (dielectric_const : dielectric_arg) (q_model : QModel)
    (energy_cutoff : Q) (madetol : float) (axis : axis_arg) : t :=
  mk q_model energy_cutoff madetol
     (match dielectric_const with
      | Scalar x => x
      | Tensor ((a, _, _), (_, b, _), (_, _, c)) => F.mean [a; b; c]
      end)
     axis
     {[ KStr "pot_plot_data" := VDict ∅;
        KStr "pot_corr_uncertainty_md" := VDict ∅ ]}
     None.

Definition set_metadata (f : Py.dict -> Py.dict) (self : t) : t :=
  mk (q_model self) (energy_cutoff self) (madetol self) (dielectric self)
     (axis self) (f (metadata self)) (pot_corr self).

Definition set_pot_corr (x : float) (self : t) : t :=
  mk (q_model self) (energy_cutoff self) (madetol self) (dielectric self)
     (axis self) (metadata self) (Some x).

(** [self.metadata[k1][k2] = v] *)
Definition set_meta2 (k1 k2 : key) (v : value) : M t unit :=
  self ← get;
  inner ← lift (Py.dict_getitem (metadata self) k1 ≫= Py.as_dict);
  modify (set_metadata (fun m => <[ k1 := VDict (<[ k2 := v ]> inner) ]> m)).

(** The returned dictionary: [freysoldt_electrostatic] and
    [freysoldt_potential_alignment]. *)
Record correction := mkCorrection {
  freysoldt_electrostatic : float;
  freysoldt_potential_alignment : float
}.

(** What lines 251-266 compute: the rescaled real-space potential (already
    shifted by [C]), the DFT difference, the short-range residual, the
    middle of the grid and the half-width of the window in grid points,
    the sampled residual, the alignment constant and the shifted
    residual. *)
Record window := mkWindow {
  w_v_R : list float;
  w_dft_diff : list float;
  w_short : list float;
  w_mid : Z;
  w_checkdis : Z;
  w_tmppot : list float;
  w_C : float;
  w_final_shift : list float
}.

Definition imaginary_msg : string := "imaginary part found to be %s".


(** The transform of a sequence of odd length that holds a [nan] has
    only [nan] for real parts: each of them is a sum over the whole
    sequence, with factors that do not vanish. *)
Definition spreads_nan (fft : list complex -> list complex) : Prop :=
  forall v, Nat.odd (length v) = true ->
            Exists (fun z => fst z = NaN) v ->
            Forall (fun z => fst z = NaN) (fft v).

(** The quotient of a complex number by a real one as numpy computes it:
    the divisor is taken as the complex number [c + 0j]. *)
Definition cdiv_real (z : complex) (c : float) : complex :=
  let '(re, im) := z in
  if (F.abs c =? Fin 0)%F then (re / F.abs c, im / F.abs c)%F
  else
    let rat := (Fin 0 / c)%F in
    let scl := (Fin 1 / (c + Fin 0 * rat))%F in
    ((re + im * rat) * scl, (im - re * rat) * scl)%F.

Section Methods.

(** Constants and routines of [pymatgen.analysis.defects.utils]. *)
Variables (ang_to_bohr hart_to_ev : Q).
Variable eV_to_k : Q -> float.
Variable generate_reciprocal_vectors_squared :
  vec -> vec -> vec -> Q -> list float.

(** numpy and scipy: [np.pi], [scipy.integrate.quad(f, a, b)[0]],
    [np.fft.fft] and [scipy.stats.describe]. *)
Variable np_pi : Q.
Variable quad : (float -> float) -> float -> float -> float.
Variable fft : list complex -> list complex.
Variable describe : list float -> result Scipy.DescribeResult.

Local Open Scope Q_scope.
Local Open Scope float_scope.

(** *** [perform_es_corr] (lines 137-177) *)

(** [e_iso] of line 154. *)
Definition e_iso (self : t) (q step : float) (encut : Q) : result float :=
  let gcut := eV_to_k encut in
  Return (quad (fun g => rho_rec (q_model self) (g * g)
                         * rho_rec (q_model self) (g * g)) step gcut
          * (q * q) / np_pi).

(** [e_per] of line 158; a zero among the squared reciprocal vectors
    makes the sum infinite. *)
Definition e_per (self : t) (q : float) (a1 a2 a3 : vec) (vol : float)
    (encut : Q) : result float :=
  let eper :=
    fold_left (fun eper g2 =>
                 eper + rho_rec (q_model self) g2
                        * rho_rec (q_model self) g2 / g2)
              (generate_reciprocal_vectors_squared a1 a2 a3 encut)
              (Fin 0) in
  let eper := eper * ((q * q) * 2 * Num.round6 np_pi / vol) in
  Return (eper + (q * q) * 4 * Num.round6 np_pi
                 * rho_rec_limit0 (q_model self) / vol).

Definition perform_es_corr (self : t) (lattice : Lattice) (q step : float)
  : result float :=
  let '(a1, a2, a3) := mscale ang_to_bohr (matrix lattice) in
  let vol := dot a1 (cross a2 a3) in
  eiso ← Utils.converge (e_iso self q step) 5 (madetol self)
                        (energy_cutoff self);
  eper ← Utils.converge (e_per self q a1 a2 a3 vol) 5 (madetol self)
                        (energy_cutoff self);
  Return (F.round6 ((eiso - eper) / dielectric self * hart_to_ev)).

(** *** [perform_pot_corr] (lines 179-284) *)

(** The index [i] at which the loop of lines 225-227 stops. *)
Fixpoint break_index (axbulkval : float) (axis_grid : list float) (i : nat)
  : nat :=
  match axis_grid with
  | [] => (i - 1)%nat
  | x :: rest => if axbulkval <? x then i else break_index axbulkval rest (S i)
  end.

(** Lines 216-230: the planar averages rolled so that the defect sits at
    the origin. *)
Definition shift_to_origin (axis_grid pureavg defavg : list float)
    (lattice : Lattice) (defect_frac_position : value) (axis : Z)
  : result (list float * list float) :=
  axfracval ← Py.getitem defect_frac_position (KInt axis) ≫= Py.as_num;
  abc_axis ← Py.vec_getitem (abc lattice) axis;
  let axbulkval := axfracval * abc_axis in
  let axbulkval :=
    if axbulkval <? 0 then axbulkval + abc_axis
    else if abc_axis <? axbulkval then axbulkval - abc_axis
    else axbulkval in
  if F.truthy axbulkval then
    match axis_grid with
    | [] => Raise (NameError "i")
    | _ =>
        let i := break_index axbulkval axis_grid 0 in
        let rollind := (Z.of_nat (length axis_grid) - Z.of_nat i)%Z in
        Return (Py.roll pureavg rollind, Py.roll defavg rollind)
    end
  else Return (pureavg, defavg).

(** [np.roll(np.arange(-nx / 2, nx / 2, 1, dtype=int), int(nx / 2))] *)
Definition frequencies (nx : nat) : list Z :=
  Py.roll (map (fun j => (Z.of_nat j - Z.of_nat (nx / 2))%Z) (seq 0 nx))
          (Z.of_nat (nx / 2)).

(** Lines 234-244: the model potential [v_G] in reciprocal space.  The
    quotient of line 243 is taken by numpy: where [g2] is 0 it is
    infinite, and the entry of [v_G] is infinite, or [nan] when [q] is
    0. *)
Definition long_range_potential (self : t) (nx : nat) (lattice : Lattice)
    (q : float) (axis : Z) : result (list complex) :=
  dg0 ← Py.vec_getitem (reciprocal_abc lattice) axis;
  let dg := dg0 / ang_to_bohr in
  v0 ← Py.py_div (4 * np_pi * - q) (dielectric self);
  let v0 := v0 * rho_rec_limit0 (q_model self) in
  match nx with
  | O => Raise IndexError
  | _ =>
      let g := map (fun j => F.of_Z j * dg) (frequencies nx) in
      let g2 := tail (map (fun x => x * x) g) in
      let rest :=
        map (fun y => 4 * np_pi / (dielectric self * y) * - q
                      * rho_rec (q_model self) y)
            g2 in
      let v_G := (v0, Fin 0) :: map (fun x => (x, Fin 0)) rest in
      Return (if Nat.even nx then <[ (nx / 2)%nat := (Fin 0, Fin 0) ]> v_G
              else v_G)
  end.

(** Lines 249-250: the check on the imaginary part of the transform. *)
Definition imaginary_gate (self : t) (v_R : list complex) : result unit :=
  imax ← Py.max_list (map snd v_R);
  if madetol self <? F.abs imax then Raise (Exception_ imaginary_msg)
  else Return tt.

(** Lines 251-252: the transform over the cell volume in bohr^3, and its
    real part in eV. *)
Definition real_space (lattice : Lattice) (v_R : list complex)
  : list float :=
  map (fun z =>
         fst (cdiv_real z (volume lattice
                           * (ang_to_bohr * ang_to_bohr * ang_to_bohr)%Q))
         * hart_to_ev)
      v_R.

(** Lines 251-266: the long-range potential in real space, the
    short-range residual, the sampling window and the alignment constant
    [C]. *)
Definition window_alignment (axis_grid pureavg defavg : list float)
    (lattice : Lattice) (widthsample : float) (v_R : list complex)
  : result window :=
  let v_R := real_space lattice v_R in
  dft_diff ← Py.np_sub defavg pureavg;
  short ← Py.np_sub dft_diff v_R;
  x1 ← Py.list_getitem axis_grid 1;
  x0 ← Py.list_getitem axis_grid 0;
  checkdis ← F.trunc (widthsample / 2 / (x1 - x0));
  let mid := Z.of_nat (length short / 2) in
  tmppot ← mapM (Py.list_getitem short)
                (Py.range (mid - checkdis) (mid + checkdis + 1));
  Py.list_getitem axis_grid (mid - checkdis);;
  Py.list_getitem axis_grid (mid + checkdis);;
  let C := - F.mean tmppot in
  final_shift ← mapM (fun j => s ← Py.list_getitem short j; Return (s + C))
                     (Py.range 0 (Z.of_nat (length v_R)));
  Return (mkWindow (map (fun elmnt => elmnt - C) v_R) dft_diff short
                   mid checkdis tmppot C final_shift).

(** Lines 268-284: the correction [-q * C] and the metadata. *)
Definition sample_alignment (axis_grid pureavg defavg : list float)
    (lattice : Lattice) (q : float) (axis : Z) (widthsample : float)
    (v_R : list complex) : M t float :=
  w ← lift (window_alignment axis_grid pureavg defavg lattice widthsample
                             v_R);
  let C := w_C w in
  modify (set_pot_corr (- q * C));;
  set_meta2 "pot_plot_data" (KInt axis)
    (VDict {[ KStr "Vr" := VList (map VNum (w_v_R w));
              KStr "x" := VList (map VNum axis_grid);
              KStr "dft_diff" := VList (map VNum (w_dft_diff w));
              KStr "final_shift" := VList (map VNum (w_final_shift w));
              KStr "check" :=
                VList [VNum (F.of_Z (w_mid w - w_checkdis w));
                       VNum (F.of_Z (w_mid w + w_checkdis w + 1))] ]});;
  stats ← lift (describe (w_tmppot w));
  set_meta2 "pot_corr_uncertainty_md" (KInt axis)
    (VDict {[ KStr "stats" := Scipy.asdict stats;
              KStr "potcorr" := VNum (- q * C) ]});;
  mret (- q * C).

Definition perform_pot_corr (axis_grid pureavg defavg : list float)
    (lattice : Lattice) (q : float) (defect_frac_position : value)
    (axis : Z) (widthsample : float) : M t float :=
  self ← get;
  '(pureavg, defavg) ←
    lift (shift_to_origin axis_grid pureavg defavg lattice
                          defect_frac_position axis);
  v_G ← lift (long_range_potential self (length axis_grid) lattice q axis);
  let v_R := fft v_G in
  lift (imaginary_gate self v_R);;
  sample_alignment axis_grid pureavg defavg lattice q axis widthsample v_R.

(** *** [get_correction] (lines 67-135) *)

(** Lines 101-112: the grids and planar averages of the axes to treat. *)
Definition select_axes (self : t) (params : Py.dict)
  : result (list (list float * list float * list float * Z)) :=
  match axis self with
  | AxisNone =>
      list_axis_grid ← Py.dict_getitem params "axis_grid" ≫= Py.as_grid;
      list_bulk ← Py.dict_getitem params "bulk_planar_averages" ≫= Py.as_grid;
      list_defect ← Py.dict_getitem params "defect_planar_averages"
                    ≫= Py.as_grid;
      let list_axes := Py.range 0 (Z.of_nat (length list_axis_grid)) in
      Return (zip_with (fun '(x, pureavg, defavg) ax => (x, pureavg, defavg, ax))
                (zip (zip list_axis_grid list_bulk) list_defect) list_axes)
  | AxisInt _ => Raise TypeError
  | AxisList list_axes =>
      mapM (fun ax =>
              grids ← Py.dict_getitem params "axis_grid";
              x ← Py.getitem grids (KInt ax) ≫= Py.as_num_list;
              bulk ← Py.dict_getitem params "bulk_planar_averages";
              pureavg ← Py.getitem bulk (KInt ax) ≫= Py.as_num_list;
              defects ← Py.dict_getitem params "defect_planar_averages";
              defavg ← Py.getitem defects (KInt ax) ≫= Py.as_num_list;
              Return (x, pureavg, defavg, ax))
           list_axes
  end.

Definition entry_param (k : key) : M (t * DefectEntry) value :=
  s ← get; lift (Py.dict_getitem (parameters (snd s)) k).

Definition set_entry_param (k : key) (v : value) : M (t * DefectEntry) unit :=
  on_snd (modify (set_parameters (fun p => <[ k := v ]> p))).

(** Lines 123-128: one call of [perform_pot_corr] per axis. *)
Definition axes_loop (lattice : Lattice) (q : float)
    (defect_frac_coords : value)
    (axes : list (list float * list float * list float * Z))
  : M t (list float) :=
  foldM (fun pot_corr_tracker '(x, pureavg, defavg, ax) =>
           tmp_pot_corr ← perform_pot_corr x pureavg defavg lattice q
                                           defect_frac_coords ax 1;
           mret (pot_corr_tracker ++ [tmp_pot_corr]))
        [] axes.

Definition get_correction : M (t * DefectEntry) correction :=
  s ← get;
  axes ← lift (select_axes (fst s) (parameters (snd s)));
  structure ← entry_param "initial_defect_structure"
              ≫= fun v => lift (Py.as_structure v);
  let lattice := lattice structure in
  defect_frac_coords ← entry_param "defect_frac_sc_coords";
  let q := F.of_Z (entry_charge (snd s)) in
  es_corr ← lift (perform_es_corr (fst s) lattice q (1 # 10000));
  pot_corr_tracker ← on_fst (axes_loop lattice q defect_frac_coords axes);
  let pot_corr := F.mean pot_corr_tracker in
  self ← on_fst get;
  set_entry_param "freysoldt_meta" (VDict (metadata self));;
  let potalign := if F.truthy q then pot_corr / - q else Fin 0 in
  set_entry_param "potalign" (VNum potalign);;
  mret (mkCorrection es_corr pot_corr).

(** *** Vocabulary of the specification *)

(** The long-range model potential in real space, in eV: the real part
    of the transform over the cell volume in bohr^3. *)
Definition long_range_real (lattice : Lattice) (v_R : list complex)
  : list float :=
  map (fun z => fst z / (volume lattice
                         * (ang_to_bohr * ang_to_bohr * ang_to_bohr)%Q)
                * hart_to_ev)
      v_R.

(** The short-range residual at grid point [i]: the difference of the
    planar averages less the long-range potential. *)
Definition residual (pureavg defavg long_range : list float) (i : nat)
  : float :=
  nth i defavg NaN - nth i pureavg NaN - nth i long_range NaN.

(** The grid points of the sampling window: [checkdis] points on either
    side of the middle of a grid of [n] points. *)
Definition sampling_window (n checkdis : nat) : list nat :=
  seq (n / 2 - checkdis) (2 * checkdis + 1).

(** The alignment constant [C]: minus the mean of the residual over the
    sampling window. *)
Definition alignment_constant (pureavg defavg long_range : list float)
    (checkdis : nat) : float :=
  - F.mean (map (residual pureavg defavg long_range)
                (sampling_window (length long_range) checkdis)).

End Methods.

End FreysoldtCorrection.

(** ** KumagaiCorrection (corrections.py, lines 334-638) *)

Module KumagaiCorrection.

Import Crystal.

(** [self]: the dielectric tensor and the [metadata] dictionary. *)
Record t := mk {
  dielectric : matrix3;
  metadata : Py.dict
}.

(** [__init__] (lines 345-367). *)
Definition init (dielectric_tensor : dielectric_arg)
    (sampling_radius gamma : value) : t :=
  mk (match dielectric_tensor with
      | Scalar x => isotropic x
      | Tensor m => m
      end)
     {[ KStr "gamma" := gamma;
        KStr "sampling_radius" := sampling_radius;
        KStr "potalign" := VNone ]}.

(** [self.metadata[k] = v] *)
Definition set_meta (k : key) (v : value) : M t unit :=
  modify (fun self => mk (dielectric self) (<[ k := v ]> (metadata self))).

Definition meta (k : key) : M t value :=
  self ← get; lift (Py.dict_getitem (metadata self) k).

(** [0.0001], the tolerance of line 421 and line 428. *)
Definition es_tolerance : Q := 1 # 10000.

Definition not_converged_msg : string :=
  "Correction still not converged after trying prec_sets up to 35... serious error.".

(** The returned dictionary: [kumagai_electrostatic] and
    [kumagai_potential_alignment]. *)
Record correction := mkCorrection {
  kumagai_electrostatic : float;
  kumagai_potential_alignment : float
}.

(** The samples of [for_correction] as the specification words them:
    the residual [Vqb - Vpc] of every site whose distance to the defect
    strictly exceeds the sampling radius, in site order. *)
Definition alignment_samples (sampling_radius : float)
    (sites : list (float * float * float)) : list float :=
  map (fun '(dist_to_defect, Vqb, Vpc) => (Vqb - Vpc)%F)
      (List.filter (fun '(dist_to_defect, _, _) =>
                      (sampling_radius <? dist_to_defect)%F) sites).

(** The triples (distance to the defect, [Vqb], [Vpc]) of the sites, from
    the site list and what [site_potential] computes for each site. *)
Definition sampled (site_list : list (Crystal.Site * float))
    (infos : list (float * float * nat)) : list (float * float * float) :=
  zip_with (fun '(_, Vqb) '(dist_to_defect, Vpc, _) =>
              (dist_to_defect, Vqb, Vpc))
           site_list infos.

(** The alignment constant as the specification words it. *)
Definition alignment_constant (samples : list float) : float :=
  match samples with
  | [] => Fin 0
  | _ => (F.sum samples / F.of_nat (length samples))%F
  end.

Section Methods.

(** Constants and routines of [pymatgen.analysis.defects.utils]. *)
Variable kumagai_to_V : Q.
Variable tune_for_gamma : Lattice -> matrix3 -> float.
(** [generate_R_and_G_vecs(gamma, prec_set, lattice, epsilon)]:
    [(g_vecs, recip_summation, r_vecs, real_summation)], one entry per
    precision. *)
Variable generate_R_and_G_vecs :
  float -> list Z -> Lattice -> matrix3 ->
  list (list vec) * list float * list (list vec) * list float.

(** numpy and scipy. *)
Variable np_pi : Q.
Variables (np_sqrt np_exp np_cos erfc : float -> float).
Variable describe : list float -> result Scipy.DescribeResult.

(** pymatgen's sites and structures. *)
Variable distance_and_image_from_frac_coords : Site -> vec -> float * vec.
Variable structure_index : Structure -> Site -> result nat.

Local Open Scope Q_scope.
Local Open Scope float_scope.

(** [np.linalg.norm] *)
Definition norm (v : vec) : float := np_sqrt (dot v v).

(** [np.linalg.inv] *)
Definition inv (m : matrix3) : result matrix3 :=
  if det m =? 0 then Raise LinAlgError
  else Return (mscale (1 / det m) (adjugate m)).

(** Lines 583-599. *)
Definition get_real_summation (self : t) (gamma : float)
    (real_vectors : list vec) : result float :=
  invepsilon ← inv (dielectric self);
  let rd_epsilon := np_sqrt (det (dielectric self)) in
  let real_part :=
    fold_left (fun real_part r_vec =>
                 if (1 # 100000000)%Q <? norm r_vec then
                   let loc_res :=
                     np_sqrt (dot r_vec (mat_vec invepsilon r_vec)) in
                   let nmr := erfc (gamma * loc_res) in
                   real_part + nmr / loc_res
                 else real_part)
              real_vectors (Fin 0) in
  Return (real_part / (4 * np_pi * rd_epsilon)).

(** Lines 601-616. *)
Definition get_recip_summation (self : t) (gamma : float)
    (recip_vectors : list vec) (volume : float) (r : vec) : float :=
  let recip_part :=
    fold_left (fun recip_part g_vec =>
                 let Gdotdiel := dot g_vec (mat_vec (dielectric self) g_vec) in
                 let summand :=
                   np_exp (- Gdotdiel / (4 * (gamma * gamma)))
                   * np_cos (dot g_vec r) / Gdotdiel in
                 recip_part + summand)
              recip_vectors (Fin 0) in
  recip_part / volume.

(** Lines 618-627. *)
Definition get_self_interaction (self : t) (gamma : float) : float :=
  let determ := det (dielectric self) in
  - gamma / (2 * np_pi * np_sqrt (np_pi * determ)).

(** Lines 629-638. *)
Definition get_potential_shift (gamma volume : float) : result float :=
  Py.py_div (- (1 # 4)%Q) (volume * (gamma * gamma)).

(** *** [perform_pot_corr] (lines 482-581) *)

(** Lines 522-541 for one site: the distance to the defect, the model
    potential [Vpc] and the index of the site in the defect structure. *)
Definition site_potential (self : t) (defect_structure : Structure)
    (defect_frac_coords : value) (q : float) (r_vecs g_vecs : list vec)
    (gamma potential_shift : float) (site : Site)
  : result (float * float * nat) :=
  let volume := volume (lattice defect_structure) in
  defect_frac ← Py.as_vec defect_frac_coords;
  let '(dist, jimage) :=
    distance_and_image_from_frac_coords site defect_frac in
  let vec_defect_to_site :=
    get_cartesian_coords (lattice defect_structure)
      (vsub (vsub (frac_coords site) jimage) defect_frac) in
  let dist_to_defect := norm vec_defect_to_site in
  if (1 # 1000)%Q <? F.abs (dist_to_defect - dist)
  then Raise (ValueError "Error in computing vector to defect")
  else
    let relative_real_vectors :=
      map (fun r_vec => vsub r_vec vec_defect_to_site) r_vecs in
    real_sum ← get_real_summation self gamma relative_real_vectors;
    let recip_sum := get_recip_summation self gamma g_vecs volume
                                         vec_defect_to_site in
    let Vpc := (real_sum + recip_sum + potential_shift) * kumagai_to_V * q in
    defect_struct_index ← structure_index defect_structure site;
    Return (dist_to_defect, Vpc, defect_struct_index).

(** One turn of the loop of line 521; the loop state is [pot_dict] and
    [for_correction]. *)
Definition site_step (self : t) (defect_structure : Structure)
    (defect_frac_coords sampling_radius : value) (q : float)
    (r_vecs g_vecs : list vec) (gamma potential_shift : float)
    (st : Py.dict * list float) (entry : Site * float)
  : result (Py.dict * list float) :=
  let '(pot_dict, for_correction) := st in
  let '(site, Vqb) := entry in
  '(dist_to_defect, Vpc, defect_struct_index) ←
    site_potential self defect_structure defect_frac_coords q r_vecs g_vecs
                   gamma potential_shift site;
  let pot_dict' :=
    <[ KInt (Z.of_nat defect_struct_index) :=
         VDict {[ KStr "Vpc" := VNum Vpc;
                  KStr "Vqb" := VNum Vqb;
                  KStr "dist_to_defect" := VNum dist_to_defect ]} ]> pot_dict in
  radius ← Py.as_num sampling_radius;
  if radius <? dist_to_defect
  then Return (pot_dict', for_correction ++ [Vqb - Vpc])
  else Return (pot_dict', for_correction).

Definition perform_pot_corr (defect_structure : Structure)
    (defect_frac_coords : value) (site_list : list (Site * float))
    (sampling_radius : value) (q : float) (r_vecs g_vecs : list vec)
    (gamma : float) : M t float :=
  self ← get;
  let volume := volume (lattice defect_structure) in
  potential_shift ← lift (get_potential_shift gamma volume);
  '(pot_dict, for_correction) ←
    lift (foldR (site_step self defect_structure defect_frac_coords
                           sampling_radius q r_vecs g_vecs gamma
                           potential_shift)
                (∅, []) site_list);
  let pot_alignment :=
    match for_correction with
    | [] => Fin 0
    | _ => F.mean for_correction
    end in
  set_meta "potalign" (VNum pot_alignment);;
  let pot_corr := - q * pot_alignment in
  stats ← lift (describe for_correction);
  set_meta "pot_corr_uncertainty_md"
    (VDict {[ KStr "stats" := Scipy.asdict stats;
              KStr "number_sampled" :=
                VNum (F.of_nat (length for_correction)) ]});;
  set_meta "pot_plot_data" (VDict pot_dict);;
  mret pot_corr.

(** *** [get_correction] (lines 369-456) *)

(** Line 417 (and 427): the two electrostatic sums for a precision pair,
    with the lattice vectors they were computed from. *)
Definition lattice_sums (self : t) (gamma : float) (prec_set : list Z)
    (lattice : Lattice) (pot_shift si : float)
  : result (list (list vec) * list (list vec) * list float) :=
  let '(g_vecs, recip_summation, r_vecs, real_summation) :=
    generate_R_and_G_vecs gamma prec_set lattice (dielectric self) in
  es_corr ← mapM (fun ind =>
                    re ← Py.list_getitem real_summation ind;
                    rc ← Py.list_getitem recip_summation ind;
                    Return (re + rc + pot_shift + si))
                 [0; 1]%Z;
  Return (g_vecs, r_vecs, es_corr).

(** [abs(es_corr[0] - es_corr[1])] *)
Definition spread (es_corr : list float) : result float :=
  a ← Py.list_getitem es_corr 0;
  b ← Py.list_getitem es_corr 1;
  Return (F.abs (a - b)).

(** Lines 411-429: the sums at [[25, 28]], redone at [[30, 35]] when the
    first two disagree. *)
Definition converged_sums (self : t) (gamma : float) (lattice : Lattice)
    (pot_shift si : float)
  : result (list (list vec) * list (list vec) * list float) :=
  '(g_vecs, r_vecs, es_corr) ←
    lattice_sums self gamma [25; 28]%Z lattice pot_shift si;
  d ← spread es_corr;
  if es_tolerance <? d then
    '(g_vecs, r_vecs, es_corr) ←
      lattice_sums self gamma [30; 35]%Z lattice pot_shift si;
    d ← spread es_corr;
    if d <? es_tolerance
    then Raise (ValueError not_converged_msg)
    else Return (g_vecs, r_vecs, es_corr)
  else Return (g_vecs, r_vecs, es_corr).

(** Lines 434-440. *)
Definition wigner_seitz_radius (lattice : Lattice) : result float :=
  Py.min_list (map (fun facet => norm (centroid facet))
                   (wigner_seitz_cell lattice)).

(** Lines 445-447 for one pair of matching indices. *)
Definition matched_site (bulk_atomic_site_averages
    defect_atomic_site_averages : value) (defect_sc_structure : Structure)
    (pair : value) : result (Site * float) :=
  '(bs_ind, ds_ind) ← match pair with
                      | VList [b; d] => Return (b, d)
                      | VList _ => Raise (ValueError "not enough values to unpack")
                      | _ => Raise TypeError
                      end;
  ds ← Py.as_num ds_ind ≫= F.trunc;
  dv ← Py.getitem defect_atomic_site_averages (KInt ds) ≫= Py.as_num;
  bs ← Py.as_num bs_ind ≫= F.trunc;
  bv ← Py.getitem bulk_atomic_site_averages (KInt bs) ≫= Py.as_num;
  let Vqb := - (dv - bv) in
  site ← Py.list_getitem (sites defect_sc_structure) ds;
  Return (site, Vqb).

Definition entry_param (k : key) : M (t * DefectEntry) value :=
  s ← get; lift (Py.dict_getitem (parameters (snd s)) k).

Definition set_entry_param (k : key) (v : value) : M (t * DefectEntry) unit :=
  on_snd (modify (set_parameters (fun p => <[ k := v ]> p))).

(** Lines 408-429: the Ewald parameter, the converged electrostatic sum
    [es_corr[0]] and the lattice vectors it was computed from. *)
Definition electrostatic_sum (lattice : Lattice)
  : M t (float * float * list (list vec) * list (list vec)) :=
  gamma0 ← meta "gamma";
  (if Py.truthy gamma0 then mret tt
   else self ← get;
        set_meta "gamma" (VNum (tune_for_gamma lattice (dielectric self))));;
  gamma ← meta "gamma" ≫= fun v => lift (Py.as_num v);
  self ← get;
  pot_shift ← lift (get_potential_shift gamma (volume lattice));
  let si := get_self_interaction self gamma in
  '(g_vecs, r_vecs, es_corr) ←
    lift (converged_sums self gamma lattice pot_shift si);
  es0 ← lift (Py.list_getitem es_corr 0);
  mret (gamma, es0, g_vecs, r_vecs).

(** Lines 433-440. *)
Definition default_sampling_radius (lattice : Lattice) : M t unit :=
  radius0 ← meta "sampling_radius";
  if Py.truthy radius0 then mret tt
  else radius ← lift (wigner_seitz_radius lattice);
       set_meta "sampling_radius" (VNum radius).

Definition get_correction : M (t * DefectEntry) correction :=
  bulk_atomic_site_averages ← entry_param "bulk_atomic_site_averages";
  defect_atomic_site_averages ← entry_param "defect_atomic_site_averages";
  site_matching_indices ← entry_param "site_matching_indices";
  defect_sc_structure ← entry_param "initial_defect_structure";
  defect_frac_sc_coords ← entry_param "defect_frac_sc_coords";
  defect_sc_structure ← lift (Py.as_structure defect_sc_structure);
  let lattice := lattice defect_sc_structure in
  s ← get;
  let q := F.of_Z (entry_charge (snd s)) in
  '(gamma, es0, g_vecs, r_vecs) ← on_fst (electrostatic_sum lattice);
  let es_corr := es0 * - (q * q) * kumagai_to_V / 2 in
  on_fst (default_sampling_radius lattice);;
  pairs ← lift (Py.as_list site_matching_indices);
  site_list ← lift (mapM (matched_site bulk_atomic_site_averages
                                       defect_atomic_site_averages
                                       defect_sc_structure) pairs);
  sampling_radius ← on_fst (meta "sampling_radius");
  r_vecs0 ← lift (Py.list_getitem r_vecs 0);
  g_vecs0 ← lift (Py.list_getitem g_vecs 0);
  pot_corr ← on_fst (perform_pot_corr defect_sc_structure
                       defect_frac_sc_coords site_list sampling_radius q
                       r_vecs0 g_vecs0 gamma);
  self ← on_fst get;
  set_entry_param "kumagai_meta" (VDict (metadata self));;
  let potalign := if F.truthy q then pot_corr / - q else Fin 0 in
  set_entry_param "potalign" (VNum potalign);;
  mret (mkCorrection es_corr pot_corr).

End Methods.

End KumagaiCorrection.
(** ** BandFillingCorrection (corrections.py, lines 707-811) *)

Module BandFillingCorrection.

(** [self]: the energy resolution and the [metadata] dictionary, whose
    three entries start as [None]. *)
Record t := mk {
  resolution : Q;
  num_hole_vbm : option Q;
  num_elec_cbm : option Q;
  potalign : option Q
}.

Definition init (resolution : Q) : t := mk resolution None None None.

(** One spin channel: a list of k-point sets, each a list of
    [(eigenvalue, occupation)] pairs. *)
Definition spinset := list (list (Q * Q)).

(** [eigenvalues]: a dict keyed by spin channel, in insertion order. *)
Definition spectrum := list (key * spinset).

(** [list(eigenvalues.values())[0][0][0][1]] *)
Definition core_occupation (eigenvalues : spectrum) : result Q :=
  match eigenvalues with
  | (_, ((_, occu) :: _) :: _) :: _ => Return occu
  | _ => Raise IndexError
  end.

(** Lines 785-791. *)
Definition spin_factor (eigenvalues : spectrum) (core_occupation_value : Q)
  : result Q :=
  match length eigenvalues with
  | 1%nat => Return (if (core_occupation_value =? 1)%Q then 2 else 1)%Q
  | 2%nat => Return 1%Q
  | _ => Raise (ValueError "Eigenvalue keys greater than 2")
  end.

(** The loop variables: [bf_corr] and the two counters kept in
    [self.metadata], which lines 781-782 have just reset to [0.]. *)
Record acc := mk_acc { bf_corr : Q; elec : Q; hole : Q }.

Section Loop.
Variables (resolution core_occupation_value spinfctr : Q).
Variables (shifted_cbm shifted_vbm : Q).
Local Open Scope Q_scope.

(** Lines 800-807, the body of the innermost loop. *)
Definition state_step (weight : Q) (a : acc) (st : Q * Q) : acc :=
  let '(eig, occu) := st in
  if Num.truthy occu && (shifted_cbm - resolution <? eig) then
    mk_acc (bf_corr a + weight * spinfctr * occu * (eig - shifted_cbm))
           (elec a + weight * spinfctr * occu)
           (hole a)
  else if negb (occu =? core_occupation_value)
          && (eig <=? shifted_vbm + resolution) then
    mk_acc (bf_corr a + weight * spinfctr * (core_occupation_value - occu)
                        * (shifted_vbm - eig))
           (elec a)
           (hole a + weight * spinfctr * (core_occupation_value - occu))
  else a.

(** [for kptset, weight in zip(spinset, kpoint_weights)] *)
Definition spinset_loop (kpoint_weights : list Q) (a : acc) (s : spinset)
  : acc :=
  fold_left (fun a '(kptset, weight) => fold_left (state_step weight) kptset a)
            (zip s kpoint_weights) a.

(** [for spinset in eigenvalues.values()] *)
Definition spectrum_loop (kpoint_weights : list Q) (eigenvalues : spectrum)
  : acc :=
  fold_left (spinset_loop kpoint_weights) (map snd eigenvalues)
            (mk_acc 0 0 0).
End Loop.

(** Lines 770-811. *)
Definition perform_bandfill_corr (eigenvalues : spectrum)
    (kpoint_weights : list Q) (potalign vbm cbm : Q) : M t Q :=
  self ← get;
  put (mk (resolution self) (Some 0%Q) (Some 0%Q) (Some potalign));;
  core_occupation_value ← lift (core_occupation eigenvalues);
  spinfctr ← lift (spin_factor eigenvalues core_occupation_value);
  let shifted_cbm := (potalign + cbm)%Q in
  let shifted_vbm := (potalign + vbm)%Q in
  let a := spectrum_loop (resolution self) core_occupation_value spinfctr
                         shifted_cbm shifted_vbm kpoint_weights eigenvalues in
  put (mk (resolution self) (Some (hole a)) (Some (elec a)) (Some potalign));;
  mret (bf_corr a * -1)%Q.

(** *** Vocabulary of the specification *)

(** A state holds its ideal host occupation when it is a full valence
    state or an empty conduction state: at or below the shifted VBM (plus
    the resolution) it carries the core occupation value, above the
    shifted CBM (minus the resolution) it is empty. *)
Definition ideal_occupation (resolution core shifted_cbm shifted_vbm : Q)
    (st : Q * Q) : Prop :=
  ((shifted_cbm - resolution < fst st)%Q -> (snd st == 0)%Q) /\
  ((fst st <= shifted_vbm + resolution)%Q -> (snd st == core)%Q).

Definition states (eigenvalues : spectrum) : list (Q * Q) :=
  concat (concat (map snd eigenvalues)).

(** The states of the spectrum, each with the weight of its k-point;
    k-point sets beyond the list of weights are left out. *)
Definition weighted_states (kpoint_weights : list Q) (eigenvalues : spectrum)
  : list (Q * (Q * Q)) :=
  concat (map (fun s : spinset =>
                 concat (map (fun '(kptset, weight) =>
                                map (fun st => (weight, st)) kptset)
                             (zip s kpoint_weights)))
              (map snd eigenvalues)).

Section Penalty.
Variables (resolution core shifted_cbm shifted_vbm : Q).
Local Open Scope Q_scope.

(** An electron in the conduction band: a state with nonzero occupation
    above the shifted CBM less the resolution. *)
Definition conduction_electron (st : Q * Q) : bool :=
  negb (snd st =? 0) && (shifted_cbm - resolution <? fst st).

(** A hole in the valence band: a state at or below the shifted VBM plus
    the resolution whose occupation is not the core occupation (and
    which is not counted as a conduction electron). *)
Definition valence_hole (st : Q * Q) : bool :=
  negb (conduction_electron st)
  && negb (snd st =? core) && (fst st <=? shifted_vbm + resolution).

(** For a unit spin factor: the number of free electrons, the number of
    free holes, and the penalty (weighted occupation times the distance
    to the band edge). *)
Definition free_electrons (ws : list (Q * (Q * Q))) : Q :=
  Num.sum (map (fun '(weight, st) =>
                  if conduction_electron st then weight * snd st else 0)
               ws).

Definition free_holes (ws : list (Q * (Q * Q))) : Q :=
  Num.sum (map (fun '(weight, st) =>
                  if valence_hole st then weight * (core - snd st) else 0)
               ws).

Definition penalty (ws : list (Q * (Q * Q))) : Q :=
  Num.sum (map (fun '(weight, st) =>
                  if conduction_electron st
                  then weight * snd st * (fst st - shifted_cbm)
                  else if valence_hole st
                  then weight * (core - snd st) * (shifted_vbm - fst st)
                  else 0)
               ws).
End Penalty.

End BandFillingCorrection.


(** A non-spin-polarised host with two valence states and one empty
    conduction state at a single k-point. *)
Module BandFillingExample.
Import BandFillingCorrection.

Definition closed_shell : spectrum :=
  [(KStr "1", [[(0, 2); (1, 2); (5, 0)]])]%Q.

Definition three_channels : spectrum :=
  [(KStr "1", [[(0, 1)]]); (KStr "-1", [[(0, 1)]]); (KStr "0", [[(0, 1)]])]%Q.

Definition unit_occupied : spectrum :=
  [(KStr "1", [[(0, 1); (5, 1 # 2)]])]%Q.

Definition spin_polarised : spectrum :=
  [(KStr "1", [[(0, 1); (5, 1 # 2)]]); (KStr "-1", [[(0, 1); (5, 0)]])]%Q.
End BandFillingExample.

(** ** DefectCompatibility (compatibility.py) *)

Module DefectCompatibility.

Import Crystal.

(** [self]: the qualifiers set by [__init__] (lines 48-72). *)
Record t := mk {
  plnr_avg_var_tol : float;
  plnr_avg_minmax_tol : float;
  atomic_site_var_tol : float;
  atomic_site_minmax_tol : float;
  tot_relax_tol : float;
  perc_relax_tol : float;
  defect_tot_relax_tol : float;
  preferred_cc : string;
  free_chg_cutoff : float;
  use_bandfilling : bool;
  use_bandedgeshift : bool
}.

(** The default qualifiers of [__init__]. *)
Definition defaults : t :=
  mk (1 # 10)%Q (1 # 10)%Q (1 # 10)%Q (1 # 10)%Q (1 # 10)%Q (1 # 10)%Q
     (1 # 10)%Q "freysoldt" 2%Q true true.

(** The methods [class DefectCompatibility] defines; its base class
    [MSONable] adds serialisation helpers only. *)
Definition methods : list string :=
  ["process_entry"; "perform_all_corrections"; "perform_freysoldt";
   "perform_kumagai"; "run_bandfilling"; "run_band_edge_shifting";
   "delocalization_analysis"; "is_freysoldt_delocalized";
   "is_kumagai_delocalized"; "is_final_relaxed_structure_delocalized";
   "as_dict"; "from_dict"; "to_json"; "unsafe_hash"].

(** Looking up [self.name]. *)
Definition getattr (name : string) : result unit :=
  if bool_decide (name ∈ methods) then Return tt
  else Raise (AttributeError name).

(** The names [corrections.py] binds at its top level: its imports, its
    logger and its five classes. *)
Definition corrections_names : list string :=
  ["logging"; "np"; "scipy"; "math"; "stats"; "Structure";
   "DefectCorrection"; "Interstitial"; "ang_to_bohr"; "hart_to_ev";
   "eV_to_k"; "generate_reciprocal_vectors_squared"; "QModel"; "converge";
   "tune_for_gamma"; "generate_R_and_G_vecs"; "kumagai_to_V"; "logger";
   "FreysoldtCorrection"; "KumagaiCorrection"; "BandFillingCorrection";
   "BandEdgeShiftingCorrection"; "LevelShiftCorrection"].

(** The names line 8 asks [corrections.py] for. *)
Definition imported_from_corrections : list string :=
  ["FreysoldtCorrection"; "KumagaiCorrection"; "BandFillingCorrection";
   "generate_g_sum"; "find_optimal_gamma"; "BandEdgeShiftingCorrection"].

(** [from module import n1, n2, ...]: the first name the module does not
    define raises [ImportError]. *)
Definition import_from (defined names : list string) : result unit :=
  match List.find (fun n => negb (bool_decide (n ∈ defined))) names with
  | Some n => Raise (ImportError n)
  | None => Return tt
  end.

(** Loading [compatibility.py] as it stands: line 8 fails, because
    [corrections.py] defines neither [generate_g_sum] nor
    [find_optimal_gamma].  The methods of the class are embedded below
    as their bodies read. *)
Definition load_module : result unit :=
  import_from corrections_names imported_from_corrections.

(** Names bound at module level: those of the imports of lines 7-11
    that resolve, and the class. *)
Definition module_globals : list string :=
  ["MSONable"]
  ++ List.filter (fun n => bool_decide (n ∈ corrections_names))
                 imported_from_corrections
  ++ ["Vacancy"; "SpacegroupAnalyzer"; "DefectCompatibility"].

(** Reading the variable [name] in a function whose local variables are
    [locals]. *)
Definition read_name (locals : list string) (name : string) : result unit :=
  if bool_decide (name ∈ locals ++ module_globals) then Return tt
  else Raise (NameError name).

Definition param (k : key) : M DefectEntry value :=
  e ← get; lift (Py.dict_getitem (parameters e) k).

Definition has_param (k : key) : M DefectEntry bool :=
  e ← get; mret (bool_decide (is_Some (parameters e !! k))).

(** [defect_entry.parameters.update({k: v})] *)
Definition update_param (k : key) (v : value) : M DefectEntry unit :=
  modify (set_parameters (fun p => Py.update p {[ k := v ]})).

Definition check_record (is_compatible : bool) (metadata : Py.dict) : value :=
  VDict {[ KStr "is_compatible" := VBool is_compatible;
           KStr "metadata" := VDict metadata ]}.

Section Methods.
Variable self : t.
Local Open Scope Q_scope.
Local Open Scope float_scope.

(** *** [is_freysoldt_delocalized] (lines 284-307) *)

(** One turn of the loop over the axes (lines 288-302); the loop state
    is [plnr_avg_analyze_meta] and [plnr_avg_allows_compatible]. *)
Definition planar_axis_check (st : Py.dict * bool) (ax : Z)
  : M DefectEntry (Py.dict * bool) :=
  let '(plnr_avg_analyze_meta, plnr_avg_allows_compatible) := st in
  frey_meta ← param "freysoldt_meta";
  freystats ← lift (md ← Py.getitem frey_meta "pot_corr_uncertainty_md";
                    axmd ← Py.getitem md (KInt ax);
                    Py.getitem axmd "stats");
  variance ← lift (Py.getitem freystats "variance");
  variance_num ← lift (Py.as_num variance);
  let frey_variance_compatible := variance_num <=? plnr_avg_var_tol self in
  hi_v ← lift (Py.getitem freystats "minmax" ≫= fun mm => Py.getitem mm (KInt 1));
  lo_v ← lift (Py.getitem freystats "minmax" ≫= fun mm => Py.getitem mm (KInt 0));
  hi ← lift (Py.as_num hi_v);
  lo ← lift (Py.as_num lo_v);
  let frey_window := F.abs (hi - lo) in
  let frey_minmax_compatible := frey_window <=? plnr_avg_minmax_tol self in
  (* plnr_avg_analyze_meta[ax].update({...}) *)
  axis_meta ← lift (Py.dict_getitem plnr_avg_analyze_meta (KInt ax)
                    ≫= Py.as_dict);
  let axis_meta' :=
    Py.update axis_meta
      {[ KStr "frey_variance_compatible" := VBool frey_variance_compatible;
         KStr "frey_variance" := variance;
         KStr "plnr_avg_var_tol" := VNum (plnr_avg_var_tol self);
         KStr "frey_minmax_compatible" := VBool frey_minmax_compatible;
         KStr "frey_minmax_window" := VNum frey_window;
         KStr "plnr_avg_minmax_tol" := VNum (plnr_avg_minmax_tol self) ]} in
  mret (<[ KInt ax := VDict axis_meta' ]> plnr_avg_analyze_meta,
        if negb frey_variance_compatible || negb frey_minmax_compatible
        then false else plnr_avg_allows_compatible).

Definition is_freysoldt_delocalized : M DefectEntry unit :=
  '(plnr_avg_analyze_meta, plnr_avg_allows_compatible) ←
    foldM planar_axis_check (∅, true) [0; 1; 2]%Z;
  update_param "delocalization_meta"
    (VDict {[ KStr "plnr_avg" :=
                check_record plnr_avg_allows_compatible
                             plnr_avg_analyze_meta ]}).

(** *** [is_kumagai_delocalized] (lines 309-330) *)

Definition is_kumagai_delocalized : M DefectEntry unit :=
  kumagai_meta ← param "kumagai_meta";
  kumagaistats ← lift (md ← Py.getitem kumagai_meta "pot_corr_uncertainty_md";
                       Py.getitem md "stats");
  variance ← lift (Py.getitem kumagaistats "variance");
  variance_num ← lift (Py.as_num variance);
  let kumagai_variance_compatible :=
    variance_num <=? atomic_site_var_tol self in
  hi_v ← lift (Py.getitem kumagaistats "minmax" ≫= fun mm => Py.getitem mm (KInt 1));
  lo_v ← lift (Py.getitem kumagaistats "minmax" ≫= fun mm => Py.getitem mm (KInt 0));
  hi ← lift (Py.as_num hi_v);
  lo ← lift (Py.as_num lo_v);
  let kumagai_window := F.abs (hi - lo) in
  let kumagai_minmax_compatible :=
    kumagai_window <=? atomic_site_minmax_tol self in
  let atomic_site_analyze_meta : Py.dict :=
    {[ KStr "kumagai_variance_compatible" := VBool kumagai_variance_compatible;
       KStr "kumagai_variance" := variance;
       KStr "atomic_site_var_tol" := VNum (atomic_site_var_tol self);
       KStr "kumagai_minmax_compatible" := VBool kumagai_minmax_compatible;
       KStr "kumagai_minmax_window" := VNum kumagai_window;
       KStr "plnr_avg_minmax_tol" := VNum (atomic_site_minmax_tol self) ]} in
  let atomic_site_allows_compatible :=
    kumagai_variance_compatible && kumagai_minmax_compatible in
  update_param "delocalization_meta"
    (VDict {[ KStr "atomic_site" :=
                check_record atomic_site_allows_compatible
                             atomic_site_analyze_meta ]}).

(** *** [is_final_relaxed_structure_delocalized] (lines 332-409) *)

Section Relaxation.
(** [defect.generate_defect_structure(sc_scale)] *)
Variable generate_defect_structure : Defect -> value -> Structure.
(** [SpacegroupAnalyzer(s).get_symmetrized_structure()
    .get_sites_in_sphere(site.coords, r, include_index=True)]:
    triples (site, distance, index). *)
Variable get_sites_in_sphere :
  Structure -> Site -> float -> list (Site * float * Z).
(** [lattice.get_all_distance(fcoords1, fcoords2)], one row per
    element of [fcoords1]. *)
Variable get_all_distance :
  Lattice -> list vec -> list vec -> list (list float).

(** A row of [distdata]: distance to the defect, distance travelled,
    index in the structure, and (line 370) the percentage. *)
Definition row_le (a b : float * float * nat) : bool :=
  let '(d1, m1, i1) := a in
  let '(d2, m2, i2) := b in
  if d1 <? d2 then true
  else if d1 =? d2 then
         if m1 <? m2 then true
         else if m1 =? m2 then (i1 <=? i2)%nat else false
       else false.

(** Lines 341-348. *)
Definition find_defindex (e : DefectEntry) (initial : Structure)
  : result (option Z) :=
  match kind (defect e) with
  | Vacancy => Return None
  | _ =>
      let poss_deflist :=
        Py.sorted (fun a b => snd (fst a) <=? snd (fst b))
                  (get_sites_in_sphere initial (site (defect e)) 2) in
      match poss_deflist with
      | [] => Raise IndexError
      | (_, _, index) :: _ => Return (Some index)
      end
  end.

(** [distmatrix[i, j]] *)
Definition entry_at (distmatrix : list (list float)) (i j : Z)
  : result float :=
  Py.list_getitem distmatrix i ≫= fun row => Py.list_getitem row j.

(** Lines 356-364.  For a vacancy [defindex] is [None] and
    [distmatrix[ind, None]] is the whole row as an array; ordering or
    comparing such rows raises unless the array has a single
    element, which is then the value used. *)
Definition distdata_step (distmatrix : list (list float))
    (defindex : option Z) (st : float * list (float * float * nat))
    (ind : nat) : result (float * list (float * float * nat)) :=
  let '(totpert, distdata) := st in
  if bool_decide (defindex = Some (Z.of_nat ind)) then Return st
  else
    moved ← entry_at distmatrix (Z.of_nat ind) (Z.of_nat ind);
    to_defect ←
      match defindex with
      | Some d => entry_at distmatrix (Z.of_nat ind) d
      | None =>
          Py.list_getitem distmatrix (Z.of_nat ind) ≫= fun row =>
          match row with
          | [d] => Return d
          | _ => Raise (ValueError "The truth value of an array with more than one element is ambiguous")
          end
      end;
    Return (totpert + moved, distdata ++ [(to_defect, moved, ind)]).

(** Lines 369-373. *)
Definition outside_step (totpert : float) (radius_to_sample : value)
    (st : float * float * list value) (row : float * float * nat)
  : result (float * float * list value) :=
  let '(tot_relax_outside_wsrad, perc_relax_outside_wsrad, rows) := st in
  let '(to_defect, moved, ind) := row in
  let perc := 100 * moved / totpert in
  radius ← Py.as_num radius_to_sample;
  let row_v := VList [VNum to_defect; VNum moved;
                      VNum (F.of_nat ind); VNum perc] in
  if radius <? to_defect
  then Return (tot_relax_outside_wsrad + moved,
               perc_relax_outside_wsrad + perc, rows ++ [row_v])
  else Return (tot_relax_outside_wsrad, perc_relax_outside_wsrad,
               rows ++ [row_v]).

Definition index_value (defindex : option Z) : value :=
  match defindex with
  | Some d => VNum (F.of_Z d)
  | None => VNone
  end.

(** Lines 333-387: the structure-relaxation record, together with
    [distmatrix] and [defindex] for the second check. *)
Definition structure_relax_check (e : DefectEntry)
  : result (value * list (list float) * option Z) :=
  let sc_scale := default (VNum 1) (parameters e !! KStr "scaling_matrix") in
  let initial_defect_structure :=
    generate_defect_structure (defect e) sc_scale in
  final_defect_structure ← Py.dict_getitem (parameters e) "final_structure";
  radius_to_sample ← Py.dict_getitem (parameters e) "kumagai_meta"
                     ≫= fun km => Py.getitem km "sampling_radius";
  defindex ← find_defindex e initial_defect_structure;
  finalsites ←
    mapM (fun site_ind =>
            fs ← Py.as_structure final_defect_structure;
            s ← Py.list_getitem (sites fs) (Z.of_nat site_ind);
            Return (frac_coords s))
         (seq 0 (length (sites initial_defect_structure)));
  let initsites := map frac_coords (sites initial_defect_structure) in
  let distmatrix :=
    get_all_distance (lattice initial_defect_structure)
                     finalsites initsites in
  '(totpert, distdata) ←
    foldR (distdata_step distmatrix defindex) (Fin 0, [])
          (seq 0 (length finalsites));
  let distdata := Py.sorted row_le distdata in
  '(tot_relax_outside_wsrad, perc_relax_outside_wsrad, rows) ←
    foldR (outside_step totpert radius_to_sample)
          (Fin 0, Fin 0, []) distdata;
  let structure_tot_relax_compatible :=
    tot_relax_outside_wsrad <=? tot_relax_tol self in
  let structure_perc_relax_compatible :=
    perc_relax_outside_wsrad <=? perc_relax_tol self in
  let structure_relax_analyze_meta : Py.dict :=
    {[ KStr "structure_tot_relax_compatible" :=
         VBool structure_tot_relax_compatible;
       KStr "tot_relax_outside_wsrad" := VNum tot_relax_outside_wsrad;
       KStr "tot_relax_tol" := VNum (tot_relax_tol self);
       KStr "structure_perc_relax_compatible" :=
         VBool structure_perc_relax_compatible;
       KStr "perc_relax_outside_wsrad" := VNum perc_relax_outside_wsrad;
       KStr "perc_relax_tol" := VNum (perc_relax_tol self);
       KStr "full_structure_relax_data" := VList rows;
       KStr "defect_index" := index_value defindex ]} in
  Return (check_record (structure_tot_relax_compatible
                        && structure_perc_relax_compatible)
                       structure_relax_analyze_meta,
          distmatrix, defindex).

(** Lines 395-404. *)
Definition defectsite_relax_check (e : DefectEntry)
    (distmatrix : list (list float)) (defindex : option Z) : result value :=
  match kind (defect e), defindex with
  | Vacancy, _ =>
      Return (check_record true
                {[ KStr "relax_amount" := VNone;
                   KStr "defect_tot_relax_tol" :=
                     VNum (defect_tot_relax_tol self) ]})
  | _, None => Raise TypeError
  | _, Some d =>
      defect_relax_amount ← entry_at distmatrix d d;
      Return (check_record
                (defect_relax_amount <=? defect_tot_relax_tol self)
                {[ KStr "relax_amount" := VNum defect_relax_amount;
                   KStr "defect_tot_relax_tol" :=
                     VNum (defect_tot_relax_tol self) ]})
  end.

Definition is_final_relaxed_structure_delocalized : M DefectEntry unit :=
  e ← get;
  '(structure_relax, distmatrix, defindex) ←
    lift (structure_relax_check e);
  update_param "delocalization_meta"
    (VDict {[ KStr "structure_relax" := structure_relax ]});;
  defectsite_relax ← lift (defectsite_relax_check e distmatrix defindex);
  update_param "delocalization_meta"
    (VDict {[ KStr "defectsite_relax" := defectsite_relax ]}).

(** *** [delocalization_analysis] (lines 238-282) *)

Definition delocalization_analysis : M DefectEntry unit :=
  has_frey ← has_param "freysoldt_meta";
  (if has_frey : bool then is_freysoldt_delocalized else mret tt);;
  has_kumagai ← has_param "kumagai_meta";
  (if has_kumagai : bool then is_kumagai_delocalized else mret tt);;
  has_final_defect ← has_param "final_defect_structure";
  has_final ← has_param "final_structure";
  (if has_final_defect && has_final
   then is_final_relaxed_structure_delocalized else mret tt);;
  (* line 280: {'is_compatible': is_compatible} *)
  lift (read_name ["self"; "defect_entry"] "is_compatible");;
  update_param "is_compatible" VNone.

(** *** [process_entry] (lines 74-133) *)

(** Lines 91-104: the dictionary [corrections] after the choice of
    the charge correction. *)
Definition charge_correction (params : Py.dict)
  : result (gmap key float) :=
  num_hole_vbm ← Py.dict_getitem params "num_hole_vbm" ≫= Py.as_num;
  too_many ← (if free_chg_cutoff self <? num_hole_vbm then Return true
              else num_elec_cbm ← Py.dict_getitem params "num_elec_cbm"
                                  ≫= Py.as_num;
                   Return (free_chg_cutoff self <? num_elec_cbm));
  if too_many : bool then Return ∅
  else if Py.contains "freysoldt" (Py.lower (preferred_cc self)) then
    frey_meta ← Py.dict_getitem params "freysoldt_meta";
    es ← Py.getitem frey_meta "freysoldt_electrostatic" ≫= Py.as_num;
    pa ← Py.getitem frey_meta "freysoldt_potential_alignment_correction"
         ≫= Py.as_num;
    Return {[ KStr "charge_correction" := es + pa ]}
  else
    kumagai_meta ← Py.dict_getitem params "kumagai_meta";
    es ← Py.getitem kumagai_meta "kumagai_electrostatic" ≫= Py.as_num;
    pa ← Py.getitem kumagai_meta "kumagai_potential_alignment_correction"
         ≫= Py.as_num;
    Return {[ KStr "charge_correction" := es + pa ]}.

(** Lines 106-108. *)
Definition add_bandfilling (params : Py.dict)
    (corrections : gmap key float) : result (gmap key float) :=
  if use_bandfilling self then
    bandfilling_meta ← Py.dict_getitem params "bandfilling_meta";
    bfc_corr ← Py.getitem bandfilling_meta "bandfilling_correction"
               ≫= Py.as_num;
    Return (<[ KStr "bandfilling_correction" := bfc_corr ]> corrections)
  else Return corrections.

(** Lines 110-129. *)
Definition add_bandedgeshift (corrections : gmap key float)
  : M DefectEntry (gmap key float) :=
  if use_bandedgeshift self then
    bandfill_meta ← param "bandshift_meta";
    bes_corr ← lift (a ← Py.getitem bandfill_meta "vbm_shift_correction"
                          ≫= Py.as_num;
                     b ← Py.getitem bandfill_meta "hole_vbm_shift_correction"
                          ≫= Py.as_num;
                     c ← Py.getitem bandfill_meta "elec_cbm_shift_correction"
                          ≫= Py.as_num;
                     Return (a + b + c));
    vbm ← param "hybrid_vbm";
    cbm_num ← param "hybrid_cbm" ≫= fun v => lift (Py.as_num v);
    vbm_num ← param "hybrid_vbm" ≫= fun v => lift (Py.as_num v);
    update_param "phasediagram_meta"
      (VDict {[ KStr "vbm" := vbm; KStr "gap" := VNum (cbm_num - vbm_num) ]});;
    mret (<[ KStr "bandedgeshifting_correction" := bes_corr ]> corrections)
  else
    vbm ← param "vbm";
    cbm_num ← param "cbm" ≫= fun v => lift (Py.as_num v);
    vbm_num ← param "vbm" ≫= fun v => lift (Py.as_num v);
    update_param "phasediagram_meta"
      (VDict {[ KStr "vbm" := vbm; KStr "gap" := VNum (cbm_num - vbm_num) ]});;
    mret corrections.

Definition process_entry : M DefectEntry unit :=
  (* line 87: self.perform_corrections(defect_entry) *)
  lift (getattr "perform_corrections");;
  delocalization_analysis;;
  e ← get;
  corrections ← lift (charge_correction (parameters e));
  corrections ← lift (add_bandfilling (parameters e) corrections);
  corrections ← add_bandedgeshift corrections;
  modify (set_correction (fun c => corrections ∪ c)).

End Relaxation.

End Methods.

End DefectCompatibility.

(** A computation never removes a key of the parameter store, whether it
    returns or raises. *)
Definition keeps_keys {A} (m : M DefectEntry A) : Prop :=
  forall (e : DefectEntry) (k : key),
    is_Some (parameters e !! k) -> is_Some (parameters (snd (m e)) !! k).

(** Stand-ins for the numerical and crystallographic collaborators, used
    to run the corrections on concrete entries.  They are rational
    approximations, not the library routines themselves. *)
Module Standins.
Import Crystal.

Local Open Scope Q_scope.

(** A function of the rationals extended to the floats, with its values
    at the two infinities. *)
Definition extend (f : Q -> float) (at_pinf at_ninf : float) (a : float)
  : float :=
  match a with
  | Fin x => f x
  | PInf => at_pinf
  | NInf => at_ninf
  | NaN => NaN
  end.

(** Square root to six decimals; exact on perfect squares. *)
Definition sqrt6 (x : Q) : Q :=
  inject_Z (Z.sqrt (Qnum x * Zpos (Qden x) * 10 ^ 12))
  / (inject_Z (Zpos (Qden x)) * 1000000).

Definition np_sqrt : float -> float :=
  extend (fun x => if x <? 0 then NaN else Fin (sqrt6 x)) PInf NaN.

Definition np_pi : Q := 355 # 113.

(** Low-order expansions around 0. *)
Definition np_exp : float -> float :=
  extend (fun x => Fin (1 + x + x * x / 2 + x * x * x / 6)) PInf (Fin 0).
Definition np_cos : float -> float :=
  extend (fun x => Fin (1 - x * x / 2 + x * x * x * x / 24)) NaN NaN.
Definition erfc : float -> float :=
  extend (fun x => Fin (1 - (2 / sqrt6 np_pi) * (x - x * x * x / 3)))
         (Fin 0) (Fin 2).

Definition kumagai_to_V : Q := 1809512739 # 10000000.
Definition ang_to_bohr : Q := 18897 # 10000.
Definition hart_to_ev : Q := 272114 # 10000.

(** The nearest image is taken to be the one in the home cell. *)
Definition distance_and_image_from_frac_coords (l : Lattice) (s : Site)
    (fcoords : vec) : float * vec :=
  (np_sqrt (let v := get_cartesian_coords l (vsub (frac_coords s) fcoords) in
            dot v v),
   vfin 0 0 0).

(** [list.index] with sites compared by species and coordinates. *)
Definition site_eqb (a b : Site) : bool :=
  String.eqb (species a) (species b)
  && (let '(a1, a2, a3) := frac_coords a in
      let '(b1, b2, b3) := frac_coords b in
      (a1 =? b1)%F && (a2 =? b2)%F && (a3 =? b3)%F).

Fixpoint index_from (n : nat) (l : list Site) (x : Site) : result nat :=
  match l with
  | [] => Raise (ValueError "x is not in list")
  | y :: l' => if site_eqb y x then Return n else index_from (S n) l' x
  end.

Definition structure_index (s : Structure) (x : Site) : result nat :=
  index_from 0 (sites s) x.

(** [scipy.stats.describe]: it rejects an empty sample; the moments
    beyond the variance are not needed and are reported as 0. *)
Definition describe (l : list float) : result Scipy.DescribeResult :=
  match l with
  | [] => Raise (ValueError "The input must not be empty.")
  | x :: l' =>
      let n := F.of_nat (length l) in
      let m := F.mean l in
      let lo := fold_left (fun a y => if (y <? a)%F then y else a) l' x in
      let hi := fold_left (fun a y => if (a <? y)%F then y else a) l' x in
      let ss := F.sum (map (fun y => ((y - m) * (y - m))%F) l) in
      Return (Scipy.mkDescribe (length l) (lo, hi) m (ss / (n - Fin 1))%F
                               (Fin 0) (Fin 0))
  end.

(** [eV_to_k] *)
Definition eV_to_k (encut : Q) : float :=
  (np_sqrt (Fin (encut / (380986 # 100000))) * Fin ang_to_bohr)%F.

(** [scipy.integrate.quad]: the trapezoid rule on eight panels. *)
Definition quad (f : float -> float) (a b : float) : float :=
  let h := ((b - a) / Fin 8)%F in
  (h * (f a / Fin 2
        + F.sum (map (fun i => f (a + F.of_nat i * h)) (seq 1 7))
        + f b / Fin 2))%F.

(** [generate_reciprocal_vectors_squared]: the first two shells along the
    first axis of a cubic cell. *)
Definition generate_reciprocal_vectors_squared (a1 _ _ : vec) (encut : Q)
  : list float :=
  let b := (Fin (2 * np_pi) / fst (fst a1))%F in
  if encut <=? 0 then [] else [b * b; Fin 4 * (b * b)]%F.

(** Sine and cosine of [x] for [-pi <= x <= pi], by their expansions
    around 0 up to the fifteenth power. *)
Definition sin_series (x : Q) : Q :=
  let x2 := x * x in
  x * (1 - x2 / 6 * (1 - x2 / 20 * (1 - x2 / 42 * (1 - x2 / 72
       * (1 - x2 / 110 * (1 - x2 / 156 * (1 - x2 / 210))))))).

Definition cos_series (x : Q) : Q :=
  let x2 := x * x in
  1 - x2 / 2 * (1 - x2 / 12 * (1 - x2 / 30 * (1 - x2 / 56
      * (1 - x2 / 90 * (1 - x2 / 132 * (1 - x2 / 182)))))).

(** [exp(-2 pi i m / n)], exact on the quarter turns. *)
Definition twiddle (m n : nat) : float * float :=
  let m := (m mod n)%nat in
  if (4 * m mod n =? 0)%nat then
    match (4 * m / n)%nat with
    | 0%nat => (Fin 1, Fin 0)
    | 1%nat => (Fin 0, Fin (-1))
    | 2%nat => (Fin (-1), Fin 0)
    | _ => (Fin 0, Fin 1)
    end
  else
    let k := if (n <? 2 * m)%nat then (Z.of_nat m - Z.of_nat n)%Z
             else Z.of_nat m in
    let x := 2 * np_pi * inject_Z k / inject_Z (Z.of_nat n) in
    (Fin (cos_series x), Fin (- sin_series x)).

Definition cadd (a b : float * float) : float * float :=
  (fst a + fst b, snd a + snd b)%F.

Definition cmul (a b : float * float) : float * float :=
  (fst a * fst b - snd a * snd b, fst a * snd b + snd a * fst b)%F.

(** [np.fft.fft]: the discrete Fourier transform
    [X_k = sum_j x_j exp(-2 pi i j k / n)]; a term whose factor is 1 is
    added as it is. *)
Definition fft (v : list (float * float)) : list (float * float) :=
  let n := length v in
  map (fun k =>
         foldr cadd (Fin 0, Fin 0)
               (imap (fun j x => if (j * k mod n =? 0)%nat then x
                                 else cmul x (twiddle (j * k) n))
                     v))
      (seq 0 n).

End Standins.

(** A three-site cubic cell with the defect at the origin. *)
Module KumagaiExample.
Import Crystal KumagaiCorrection.

Local Open Scope Q_scope.

Definition cubic : Lattice :=
  mkLattice (vfin 10 0 0, vfin 0 10 0, vfin 0 0 10) (vfin 10 10 10) 1000
            (vfin (6283 # 10000) (6283 # 10000) (6283 # 10000))
            [[vfin 5 0 0; vfin 5 0 0]; [vfin 0 6 0]].

Definition near_site : Site := mkSite "Ga" (vfin (1 # 10) 0 0).
Definition far_site : Site := mkSite "As" (vfin (1 # 2) 0 0).
Definition farther_site : Site := mkSite "As" (vfin 0 (1 # 2) (1 # 2)).

Definition cell : Structure :=
  mkStructure cubic [near_site; far_site; farther_site].

Definition origin : value := VList [VNum 0; VNum 0; VNum 0].

Definition site_list : list (Site * float) :=
  [(near_site, Fin (3 # 10)); (far_site, Fin (1 # 10));
   (farther_site, Fin (2 # 10))].

(** Lattice sums that disagree at [[25, 28]] and, once escalated to
    [[30, 35]], differ by [escalated]. *)
Definition generate_R_and_G_vecs (escalated : Q) (_ : float)
    (prec_set : list Z) (_ : Lattice) (_ : matrix3)
  : list (list vec) * list float * list (list vec) * list float :=
  match prec_set with
  | [25; 28]%Z => ([[]; []], [Fin 0; Fin 0], [[]; []],
                   [Fin (1 # 2); Fin (2 # 5)])
  | _ => ([[]; []], [Fin 0; Fin 0], [[]; []],
          [Fin (3 # 10); Fin ((3 # 10) + escalated)])
  end.

(** Lattice sums that agree from the start. *)
Definition generate_converged (_ : float) (_ : list Z) (_ : Lattice)
    (_ : matrix3)
  : list (list vec) * list float * list (list vec) * list float :=
  ([[]; []], [Fin 0; Fin 0], [[]; []], [Fin (1 # 2); Fin (1 # 2)]).

Definition tune_for_gamma (_ : Lattice) (_ : matrix3) : float := Fin 1.

Definition self : t := init (Scalar 10) VNone VNone.

Definition entry (charge : Z) : DefectEntry :=
  mkEntry (mkDefect charge Vacancy (mkSite "Ga" (vfin 0 0 0)))
          {[ KStr "bulk_atomic_site_averages" :=
               VList [VNum 1; VNum 1; VNum 1; VNum 1];
             KStr "defect_atomic_site_averages" :=
               VList [VNum (7 # 10); VNum (9 # 10); VNum (8 # 10)];
             KStr "site_matching_indices" :=
               VList [VList [VNum 1; VNum 0]; VList [VNum 2; VNum 1];
                      VList [VNum 3; VNum 2]];
             KStr "initial_defect_structure" := VStructure cell;
             KStr "defect_frac_sc_coords" := origin ]}
          ∅.

Definition run (gen : float -> list Z -> Lattice -> matrix3 ->
                      list (list vec) * list float
                      * list (list vec) * list float)
    (charge : Z) : result correction * (t * DefectEntry) :=
  get_correction Standins.kumagai_to_V tune_for_gamma gen
    Standins.np_pi Standins.np_sqrt Standins.np_exp Standins.np_cos
    Standins.erfc Standins.describe
    (Standins.distance_and_image_from_frac_coords cubic)
    Standins.structure_index
    (self, entry charge).

(** The potential-alignment step on the three sites, with empty lattice
    vector sets and Ewald parameter 1. *)
Definition potential_shift : float := Fin (- (1 # 4) / (1000 * (1 * 1))).

Definition site_infos : result (list (float * float * nat)) :=
  mapM (site_potential Standins.kumagai_to_V Standins.np_pi Standins.np_sqrt
          Standins.np_exp Standins.np_cos Standins.erfc
          (Standins.distance_and_image_from_frac_coords cubic)
          Standins.structure_index
          self cell origin (Fin 1) [] [] (Fin 1) potential_shift)
       (map fst site_list).

Definition infos : list (float * float * nat) :=
  match site_infos with Return l => l | Raise _ => [] end.

Definition run_pot_corr (sampling_radius : Q) : result float * t :=
  perform_pot_corr Standins.kumagai_to_V Standins.np_pi Standins.np_sqrt
    Standins.np_exp Standins.np_cos Standins.erfc Standins.describe
    (Standins.distance_and_image_from_frac_coords cubic)
    Standins.structure_index
    cell origin site_list (VNum sampling_radius) (Fin 1) [] [] (Fin 1) self.

End KumagaiExample.

(** A cubic cell with planar averages on four or on three grid points
    per axis and the defect at the origin. *)
Module FreysoldtExample.
Import Crystal FreysoldtCorrection.

Local Open Scope Q_scope.

Definition cubic (side : Q) : Lattice :=
  mkLattice (vfin side 0 0, vfin 0 side 0, vfin 0 0 side)
            (vfin side side side)
            (Fin (side * side * side))
            (vfin (2 * Standins.np_pi / side) (2 * Standins.np_pi / side)
                  (2 * Standins.np_pi / side))
            [].

Definition cell (side : Q) : Structure :=
  mkStructure (cubic side) [mkSite "Ga" (vfin (1 # 2) (1 # 2) (1 # 2))].

(** The default model charge, [1 / (1 + g2)^2] with limit [-2]. *)
Definition default_model : QModel :=
  mkQModel (fun g2 => Fin 1 / ((Fin 1 + g2) * (Fin 1 + g2)))%F (Fin (-2)).

(** A model charge that vanishes away from [g = 0]. *)
Definition point_model : QModel :=
  mkQModel (fun g2 => Fin 0 * g2)%F (Fin (-2)).

Definition floats (l : list Q) : list float := map Fin l.

(** Four grid points. *)
Definition grid : list float := floats [0; 5 # 2; 5; 15 # 2].
Definition bulk_avg : list float := floats [0; 0; 0; 0].
Definition defect_avg : list float := floats [1 # 10; 2 # 10; 3 # 10; 2 # 10].

(** Three grid points. *)
Definition odd_grid : list float := floats [0; 10 # 3; 20 # 3].
Definition odd_bulk_avg : list float := floats [0; 0; 0].
Definition odd_defect_avg : list float := floats [1 # 10; 2 # 10; 2 # 10].

Definition rows (l : list float) : value :=
  VList [VList (map VNum l); VList (map VNum l); VList (map VNum l)].

Definition origin : value := VList [VNum 0; VNum 0; VNum 0].

Definition entry (side : Q) (charge : Z) : DefectEntry :=
  mkEntry (mkDefect charge Vacancy (mkSite "Ga" (vfin 0 0 0)))
          {[ KStr "axis_grid" := rows grid;
             KStr "bulk_planar_averages" := rows bulk_avg;
             KStr "defect_planar_averages" := rows defect_avg;
             KStr "initial_defect_structure" := VStructure (cell side);
             KStr "defect_frac_sc_coords" := origin ]}
          ∅.

(** The same defect with its planar averages on three grid points. *)
Definition odd_entry (side : Q) (charge : Z) : DefectEntry :=
  mkEntry (mkDefect charge Vacancy (mkSite "Ga" (vfin 0 0 0)))
          {[ KStr "axis_grid" := rows odd_grid;
             KStr "bulk_planar_averages" := rows odd_bulk_avg;
             KStr "defect_planar_averages" := rows odd_defect_avg;
             KStr "initial_defect_structure" := VStructure (cell side);
             KStr "defect_frac_sc_coords" := origin ]}
          ∅.

Definition self (model : QModel) (dielectric : Q) : t :=
  init (Scalar dielectric) model 520 (Fin (1 # 10000)) AxisNone.

Definition es_corr (model : QModel) (dielectric side q : Q) : result float :=
  perform_es_corr Standins.ang_to_bohr Standins.hart_to_ev Standins.eV_to_k
    Standins.generate_reciprocal_vectors_squared Standins.np_pi Standins.quad
    (self model dielectric) (cubic side) (Fin q) (Fin (1 # 10000)).

(** The model potential along the first axis of the four-point grid. *)
Definition v_G (q : Q) : list complex :=
  match long_range_potential Standins.ang_to_bohr Standins.np_pi
          (self default_model 10) (length grid) (cubic 10) (Fin q) 0 with
  | Return v => v
  | Raise _ => []
  end.


Definition run_pot_corr (q : Q) : result float * t :=
  perform_pot_corr Standins.ang_to_bohr Standins.hart_to_ev Standins.np_pi
    Standins.fft Standins.describe
    grid bulk_avg defect_avg (cubic 10) (Fin q) origin 0 (Fin 1)
    (self default_model 10).


Definition run (model : QModel) (charge : Z)
  : result correction * (t * DefectEntry) :=
  get_correction Standins.ang_to_bohr Standins.hart_to_ev Standins.eV_to_k
    Standins.generate_reciprocal_vectors_squared Standins.np_pi Standins.quad
    Standins.fft Standins.describe
    (self model 10, entry 10 charge).

Definition run_odd (model : QModel) (charge : Z)
  : result correction * (t * DefectEntry) :=
  get_correction Standins.ang_to_bohr Standins.hart_to_ev Standins.eV_to_k
    Standins.generate_reciprocal_vectors_squared Standins.np_pi Standins.quad
    Standins.fft Standins.describe
    (self model 10, odd_entry 10 charge).

End FreysoldtExample.

(** Entries used to exercise the compatibility checks. *)
Module CompatibilityExample.
Import Crystal DefectCompatibility.

Local Open Scope Q_scope.

Definition cubic : Lattice :=
  mkLattice (vfin 10 0 0, vfin 0 10 0, vfin 0 0 10) (vfin 10 10 10) 1000
            (vfin (6283 # 10000) (6283 # 10000) (6283 # 10000)) [].

Definition host : Structure :=
  mkStructure cubic [mkSite "Ga" (vfin 0 0 0);
                     mkSite "As" (vfin (1 # 2) (1 # 2) (1 # 2))].

Definition substitution : Defect :=
  mkDefect 1 Substitution (mkSite "As" (vfin 0 0 0)).

Definition stats (variance lo hi : Q) : value :=
  VDict {[ KStr "stats" :=
             VDict {[ KStr "variance" := VNum variance;
                      KStr "minmax" := VList [VNum lo; VNum hi] ]} ]}.

(** [freysoldt_meta] whose sampling-window residual has the given
    variance on every axis. *)
Definition freysoldt_meta (variance : Q) : value :=
  VDict {[ KStr "pot_corr_uncertainty_md" :=
             VDict {[ KInt 0 := stats variance 0 (1 # 20);
                      KInt 1 := stats variance 0 (1 # 20);
                      KInt 2 := stats variance 0 (1 # 20) ]};
           KStr "freysoldt_electrostatic" := VNum 1;
           KStr "freysoldt_potential_alignment_correction" := VNum 2 ]}.

Definition kumagai_meta : value :=
  VDict {[ KStr "pot_corr_uncertainty_md" := stats (1 # 100) 0 (1 # 20);
           KStr "sampling_radius" := VNum 2 ]}.

Definition planar_entry (variance : Q) : DefectEntry :=
  mkEntry substitution
          {[ KStr "freysoldt_meta" := freysoldt_meta variance;
             KStr "num_hole_vbm" := VNum 0;
             KStr "num_elec_cbm" := VNum 0 ]}
          ∅.

(** An entry on which the planar-average check has already been
    recorded. *)
Definition checked_entry : DefectEntry :=
  mkEntry substitution
          {[ KStr "kumagai_meta" := kumagai_meta;
             KStr "final_structure" := VStructure host;
             KStr "delocalization_meta" :=
               VDict {[ KStr "plnr_avg" := check_record true ∅ ]} ]}
          ∅.

(** Stand-ins for the crystallography collaborator on the two-site
    cell above. *)
Definition generate_defect_structure (_ : Defect) (_ : value) : Structure :=
  host.
Definition get_sites_in_sphere (s : Structure) (_ : Site) (_ : float)
  : list (Site * float * Z) :=
  [(mkSite "As" (vfin (1 # 2) (1 # 2) (1 # 2)), Fin 8, 1%Z);
   (mkSite "Ga" (vfin 0 0 0), Fin 0, 0%Z)].
Definition get_all_distance (_ : Lattice) (_ _ : list vec)
  : list (list float) :=
  [[Fin 0; Fin 8]; [Fin 8; Fin (1 # 100)]].

End CompatibilityExample.


(* ================================================================== *)
(** * Part II.  Properties                                             *)
(* ================================================================== *)

(** ** The monads *)

Lemma M_bind_raise {S A B} (m : M S A) (k : A -> M S B) (s s' : S) (ex : exn) :
  m s = (Raise ex, s') -> (m ≫= k) s = (Raise ex, s').
Proof. intros H. unfold mbind, M_bind. rewrite H. reflexivity. Qed.

Lemma M_bind_return {S A B} (m : M S A) (k : A -> M S B) (s s' : S) (a : A) :
  m s = (Return a, s') -> (m ≫= k) s = k a s'.
Proof. intros H. unfold mbind, M_bind. rewrite H. reflexivity. Qed.

Lemma M_bind_inv {S A B} (m : M S A) (k : A -> M S B) (s s2 : S) (b : B) :
  (m ≫= k) s = (Return b, s2) ->
  exists a s1, m s = (Return a, s1) /\ k a s1 = (Return b, s2).
Proof.
  unfold mbind, M_bind. destruct (m s) as [[ex|a] s1]; intros H.
  - discriminate.
  - eauto.
Qed.

Lemma lift_inv {S A} (r : result A) (s s' : S) (a : A) :
  lift r s = (Return a, s') -> r = Return a /\ s' = s.
Proof. unfold lift. intros H. injection H as -> ->. auto. Qed.

Lemma get_inv {S} (s s' a : S) : get s = (Return a, s') -> a = s /\ s' = s.
Proof. unfold get. intros H. injection H as -> ->. auto. Qed.

Lemma mret_inv {S A} (a b : A) (s s' : S) :
  (mret a : M S A) s = (Return b, s') -> b = a /\ s' = s.
Proof. unfold mret, M_ret. intros H. injection H as -> ->. auto. Qed.

Lemma modify_inv {S} (f : S -> S) (s s' : S) (u : unit) :
  modify f s = (Return u, s') -> s' = f s.
Proof. unfold modify. intros H. injection H as _ ->. reflexivity. Qed.

Lemma on_fst_inv {S1 S2 A} (m : M S1 A) (s s' : S1 * S2) (a : A) :
  on_fst m s = (Return a, s') ->
  exists x, m (fst s) = (Return a, x) /\ s' = (x, snd s).
Proof.
  unfold on_fst. destruct (m (fst s)) as [r x]. intros H.
  injection H as -> <-. eauto.
Qed.

Lemma on_snd_inv {S1 S2 A} (m : M S2 A) (s s' : S1 * S2) (a : A) :
  on_snd m s = (Return a, s') ->
  exists x, m (snd s) = (Return a, x) /\ s' = (fst s, x).
Proof.
  unfold on_snd. destruct (m (snd s)) as [r x]. intros H.
  injection H as -> <-. eauto.
Qed.

Lemma foldM_cons {S A B} (f : A -> B -> M S A) (a : A) (b : B) (l : list B) :
  foldM f a (b :: l) = (f a b ≫= fun a' => foldM f a' l).
Proof. reflexivity. Qed.

Lemma result_bind_return {A B} (m : result A) (k : A -> result B) (b : B) :
  m ≫= k = Return b -> exists a, m = Return a /\ k a = Return b.
Proof. destruct m as [e|a]; simpl; [discriminate | eauto]. Qed.

(** ** Boolean comparisons on rationals *)

Lemma leb_le (x y : Q) : (x <=? y)%Q = true <-> (x <= y)%Q.
Proof. apply Qle_bool_iff. Qed.

Lemma ltb_lt (x y : Q) : (x <? y)%Q = true <-> (x < y)%Q.
Proof.
  unfold Num.ltb. rewrite negb_true_iff.
  split; intros H.
  - apply Qnot_le_lt. intros Hle. apply Qle_bool_iff in Hle. congruence.
  - destruct (Qle_bool y x) eqn:E; [|reflexivity].
    apply Qle_bool_iff in E. exfalso. apply (Qlt_not_le _ _ H E).
Qed.

Lemma ltb_ge (x y : Q) : (x <? y)%Q = false <-> (y <= x)%Q.
Proof.
  unfold Num.ltb. rewrite negb_false_iff. apply Qle_bool_iff.
Qed.

Lemma leb_gt (x y : Q) : (x <=? y)%Q = false <-> (y < x)%Q.
Proof.
  split; intros H.
  - apply Qnot_le_lt. intros Hle. apply Qle_bool_iff in Hle.
    unfold Num.leb in H. congruence.
  - destruct (x <=? y)%Q eqn:E; [|reflexivity].
    apply leb_le in E. exfalso. apply (Qlt_not_le _ _ H E).
Qed.

Lemma eqb_eq (x y : Q) : (x =? y)%Q = true <-> (x == y)%Q.
Proof. apply Qeq_bool_iff. Qed.

Lemma truthy_false (x : Q) : Num.truthy x = false <-> (x == 0)%Q.
Proof. unfold Num.truthy. rewrite negb_false_iff. apply Qeq_bool_iff. Qed.

Lemma truthy_true (x : Q) : Num.truthy x = true <-> ~ (x == 0)%Q.
Proof.
  unfold Num.truthy. rewrite negb_true_iff. split; intros H.
  - intros E. apply Qeq_bool_iff in E. congruence.
  - destruct (Qeq_bool x 0) eqn:E; [|reflexivity].
    apply Qeq_bool_iff in E. contradiction.
Qed.

(** ** Band filling *)

Module BandFillingFacts.
Import BandFillingCorrection.

Section Ideal.
Variables (res core spinfctr scbm svbm : Q).

Let ideal := ideal_occupation res core scbm svbm.

(** A state at its ideal host occupation triggers neither branch of the
    loop body. *)
Lemma state_step_ideal (w : Q) (a : acc) (st : Q * Q) :
  ideal st -> state_step res core spinfctr scbm svbm w a st = a.
Proof.
  destruct st as [eig occu]. intros [Hc Hv]. simpl in Hc, Hv.
  unfold state_step.
  destruct (scbm - res <? eig)%Q eqn:E1.
  - apply ltb_lt in E1. apply Hc, truthy_false in E1. rewrite E1. simpl.
    destruct (eig <=? svbm + res)%Q eqn:E2.
    + apply leb_le, Hv, eqb_eq in E2. rewrite E2. reflexivity.
    + rewrite andb_false_r. reflexivity.
  - rewrite andb_false_r.
    destruct (eig <=? svbm + res)%Q eqn:E2.
    + apply leb_le, Hv, eqb_eq in E2. rewrite E2. reflexivity.
    + rewrite andb_false_r. reflexivity.
Qed.

Lemma kptset_loop_ideal (w : Q) (kptset : list (Q * Q)) (a : acc) :
  Forall ideal kptset ->
  fold_left (state_step res core spinfctr scbm svbm w) kptset a = a.
Proof.
  induction 1 as [|st l Hst _ IH]; simpl; [reflexivity|].
  rewrite state_step_ideal by exact Hst. exact IH.
Qed.

Lemma spinset_loop_ideal (kw : list Q) (s : spinset) (a : acc) :
  Forall ideal (concat s) ->
  spinset_loop res core spinfctr scbm svbm kw a s = a.
Proof.
  unfold spinset_loop. revert kw.
  induction s as [|kptset s IH]; intros kw H; [reflexivity|].
  simpl in H. apply Forall_app in H as [Hk Hs].
  destruct kw as [|w kw]; [reflexivity|]. simpl.
  rewrite kptset_loop_ideal by exact Hk. apply IH, Hs.
Qed.

Lemma spectrum_loop_ideal (kw : list Q) (ss : list spinset) (a : acc) :
  Forall ideal (concat (concat ss)) ->
  fold_left (spinset_loop res core spinfctr scbm svbm kw) ss a = a.
Proof.
  induction ss as [|s ss IH]; intros H; [reflexivity|].
  simpl in H. rewrite concat_app in H. apply Forall_app in H as [Hs Hss].
  simpl. rewrite spinset_loop_ideal by exact Hs. apply IH, Hss.
Qed.
End Ideal.

End BandFillingFacts.

Module BandFillingTheorems.
Import BandFillingCorrection BandFillingFacts.

(** C8.  When every state of the spectrum holds its ideal host occupation
    (valence states carry the core occupation value, conduction states are
    empty), [perform_bandfill_corr] returns a correction equal to 0 and
    leaves both the free-hole and the free-electron count at 0. *)
Theorem bandfill_zero_at_ideal_occupation
    (self : t) (eigenvalues : spectrum) (kpoint_weights : list Q)
    (potalign vbm cbm core : Q) :
  core_occupation eigenvalues = Return core ->
  (length eigenvalues = 1 \/ length eigenvalues = 2)%nat ->
  Forall (ideal_occupation (resolution self) core
                           (potalign + cbm) (potalign + vbm))
         (states eigenvalues) ->
  exists r self',
    perform_bandfill_corr eigenvalues kpoint_weights potalign vbm cbm self
      = (Return r, self') /\
    (r == 0)%Q /\
    num_hole_vbm self' = Some 0%Q /\
    num_elec_cbm self' = Some 0%Q.
Proof.
  intros Hcore Hlen Hideal.
  assert (Hsf : exists f, spin_factor eigenvalues core = Return f).
  { unfold spin_factor. destruct Hlen as [-> | ->]; eauto. }
  destruct Hsf as [f Hsf].
  unfold perform_bandfill_corr, mbind, M_bind, get, put, lift, mret, M_ret.
  simpl. rewrite Hcore, Hsf. unfold spectrum_loop.
  rewrite spectrum_loop_ideal by exact Hideal. simpl.
  eexists _, _. split; [reflexivity|]. repeat split; reflexivity.
Qed.

Lemma bandfill_zero_at_ideal_occupation_witness :
  exists r self',
    perform_bandfill_corr BandFillingExample.closed_shell [1%Q] 0 1 4
                          (init (1 # 100))
      = (Return r, self') /\
    (r == 0)%Q /\
    num_hole_vbm self' = Some 0%Q /\
    num_elec_cbm self' = Some 0%Q.
Proof.
  apply (bandfill_zero_at_ideal_occupation
           (init (1 # 100)) BandFillingExample.closed_shell [1%Q] 0 1 4 2).
  - reflexivity.
  - left. reflexivity.
  - unfold states, BandFillingExample.closed_shell. simpl.
    repeat (apply Forall_cons_2; [split; simpl; intros H;
              first [reflexivity | exfalso; revert H; unfold Qle, Qlt; simpl; lia]|]).
    apply Forall_nil_2.
Defined.

(** *** The spin factor multiplies what every state contributes *)

Lemma sum_app (l1 l2 : list Q) :
  (Num.sum (l1 ++ l2) == Num.sum l1 + Num.sum l2)%Q.
Proof.
  unfold Num.sum. induction l1 as [|x l1 IH]; cbn [app foldr].
  - ring.
  - rewrite IH. ring.
Qed.

Section SpinFactor.
Variables (res core spinfctr scbm svbm : Q).

Let pen := penalty res core scbm svbm.
Let fe := free_electrons res scbm.
Let fh := free_holes res core scbm svbm.

(** [b] is [a] with the contributions of the weighted states [ws] added,
    each multiplied by the spin factor. *)
Let adds (a b : acc) (ws : list (Q * (Q * Q))) : Prop :=
  (bf_corr b == bf_corr a + spinfctr * pen ws)%Q /\
  (elec b == elec a + spinfctr * fe ws)%Q /\
  (hole b == hole a + spinfctr * fh ws)%Q.

Lemma adds_nil (a : acc) : adds a a [].
Proof.
  unfold adds, pen, fe, fh, penalty, free_electrons, free_holes. simpl.
  repeat split; ring.
Qed.

Lemma adds_app (a b c : acc) (l1 l2 : list (Q * (Q * Q))) :
  adds a b l1 -> adds b c l2 -> adds a c (l1 ++ l2).
Proof.
  unfold adds, pen, fe, fh, penalty, free_electrons, free_holes.
  intros (H1 & H2 & H3) (H4 & H5 & H6).
  rewrite !map_app.
  rewrite !sum_app. rewrite H4, H5, H6, H1, H2, H3.
  repeat split; ring.
Qed.

Lemma state_step_adds (w : Q) (a : acc) (st : Q * Q) :
  adds a (state_step res core spinfctr scbm svbm w a st) [(w, st)].
Proof.
  destruct st as [eig occu].
  unfold adds, pen, fe, fh, penalty, free_electrons, free_holes,
    valence_hole, conduction_electron, state_step, Num.truthy, Num.eqb.
  cbn [map fst snd Num.sum foldr].
  destruct (negb (Qeq_bool occu 0) && (scbm - res <? eig)%Q); cbn [negb andb].
  - cbn [bf_corr elec hole]. repeat split; ring.
  - destruct (negb (Qeq_bool occu core) && (eig <=? svbm + res)%Q);
      cbn [bf_corr elec hole]; repeat split; ring.
Qed.

Lemma kptset_loop_adds (w : Q) (kptset : list (Q * Q)) (a : acc) :
  adds a (fold_left (state_step res core spinfctr scbm svbm w) kptset a)
       (map (fun st => (w, st)) kptset).
Proof.
  revert a. induction kptset as [|st l IH]; intros a.
  - apply adds_nil.
  - cbn [fold_left map].
    apply (adds_app a _ _ [(w, st)] _ (state_step_adds w a st) (IH _)).
Qed.

Lemma spinset_loop_adds (kw : list Q) (s : spinset) (a : acc) :
  adds a (spinset_loop res core spinfctr scbm svbm kw a s)
       (concat (map (fun '(kptset, weight) =>
                       map (fun st => (weight, st)) kptset)
                    (zip s kw))).
Proof.
  unfold spinset_loop.
  generalize (zip s kw). intros l. revert a.
  induction l as [|[kptset w] l IH]; intros a.
  - apply adds_nil.
  - cbn [fold_left map concat].
    eapply adds_app; [apply kptset_loop_adds | apply IH].
Qed.

Lemma spectrum_loop_adds (kw : list Q) (ss : list spinset) (a : acc) :
  adds a (fold_left (spinset_loop res core spinfctr scbm svbm kw) ss a)
       (concat (map (fun s : spinset =>
                       concat (map (fun '(kptset, weight) =>
                                      map (fun st => (weight, st)) kptset)
                                   (zip s kw)))
                    ss)).
Proof.
  revert a. induction ss as [|s ss IH]; intros a.
  - apply adds_nil.
  - cbn [fold_left map concat].
    eapply adds_app; [apply spinset_loop_adds | apply IH].
Qed.

(** The loop returns the spin factor times the penalty and the carrier
    counts of the specification. *)
Lemma spectrum_loop_scales (kw : list Q) (eigenvalues : spectrum) :
  let a := spectrum_loop res core spinfctr scbm svbm kw eigenvalues in
  (bf_corr a == spinfctr * pen (weighted_states kw eigenvalues))%Q /\
  (elec a == spinfctr * fe (weighted_states kw eigenvalues))%Q /\
  (hole a == spinfctr * fh (weighted_states kw eigenvalues))%Q.
Proof.
  cbn zeta. unfold spectrum_loop, weighted_states.
  destruct (spectrum_loop_adds kw (map snd eigenvalues) (mk_acc 0 0 0))
    as (H1 & H2 & H3).
  cbn [bf_corr elec hole] in H1, H2, H3.
  rewrite H1, H2, H3. repeat split; ring.
Qed.

End SpinFactor.

(** What [perform_bandfill_corr] returns and records once the core
    occupation and the spin factor are known. *)
Lemma perform_bandfill_corr_scales (self : t) (eigenvalues : spectrum)
    (kpoint_weights : list Q) (potalign vbm cbm core spinfctr : Q) :
  core_occupation eigenvalues = Return core ->
  spin_factor eigenvalues core = Return spinfctr ->
  exists r h e self',
    perform_bandfill_corr eigenvalues kpoint_weights potalign vbm cbm self
    = (Return r, self') /\
    num_hole_vbm self' = Some h /\
    num_elec_cbm self' = Some e /\
    (r == - (spinfctr
             * penalty (resolution self) core (potalign + cbm) (potalign + vbm)
                       (weighted_states kpoint_weights eigenvalues)))%Q /\
    (h == spinfctr
          * free_holes (resolution self) core (potalign + cbm)
                       (potalign + vbm)
                       (weighted_states kpoint_weights eigenvalues))%Q /\
    (e == spinfctr
          * free_electrons (resolution self) (potalign + cbm)
                           (weighted_states kpoint_weights eigenvalues))%Q.
Proof.
  intros Hcore Hsf.
  unfold perform_bandfill_corr, mbind, M_bind, get, put, lift, mret, M_ret.
  simpl. rewrite Hcore, Hsf.
  destruct (spectrum_loop_scales (resolution self) core spinfctr
              (potalign + cbm) (potalign + vbm) kpoint_weights eigenvalues)
    as (H1 & H2 & H3).
  cbn zeta in H1, H2, H3.
  eexists _, _, _, _. split; [reflexivity|].
  cbn [num_hole_vbm num_elec_cbm].
  split; [reflexivity|]. split; [reflexivity|].
  rewrite H1, H2, H3. repeat split; ring.
Qed.

(** C10.  More than two spin-channel keys make [perform_bandfill_corr]
    raise, so no correction is returned.  With one channel whose sampled
    (core) occupation is 1 the correction returned and the carrier counts
    recorded are twice what the states contribute (the penalty, the free
    holes and the free electrons of the specification), and with two
    channels they are once that. *)
Theorem bandfill_spin_factor
    (self : t) (eigenvalues : spectrum) (kpoint_weights : list Q)
    (potalign vbm cbm : Q) :
  ((2 < length eigenvalues)%nat ->
   raises (fst (perform_bandfill_corr eigenvalues kpoint_weights
                  potalign vbm cbm self))) /\
  (forall core,
      length eigenvalues = 1%nat ->
      core_occupation eigenvalues = Return core ->
      (core == 1)%Q ->
      exists r h e self',
        perform_bandfill_corr eigenvalues kpoint_weights potalign vbm cbm
                              self
        = (Return r, self') /\
        num_hole_vbm self' = Some h /\
        num_elec_cbm self' = Some e /\
        (r == - (2 * penalty (resolution self) core (potalign + cbm)
                             (potalign + vbm)
                             (weighted_states kpoint_weights eigenvalues)))%Q /\
        (h == 2 * free_holes (resolution self) core (potalign + cbm)
                             (potalign + vbm)
                             (weighted_states kpoint_weights eigenvalues))%Q /\
        (e == 2 * free_electrons (resolution self) (potalign + cbm)
                                 (weighted_states kpoint_weights
                                                  eigenvalues))%Q) /\
  (forall core,
      length eigenvalues = 2%nat ->
      core_occupation eigenvalues = Return core ->
      exists r h e self',
        perform_bandfill_corr eigenvalues kpoint_weights potalign vbm cbm
                              self
        = (Return r, self') /\
        num_hole_vbm self' = Some h /\
        num_elec_cbm self' = Some e /\
        (r == - (1 * penalty (resolution self) core (potalign + cbm)
                             (potalign + vbm)
                             (weighted_states kpoint_weights eigenvalues)))%Q /\
        (h == 1 * free_holes (resolution self) core (potalign + cbm)
                             (potalign + vbm)
                             (weighted_states kpoint_weights eigenvalues))%Q /\
        (e == 1 * free_electrons (resolution self) (potalign + cbm)
                                 (weighted_states kpoint_weights
                                                  eigenvalues))%Q).
Proof.
  split; [|split].
  - intros Hlen.
    unfold perform_bandfill_corr, mbind, M_bind, get, put, lift, mret, M_ret.
    simpl.
    destruct (core_occupation eigenvalues) as [e|core]; simpl; [exact I|].
    unfold spin_factor.
    destruct (length eigenvalues) as [|[|[|n]]]; simpl in *;
      first [lia | exact I].
  - intros core Hlen Hcore Hone. apply eqb_eq in Hone.
    apply perform_bandfill_corr_scales; [exact Hcore|].
    unfold spin_factor. rewrite Hlen, Hone. reflexivity.
  - intros core Hlen Hcore.
    apply perform_bandfill_corr_scales; [exact Hcore|].
    unfold spin_factor. rewrite Hlen. reflexivity.
Qed.

Lemma bandfill_spin_factor_witness :
  raises (fst (perform_bandfill_corr BandFillingExample.three_channels
                 [1%Q] 0 1 4 (init (1 # 100)))) /\
  (exists r self',
      perform_bandfill_corr BandFillingExample.unit_occupied [1%Q] 0 1 4
                            (init (1 # 100))
      = (Return r, self') /\
      (r == - 1)%Q /\
      (penalty (1 # 100) 1 (0 + 4) (0 + 1)
               (weighted_states [1%Q] BandFillingExample.unit_occupied)
       == 1 # 2)%Q) /\
  (exists r self',
      perform_bandfill_corr BandFillingExample.spin_polarised [1%Q] 0 1 4
                            (init (1 # 100))
      = (Return r, self') /\
      (r == - (1 # 2))%Q /\
      (penalty (1 # 100) 1 (0 + 4) (0 + 1)
               (weighted_states [1%Q] BandFillingExample.spin_polarised)
       == 1 # 2)%Q).
Proof.
  split; [|split].
  - apply (bandfill_spin_factor (init (1 # 100))
             BandFillingExample.three_channels [1%Q] 0 1 4).
    simpl. lia.
  - destruct (proj1 (proj2 (bandfill_spin_factor (init (1 # 100))
                              BandFillingExample.unit_occupied [1%Q] 0 1 4))
                1%Q eq_refl eq_refl (Qeq_refl 1))
      as (r & h & e & self' & Hrun & _ & _ & Hr & _ & _).
    exists r, self'. split; [exact Hrun|].
    split; [rewrite Hr|]; vm_compute; reflexivity.
  - destruct (proj2 (proj2 (bandfill_spin_factor (init (1 # 100))
                              BandFillingExample.spin_polarised [1%Q] 0 1 4))
                1%Q eq_refl eq_refl)
      as (r & h & e & self' & Hrun & _ & _ & Hr & _ & _).
    exists r, self'. split; [exact Hrun|].
    split; [rewrite Hr|]; vm_compute; reflexivity.
Defined.

End BandFillingTheorems.


(** ** Floats *)

Module FloatFacts.

#[global] Instance float_eq_equivalence : Equivalence F.eq.
Proof.
  split.
  - intros []; cbn [F.eq]; auto with qarith.
  - intros [] []; cbn [F.eq]; auto with qarith.
  - intros [] [] []; cbn [F.eq]; try tauto. apply Qeq_trans.
Qed.

#[global] Instance float_equiv_equivalence : Equivalence (≡@{float}).
Proof. exact float_eq_equivalence. Qed.

Lemma fin_equiv (x y : Q) : Fin x ≡ Fin y <-> (x == y)%Q.
Proof. reflexivity. Qed.

Lemma equiv_nan (a : float) : a ≡ NaN -> a = NaN.
Proof. destruct a; intros H; first [reflexivity | destruct H]. Qed.

#[global] Instance signed_inf_proper :
  Proper (Logic.eq ==> (≡)) F.signed_inf.
Proof. intros c ? <-. reflexivity. Qed.

Lemma Qcompare_proper (x x' y y' : Q) :
  (x == x')%Q -> (y == y')%Q -> (x ?= y)%Q = (x' ?= y')%Q.
Proof. intros H1 H2. rewrite H1, H2. reflexivity. Qed.

Lemma Qeq_bool_proper (x x' y y' : Q) :
  (x == x')%Q -> (y == y')%Q -> Qeq_bool x y = Qeq_bool x' y'.
Proof.
  intros H1 H2.
  destruct (Qeq_bool x y) eqn:E1, (Qeq_bool x' y') eqn:E2; try reflexivity.
  - apply Qeq_bool_iff in E1. apply Qeq_bool_neq in E2. exfalso. apply E2.
    rewrite <- H1, <- H2. exact E1.
  - apply Qeq_bool_iff in E2. apply Qeq_bool_neq in E1. exfalso. apply E1.
    rewrite H1, H2. exact E2.
Qed.

Lemma Qle_bool_proper (x x' y y' : Q) :
  (x == x')%Q -> (y == y')%Q -> Qle_bool x y = Qle_bool x' y'.
Proof.
  intros H1 H2.
  destruct (Qle_bool x y) eqn:E1, (Qle_bool x' y') eqn:E2; try reflexivity.
  - apply Qle_bool_iff in E1. rewrite H1, H2 in E1.
    apply Qle_bool_iff in E1. congruence.
  - apply Qle_bool_iff in E2. rewrite <- H1, <- H2 in E2.
    apply Qle_bool_iff in E2. congruence.
Qed.

(** Every operation sends equal numbers to equal numbers. *)
Ltac float_cases :=
  unfold equiv, float_equiv in *;
  repeat match goal with a : float |- _ => destruct a end;
  cbn [F.eq F.add F.sub F.neg F.mul F.div F.abs F.ltb F.leb F.eqb
       F.signed_inf F.is_nan F.is_finite] in *;
  try tauto.

Ltac q_norm :=
  repeat match goal with
         | H : (?x == ?x')%Q |- context [Qeq_bool ?x ?z] =>
             rewrite (Qeq_bool_proper x x' z z H (Qeq_refl z))
         | H : (?x == ?x')%Q |- context [Qle_bool ?x ?z] =>
             rewrite (Qle_bool_proper x x' z z H (Qeq_refl z))
         | H : (?x == ?x')%Q |- context [Qle_bool ?z ?x] =>
             rewrite (Qle_bool_proper z z x x' (Qeq_refl z) H)
         | H : (?x == ?x')%Q |- context [(?x ?= ?z)%Q] =>
             rewrite (Qcompare_proper x x' z z H (Qeq_refl z))
         | H : (?x == ?x')%Q |- context [(?z ?= ?x)%Q] =>
             rewrite (Qcompare_proper z z x x' (Qeq_refl z) H)
         end.

Ltac float_proper :=
  float_cases; q_norm;
  repeat match goal with
         | |- context [if ?c then _ else _] => destruct c
         end;
  cbn [F.eq]; try tauto; try reflexivity;
  repeat match goal with
         | H : (_ == _)%Q |- _ => rewrite H; clear H
         end;
  reflexivity.

#[global] Instance neg_proper : Proper ((≡) ==> (≡)) F.neg.
Proof. intros a a' Ha. float_proper. Qed.

#[global] Instance add_proper : Proper ((≡) ==> (≡) ==> (≡)) F.add.
Proof. intros a a' Ha b b' Hb. float_proper. Qed.

#[global] Instance sub_proper : Proper ((≡) ==> (≡) ==> (≡)) F.sub.
Proof. intros a a' Ha b b' Hb. unfold F.sub. rewrite Ha, Hb. reflexivity. Qed.

#[global] Instance mul_proper : Proper ((≡) ==> (≡) ==> (≡)) F.mul.
Proof. intros a a' Ha b b' Hb. float_proper. Qed.

#[global] Instance div_proper : Proper ((≡) ==> (≡) ==> (≡)) F.div.
Proof. intros a a' Ha b b' Hb. float_proper. Qed.

#[global] Instance abs_proper : Proper ((≡) ==> (≡)) F.abs.
Proof. intros a a' Ha. float_proper. Qed.

#[global] Instance ltb_proper : Proper ((≡) ==> (≡) ==> Logic.eq) F.ltb.
Proof.
  intros a a' Ha b b' Hb. float_cases. unfold Num.ltb. q_norm. reflexivity.
Qed.

#[global] Instance leb_proper : Proper ((≡) ==> (≡) ==> Logic.eq) F.leb.
Proof.
  intros a a' Ha b b' Hb. float_cases. unfold Num.leb. q_norm. reflexivity.
Qed.

(** *** [nan] absorbs *)

Lemma add_nan_r (a : float) : (a + NaN)%F = NaN.
Proof. destruct a; reflexivity. Qed.

Lemma sub_nan_r (a : float) : (a - NaN)%F = NaN.
Proof. destruct a; reflexivity. Qed.

Lemma mul_nan_r (a : float) : (a * NaN)%F = NaN.
Proof. destruct a; reflexivity. Qed.

Lemma div_nan_r (a : float) : (a / NaN)%F = NaN.
Proof. destruct a; reflexivity. Qed.

(** [inf * 0], and [nan * 0], are [nan]: whatever a division by zero
    produced, its product by zero is [nan]. *)
Lemma mul_zero_of_div_zero (a : float) (y z : Q) :
  (y == 0)%Q -> (z == 0)%Q -> (a / Fin y * Fin z)%F = NaN.
Proof.
  intros Hy Hz. apply Qeq_bool_iff in Hy as Hyb.
  assert (Hz1 : (z ?= 0)%Q = Eq) by (apply Qeq_alt; exact Hz).
  assert (Hz2 : (0 ?= z)%Q = Eq) by (apply Qeq_alt; symmetry; exact Hz).
  destruct a; simpl; rewrite ?Hyb; simpl.
  - destruct (x ?= 0)%Q; simpl; rewrite ?Hz1, ?Hz2; reflexivity.
  - rewrite Hz1. reflexivity.
  - rewrite Hz2. reflexivity.
  - reflexivity.
Qed.

(** *** Sums and means *)

Lemma sum_all_nan (l : list float) :
  l <> [] -> Forall (fun x => x = NaN) l -> F.sum l = NaN.
Proof.
  destruct l as [|x l]; [congruence|]. intros _ H.
  apply Forall_cons in H as [-> _]. reflexivity.
Qed.

Lemma mean_all_nan (l : list float) :
  Forall (fun x => x = NaN) l -> F.mean l = NaN.
Proof.
  intros H. unfold F.mean. destruct l as [|x l].
  - reflexivity.
  - rewrite sum_all_nan by (congruence || exact H). reflexivity.
Qed.

#[global] Instance sum_proper : Proper (Forall2 (≡) ==> (≡)) F.sum.
Proof.
  intros l l' H. induction H as [|x y l l' Hxy _ IH]; simpl.
  - reflexivity.
  - unfold F.sum in IH. rewrite Hxy, IH. reflexivity.
Qed.

#[global] Instance mean_proper : Proper (Forall2 (≡) ==> (≡)) F.mean.
Proof.
  intros l l' H. unfold F.mean.
  rewrite (Forall2_length _ _ _ H). rewrite H. reflexivity.
Qed.

(** *** The order on the numbers that are not [nan] *)

Lemma leb_ltb_false (a b : float) :
  (a <=? b)%F = true -> (b <? a)%F = false.
Proof.
  destruct a, b; simpl; try discriminate; try reflexivity.
  unfold Num.leb, Num.ltb. intros ->. reflexivity.
Qed.

Lemma ltb_irrefl (a : float) : (a <? a)%F = false.
Proof.
  destruct a; simpl; try reflexivity.
  unfold Num.ltb. apply negb_false_iff, Qle_bool_iff, Qle_refl.
Qed.

Lemma ltb_leb (a b : float) : (a <? b)%F = true -> (a <=? b)%F = true.
Proof.
  destruct a, b; simpl; try discriminate; try reflexivity.
  unfold Num.ltb, Num.leb. rewrite negb_true_iff. intros H.
  apply Qle_bool_iff. apply Qlt_le_weak, Qnot_le_lt. intros Hle.
  apply Qle_bool_iff in Hle. congruence.
Qed.

Lemma leb_refl (a : float) : F.is_nan a = false -> (a <=? a)%F = true.
Proof.
  destruct a; simpl; try discriminate; try reflexivity.
  intros _. apply Qle_bool_iff, Qle_refl.
Qed.

Lemma leb_total (a b : float) :
  F.is_nan a = false -> F.is_nan b = false ->
  (a <? b)%F = false -> (b <=? a)%F = true.
Proof.
  destruct a, b; simpl; try discriminate; try reflexivity.
  unfold Num.ltb, Num.leb. rewrite negb_false_iff. auto.
Qed.

Lemma leb_trans (a b c : float) :
  (a <=? b)%F = true -> (b <=? c)%F = true -> (a <=? c)%F = true.
Proof.
  destruct a, b, c; simpl; try discriminate; try reflexivity.
  unfold Num.leb. rewrite !Qle_bool_iff. apply Qle_trans.
Qed.



Lemma abs_neg (a : float) : F.abs (F.neg a) ≡ F.abs a.
Proof. float_cases. apply Qabs_opp. Qed.


Lemma is_nan_proper (a b : float) : a ≡ b -> F.is_nan a = F.is_nan b.
Proof. intros H. float_cases. Qed.

Lemma is_nan_neg (a : float) : F.is_nan (F.neg a) = F.is_nan a.
Proof. destruct a; reflexivity. Qed.

Lemma is_nan_abs (a : float) : F.is_nan (F.abs a) = F.is_nan a.
Proof. destruct a; reflexivity. Qed.

(** *** Zero and one *)

Lemma add_zero_r (a : float) (z : Q) : (z == 0)%Q -> (a + Fin z)%F ≡ a.
Proof. intros Hz. float_cases. rewrite Hz. ring. Qed.

Lemma mul_fin_zero (x z : Q) : (z == 0)%Q -> (Fin x * Fin z)%F ≡ Fin 0.
Proof. intros Hz. float_cases. rewrite Hz. ring. Qed.

Lemma div_zero_l (y : Q) : ~ (y == 0)%Q -> (Fin 0 / Fin y)%F ≡ Fin 0.
Proof.
  intros Hy. cbn [F.div].
  destruct (Qeq_bool y 0) eqn:E; [apply Qeq_bool_iff in E; contradiction|].
  apply fin_equiv. field. exact Hy.
Qed.

(** Multiplying by the inverse of a non-zero number is dividing by it. *)
Lemma mul_inv (a : float) (y : Q) :
  ~ (y == 0)%Q -> (a * (Fin 1 / Fin y))%F ≡ (a / Fin y)%F.
Proof.
  intros Hy. cbn [F.div].
  destruct (Qeq_bool y 0) eqn:E; [apply Qeq_bool_iff in E; contradiction|].
  assert (Hinv : ((1 / y ?= 0) = (y ?= 0))%Q).
  { destruct y as [[|p|p] d]; reflexivity. }
  assert (Hinv' : ((0 ?= 1 / y) = (0 ?= y))%Q).
  { destruct y as [[|p|p] d]; reflexivity. }
  destruct a; unfold equiv, float_equiv; cbn [F.mul F.div F.eq];
    rewrite ?E; cbn [F.eq].
  - field. exact Hy.
  - rewrite Hinv. reflexivity.
  - rewrite Hinv'. reflexivity.
  - exact I.
Qed.

(** *** Rounding *)

Lemma round_half_even_proper (x y : Q) :
  (x == y)%Q -> Num.round_half_even x = Num.round_half_even y.
Proof.
  intros H. unfold Num.round_half_even.
  rewrite (Qfloor_comp _ _ H).
  assert (Hc : ((x - inject_Z (Qfloor y) ?= 1 # 2)
                = (y - inject_Z (Qfloor y) ?= 1 # 2))%Q).
  { apply Qcompare_comp; [rewrite H; reflexivity | reflexivity]. }
  rewrite Hc. reflexivity.
Qed.

#[global] Instance num_round6_proper : Proper (Qeq ==> Qeq) Num.round6.
Proof.
  intros x y H. unfold Num.round6.
  rewrite (round_half_even_proper (x * 1000000) (y * 1000000)).
  - reflexivity.
  - rewrite H. reflexivity.
Qed.

#[global] Instance round6_proper : Proper ((≡) ==> (≡)) F.round6.
Proof.
  intros a b H. float_cases. apply num_round6_proper, H.
Qed.

(** *** Scaling by a finite number *)

(** The sign of every rational in sight, then that of every product
    compared with 0. *)
Ltac q_signs :=
  repeat match goal with
         | x : Q |- _ =>
             lazymatch goal with
             | _ : (x < 0)%Q |- _ => fail
             | _ : (0 < x)%Q |- _ => fail
             | _ : (x == 0)%Q |- _ => fail
             | _ => destruct (Q_dec x 0) as [[?|?]|?]
             end
         end.

Ltac q_compare :=
  repeat match goal with
         | |- context [(?a ?= ?b)%Q] =>
             first
               [ let H := fresh in
                 assert (H : (a ?= b)%Q = Lt)
                   by (apply (proj1 (Qlt_alt a b)); nra);
                 rewrite H; clear H
               | let H := fresh in
                 assert (H : (a ?= b)%Q = Gt)
                   by (apply (proj1 (Qgt_alt a b)); nra);
                 rewrite H; clear H
               | let H := fresh in
                 assert (H : (a ?= b)%Q = Eq)
                   by (apply (proj1 (Qeq_alt a b)); nra);
                 rewrite H; clear H ]
         | |- context [Qeq_bool ?a ?b] =>
             first
               [ let H := fresh in
                 assert (H : Qeq_bool a b = true)
                   by (apply (proj2 (Qeq_bool_iff a b)); nra);
                 rewrite H; clear H
               | let H := fresh in
                 assert (H : Qeq_bool a b = false)
                   by (destruct (Qeq_bool a b) eqn:E; [|reflexivity];
                       apply Qeq_bool_iff in E; exfalso; nra);
                 rewrite H; clear H ]
         end.

Ltac float_sign :=
  unfold equiv, float_equiv;
  repeat match goal with a : float |- _ => destruct a end;
  q_signs;
  cbn [F.eq F.add F.sub F.neg F.mul F.div F.signed_inf];
  repeat (q_compare;
          cbn [F.eq F.add F.sub F.neg F.mul F.div F.signed_inf]);
  try exact I; try (field; nra); try nra.

Lemma mul_comm (a b : float) : (a * b)%F ≡ (b * a)%F.
Proof. float_sign. Qed.

Lemma mul_assoc (a b c : float) : (a * (b * c))%F ≡ (a * b * c)%F.
Proof. float_sign. Qed.

Lemma mul_div_fin (s : Q) (a b : float) :
  (Fin s * (a / b))%F ≡ (Fin s * a / b)%F.
Proof. float_sign. Qed.

Lemma mul_add_fin (s : Q) (a b : float) :
  (Fin s * (a + b))%F ≡ (Fin s * a + Fin s * b)%F.
Proof. float_sign. Qed.

Lemma mul_neg_r (a b : float) : (a * - b)%F ≡ (- (a * b))%F.
Proof. float_sign. Qed.

Lemma mul_sub_fin (s : Q) (a b : float) :
  (Fin s * (a - b))%F ≡ (Fin s * a - Fin s * b)%F.
Proof.
  unfold F.sub. rewrite mul_add_fin, mul_neg_r. reflexivity.
Qed.

(** A finite factor moved out of a product. *)
Lemma scale_product (s u su : Q) (a : float) :
  (su == s * u)%Q -> (a * Fin su)%F ≡ (Fin s * (a * Fin u))%F.
Proof.
  intros H. rewrite (mul_assoc (Fin s)), (mul_comm (Fin s) a).
  rewrite <- (mul_assoc a). apply mul_proper; [reflexivity|].
  apply fin_equiv. exact H.
Qed.

(** Equal numbers pass the test [==], unless they are [nan]. *)
Lemma eqb_of_equiv (a b : float) :
  a ≡ b -> F.is_nan a = false -> (a =? b)%F = true.
Proof.
  intros H Hn. float_cases; try discriminate.
  unfold Num.eqb. apply Qeq_bool_iff, H.
Qed.

End FloatFacts.


(** ** Compatibility analysis *)

Module CompatibilityTheorems.
Import Crystal DefectCompatibility.

Ltac step_result :=
  match goal with
  | |- context [match ?r with Raise _ => _ | Return _ => _ end] =>
      destruct r; simpl
  end.

Lemma planar_axis_check_raises (self : t) (allows : bool) (ax : Z)
    (e : DefectEntry) :
  exists ex, planar_axis_check self (∅, allows) ax e = (Raise ex, e).
Proof.
  unfold planar_axis_check, param, lift, get, mbind, M_bind, result_bind.
  simpl.
  repeat (step_result; eauto).
Qed.

(** C5.  [is_freysoldt_delocalized] never reports a verdict: on every
    entry it raises, in the first turn of its loop at the latest, and
    leaves the entry as it found it. *)
Theorem is_freysoldt_delocalized_raises (self : t) (e : DefectEntry) :
  exists ex, is_freysoldt_delocalized self e = (Raise ex, e).
Proof.
  destruct (planar_axis_check_raises self true 0 e) as [ex Hex].
  exists ex. unfold is_freysoldt_delocalized.
  apply M_bind_raise. rewrite foldM_cons. apply M_bind_raise. exact Hex.
Qed.

(** The scenario of the specification: variance 0.05 against tolerance
    0.1 ends in [KeyError: 0], and so does variance 0.15. *)
Lemma is_freysoldt_delocalized_scenario :
  is_freysoldt_delocalized defaults (CompatibilityExample.planar_entry (1 # 20))
  = (Raise (KeyError (KInt 0)), CompatibilityExample.planar_entry (1 # 20)) /\
  is_freysoldt_delocalized defaults (CompatibilityExample.planar_entry (3 # 20))
  = (Raise (KeyError (KInt 0)), CompatibilityExample.planar_entry (3 # 20)).
Proof. split; vm_compute; reflexivity. Qed.

(** *** The store only grows at its top level *)

Lemma keeps_keys_ret {A} (a : A) : keeps_keys (mret a).
Proof. intros e k H. exact H. Qed.

Lemma keeps_keys_lift {A} (r : result A) : keeps_keys (lift r).
Proof. intros e k H. exact H. Qed.

Lemma keeps_keys_get : keeps_keys get.
Proof. intros e k H. exact H. Qed.

Lemma keeps_keys_bind {A B} (m : M DefectEntry A) (f : A -> M DefectEntry B) :
  keeps_keys m -> (forall a, keeps_keys (f a)) -> keeps_keys (m ≫= f).
Proof.
  intros Hm Hf e k H. unfold mbind, M_bind.
  specialize (Hm e k H). destruct (m e) as [[ex|a] e1]; simpl in *.
  - exact Hm.
  - apply Hf, Hm.
Qed.

Lemma keeps_keys_param (k : key) : keeps_keys (param k).
Proof.
  apply keeps_keys_bind; [apply keeps_keys_get|].
  intros a. apply keeps_keys_lift.
Qed.

Lemma keeps_keys_has_param (k : key) : keeps_keys (has_param k).
Proof.
  apply keeps_keys_bind; [apply keeps_keys_get|].
  intros a. apply keeps_keys_ret.
Qed.

Lemma keeps_keys_update_param (k : key) (v : value) :
  keeps_keys (update_param k v).
Proof.
  intros e k' [v' H]. unfold update_param, modify, set_parameters, Py.update.
  cbn [snd parameters].
  destruct (decide (k' = k)) as [->|Hne].
  - exists v. apply lookup_union_Some_l, lookup_singleton_eq.
  - exists v'. rewrite lookup_union_r; [exact H|].
    apply lookup_singleton_ne. congruence.
Qed.

Lemma keeps_keys_set_correction (f : gmap key float -> gmap key float) :
  keeps_keys (modify (set_correction f)).
Proof. intros e k H. exact H. Qed.

Lemma keeps_keys_foldM {A B} (f : A -> B -> M DefectEntry A) (l : list B) :
  (forall a b, keeps_keys (f a b)) -> forall a, keeps_keys (foldM f a l).
Proof.
  intros Hf. induction l as [|b l IH]; intros a; simpl.
  - apply keeps_keys_ret.
  - apply keeps_keys_bind; [apply Hf | exact IH].
Qed.

Lemma keeps_keys_if {A} (b : bool) (m1 m2 : M DefectEntry A) :
  keeps_keys m1 -> keeps_keys m2 -> keeps_keys (if b then m1 else m2).
Proof. destruct b; auto. Qed.

Create HintDb keeps discriminated.
#[local] Hint Resolve keeps_keys_ret keeps_keys_lift keeps_keys_get
  keeps_keys_param keeps_keys_has_param keeps_keys_update_param
  keeps_keys_set_correction : keeps.

Ltac keeps :=
  repeat first
    [ solve [auto 1 with keeps nocore]
    | apply keeps_keys_if
    | apply keeps_keys_bind; [|intros ?]
    | match goal with |- keeps_keys (let '(_, _) := ?p in _) =>
                        destruct p end ].

Lemma keeps_keys_planar_axis_check (self : t) (st : Py.dict * bool) (ax : Z) :
  keeps_keys (planar_axis_check self st ax).
Proof. destruct st. unfold planar_axis_check. keeps. Qed.

Lemma keeps_keys_is_freysoldt_delocalized (self : t) :
  keeps_keys (is_freysoldt_delocalized self).
Proof.
  unfold is_freysoldt_delocalized.
  apply keeps_keys_bind.
  - apply keeps_keys_foldM. intros. apply keeps_keys_planar_axis_check.
  - intros [meta allows]. keeps.
Qed.

Lemma keeps_keys_is_kumagai_delocalized (self : t) :
  keeps_keys (is_kumagai_delocalized self).
Proof. unfold is_kumagai_delocalized. keeps. Qed.

#[local] Hint Resolve keeps_keys_is_freysoldt_delocalized
  keeps_keys_is_kumagai_delocalized : keeps.

Section Collaborators.
Variable generate_defect_structure : Defect -> value -> Structure.
Variable get_sites_in_sphere :
  Structure -> Site -> float -> list (Site * float * Z).
Variable get_all_distance :
  Lattice -> list vec -> list vec -> list (list float).

Let relaxed self :=
  is_final_relaxed_structure_delocalized
    self generate_defect_structure get_sites_in_sphere get_all_distance.
Let analysis self :=
  delocalization_analysis
    self generate_defect_structure get_sites_in_sphere get_all_distance.
Let process self :=
  process_entry
    self generate_defect_structure get_sites_in_sphere get_all_distance.

Lemma keeps_keys_is_final_relaxed (self : t) : keeps_keys (relaxed self).
Proof.
  unfold relaxed, is_final_relaxed_structure_delocalized.
  apply keeps_keys_bind; [apply keeps_keys_get|]. intros e.
  apply keeps_keys_bind; [apply keeps_keys_lift|].
  intros [[sr dm] di]. keeps.
Qed.

#[local] Hint Resolve keeps_keys_is_final_relaxed : keeps.

Lemma keeps_keys_delocalization_analysis (self : t) :
  keeps_keys (analysis self).
Proof.
  unfold analysis, delocalization_analysis. keeps.
Qed.

#[local] Hint Resolve keeps_keys_delocalization_analysis : keeps.

(** No stage of the compatibility analysis removes a key from the top
    level of the parameter store. *)
Lemma stages_keep_parameter_keys (self : t) : keeps_keys (process self).
Proof.
  unfold process, process_entry. keeps.
Qed.

(** *** The charge-correction policy and [process_entry] *)

(** The module cannot even be imported: line 8 asks [corrections.py] for
    two names it does not define. *)
Lemma load_module_raises :
  load_module = Raise (ImportError "generate_g_sum").
Proof. vm_compute. reflexivity. Qed.

Lemma getattr_perform_corrections :
  getattr "perform_corrections"
  = Raise (AttributeError "perform_corrections").
Proof. vm_compute. reflexivity. Qed.

(** C3.  [process_entry] stops at its first statement on every entry:
    the class defines no [perform_corrections], so the call raises
    [AttributeError] and the entry is left untouched; no
    ['charge_correction'] is ever added, whatever the free-carrier
    counts are. *)
Theorem process_entry_raises (self : t) (e : DefectEntry) :
  process self e = (Raise (AttributeError "perform_corrections"), e).
Proof.
  unfold process, process_entry. apply M_bind_raise.
  unfold lift. rewrite getattr_perform_corrections. reflexivity.
Qed.

(** Even past that call the method could not finish:
    [delocalization_analysis] reads a name that is never bound. *)
Lemma delocalization_analysis_raises (self : t) (e : DefectEntry) :
  raises (fst (analysis self e)).
Proof.
  unfold analysis, delocalization_analysis.
  unfold mbind, M_bind.
  repeat match goal with
         | |- context [match ?m ?s with (_, _) => _ end] =>
             destruct (m s) as [[?|?] ?]; simpl; try exact I
         end.
Qed.

(** Taken on its own, the block of lines 91-104 implements the policy
    of the specification. *)
Lemma charge_correction_policy (self : t) (params : Py.dict)
    (num_hole_vbm num_elec_cbm : float) :
  params !! KStr "num_hole_vbm" = Some (VNum num_hole_vbm) ->
  params !! KStr "num_elec_cbm" = Some (VNum num_elec_cbm) ->
  ((free_chg_cutoff self <? num_hole_vbm)%F = true \/
   (free_chg_cutoff self <? num_elec_cbm)%F = true ->
   charge_correction self params = Return ∅) /\
  ((free_chg_cutoff self <? num_hole_vbm)%F = false ->
   (free_chg_cutoff self <? num_elec_cbm)%F = false ->
   forall (meta : Py.dict) (es pa : float),
     (Py.contains "freysoldt" (Py.lower (preferred_cc self)) = true ->
      params !! KStr "freysoldt_meta" = Some (VDict meta) ->
      meta !! KStr "freysoldt_electrostatic" = Some (VNum es) ->
      meta !! KStr "freysoldt_potential_alignment_correction"
        = Some (VNum pa) ->
      charge_correction self params
      = Return {[ KStr "charge_correction" := (es + pa)%F ]}) /\
     (Py.contains "freysoldt" (Py.lower (preferred_cc self)) = false ->
      params !! KStr "kumagai_meta" = Some (VDict meta) ->
      meta !! KStr "kumagai_electrostatic" = Some (VNum es) ->
      meta !! KStr "kumagai_potential_alignment_correction"
        = Some (VNum pa) ->
      charge_correction self params
      = Return {[ KStr "charge_correction" := (es + pa)%F ]})).
Proof.
  intros Hh He. unfold charge_correction, Py.dict_getitem.
  rewrite Hh. simpl. split.
  - intros [H|H].
    + rewrite H. reflexivity.
    + destruct (free_chg_cutoff self <? num_hole_vbm)%F; [reflexivity|].
      rewrite He. simpl. rewrite H. reflexivity.
  - intros H1 H2 meta es pa.
    rewrite H1, He. simpl. rewrite H2.
    split; intros Hc Hm Hes Hpa; rewrite Hc, Hm; simpl;
      unfold Py.dict_getitem; rewrite Hes; simpl; rewrite Hpa; reflexivity.
Qed.

(** *** Recording a check replaces the whole of [delocalization_meta] *)

Lemma is_kumagai_delocalized_replaces (self : t) (e : DefectEntry) :
  fst (is_kumagai_delocalized self e) = Return tt ->
  exists rec,
    parameters (snd (is_kumagai_delocalized self e))
      !! KStr "delocalization_meta"
    = Some (VDict {[ KStr "atomic_site" := rec ]}).
Proof.
  unfold is_kumagai_delocalized, param, lift, get, mbind, M_bind,
    result_bind.
  cbn beta iota.
  repeat (step_result; try discriminate).
  intros _. eexists. unfold update_param, modify, set_parameters, Py.update.
  cbn [snd parameters].
  apply lookup_union_Some_l, lookup_singleton_eq.
Qed.

Lemma is_final_relaxed_replaces (self : t) (e : DefectEntry) :
  fst (relaxed self e) = Return tt ->
  exists rec,
    parameters (snd (relaxed self e)) !! KStr "delocalization_meta"
    = Some (VDict {[ KStr "defectsite_relax" := rec ]}).
Proof.
  unfold relaxed, is_final_relaxed_structure_delocalized.
  unfold lift, get, mbind, M_bind. cbn beta iota.
  destruct (structure_relax_check _ _ _ _ e) as [ex|[[sr dm] di]];
    [discriminate|].
  unfold update_param, modify. cbn beta iota.
  destruct (defectsite_relax_check self _ dm di) as [ex|ds];
    [discriminate|].
  intros _. exists ds. unfold set_parameters, Py.update.
  cbn [snd parameters].
  apply lookup_union_Some_l, lookup_singleton_eq.
Qed.

(** C9.  Each delocalization check that returns leaves
    [delocalization_meta] holding its own channel and nothing else: the
    atomic-site check discards whatever was recorded before it, and the
    relaxation check discards both the earlier channels and the
    ['structure_relax'] record it wrote a moment before its
    ['defectsite_relax'] one. *)
Theorem delocalization_meta_holds_one_channel
    (self : t) (e : DefectEntry) :
  (fst (is_kumagai_delocalized self e) = Return tt ->
   exists rec,
     parameters (snd (is_kumagai_delocalized self e))
       !! KStr "delocalization_meta"
     = Some (VDict {[ KStr "atomic_site" := rec ]})) /\
  (fst (relaxed self e) = Return tt ->
   exists rec,
     parameters (snd (relaxed self e)) !! KStr "delocalization_meta"
     = Some (VDict {[ KStr "defectsite_relax" := rec ]})).
Proof.
  split.
  - apply is_kumagai_delocalized_replaces.
  - apply is_final_relaxed_replaces.
Qed.

End Collaborators.

Lemma delocalization_meta_holds_one_channel_witness :
  (exists rec,
      parameters (snd (is_kumagai_delocalized
                         defaults CompatibilityExample.checked_entry))
        !! KStr "delocalization_meta"
      = Some (VDict {[ KStr "atomic_site" := rec ]})) /\
  (exists rec,
      parameters (snd (is_final_relaxed_structure_delocalized
                         defaults
                         CompatibilityExample.generate_defect_structure
                         CompatibilityExample.get_sites_in_sphere
                         CompatibilityExample.get_all_distance
                         CompatibilityExample.checked_entry))
        !! KStr "delocalization_meta"
      = Some (VDict {[ KStr "defectsite_relax" := rec ]})).
Proof.
  split.
  - apply (delocalization_meta_holds_one_channel
             CompatibilityExample.generate_defect_structure
             CompatibilityExample.get_sites_in_sphere
             CompatibilityExample.get_all_distance
             defaults CompatibilityExample.checked_entry).
    vm_compute. reflexivity.
  - apply (delocalization_meta_holds_one_channel
             CompatibilityExample.generate_defect_structure
             CompatibilityExample.get_sites_in_sphere
             CompatibilityExample.get_all_distance
             defaults CompatibilityExample.checked_entry).
    vm_compute. reflexivity.
Defined.

(** On an entry that already carries the planar-average record, the
    atomic-site check returns and the planar-average record is gone. *)
Lemma planar_record_is_lost :
  let e := CompatibilityExample.checked_entry in
  Py.dict_getitem (parameters e) "delocalization_meta"
    ≫= (fun m => Py.getitem m "plnr_avg")
  = Return (check_record true ∅) /\
  fst (is_kumagai_delocalized defaults e) = Return tt /\
  Py.dict_getitem (parameters (snd (is_kumagai_delocalized defaults e)))
                  "delocalization_meta"
    ≫= (fun m => Py.getitem m "plnr_avg")
  = Raise (KeyError "plnr_avg").
Proof. repeat split; vm_compute; reflexivity. Qed.

End CompatibilityTheorems.


(** ** Kumagai correction *)

Module KumagaiTheorems.
Import Crystal KumagaiCorrection FloatFacts.

(** Case analysis on the next intermediate result of a computation. *)
Ltac step_run :=
  match goal with
  | |- context [match ?r with Raise _ => _ | Return _ => _ end] =>
      destruct r eqn:?; cbn beta iota
  | |- context [let '(_, _) := ?p in _] =>
      destruct p eqn:?; cbn beta iota
  | |- context [match ?p with (_, _) => _ end] =>
      destruct p eqn:?; cbn beta iota
  end.

Section Methods.
Variable kumagai_to_V : Q.
Variable tune_for_gamma : Lattice -> matrix3 -> float.
Variable generate_R_and_G_vecs :
  float -> list Z -> Lattice -> matrix3 ->
  list (list vec) * list float * list (list vec) * list float.
Variable np_pi : Q.
Variables (np_sqrt np_exp np_cos erfc : float -> float).
Variable describe : list float -> result Scipy.DescribeResult.
Variable distance_and_image_from_frac_coords : Site -> vec -> float * vec.
Variable structure_index : Structure -> Site -> result nat.

Let pot_corr :=
  perform_pot_corr kumagai_to_V np_pi np_sqrt np_exp np_cos erfc describe
                   distance_and_image_from_frac_coords structure_index.
Let correction_of :=
  get_correction kumagai_to_V tune_for_gamma generate_R_and_G_vecs
                 np_pi np_sqrt np_exp np_cos erfc describe
                 distance_and_image_from_frac_coords structure_index.

(** The returned potential-alignment correction is [-q] times the
    alignment constant that was stored in [metadata["potalign"]]. *)
Lemma kumagai_perform_pot_corr_returns (defect_structure : Structure)
    (defect_frac_coords : value) (site_list : list (Site * float))
    (sampling_radius : value) (q : float) (r_vecs g_vecs : list vec)
    (gamma : float) (self self' : t) (pc : float) :
  pot_corr defect_structure defect_frac_coords site_list sampling_radius q
           r_vecs g_vecs gamma self = (Return pc, self') ->
  exists pot_alignment,
    pc = (- q * pot_alignment)%F /\
    metadata self' !! KStr "potalign" = Some (VNum pot_alignment).
Proof.
  unfold pot_corr, perform_pot_corr, set_meta, modify, lift, get.
  unfold mbind, M_bind, mret, M_ret. cbn beta iota.
  repeat (step_run; try discriminate).
  all: intros H; injection H as <- <-; eexists; split; [reflexivity|];
    cbn [metadata];
    rewrite lookup_insert_ne by discriminate;
    rewrite lookup_insert_ne by discriminate;
    apply lookup_insert_eq.
Qed.

Let site_info :=
  site_potential kumagai_to_V np_pi np_sqrt np_exp np_cos erfc
                 distance_and_image_from_frac_coords structure_index.
Let step :=
  site_step kumagai_to_V np_pi np_sqrt np_exp np_cos erfc
            distance_and_image_from_frac_coords structure_index.
Let sums := lattice_sums generate_R_and_G_vecs.
Let converged := converged_sums generate_R_and_G_vecs.

(** *** The sampling loop *)

Lemma site_step_returns (self : t) (defect_structure : Structure)
    (defect_frac_coords : value) (radius q : float)
    (r_vecs g_vecs : list vec) (gamma potential_shift : float)
    (pot_dict : Py.dict) (for_correction : list float)
    (site : Site) (Vqb dist Vpc : float) (idx : nat) :
  site_info self defect_structure defect_frac_coords q r_vecs g_vecs gamma
            potential_shift site
  = Return (dist, Vpc, idx) ->
  step self defect_structure defect_frac_coords (VNum radius) q r_vecs g_vecs
       gamma potential_shift (pot_dict, for_correction) (site, Vqb)
  = Return (<[ KInt (Z.of_nat idx) :=
                 VDict {[ KStr "Vpc" := VNum Vpc;
                          KStr "Vqb" := VNum Vqb;
                          KStr "dist_to_defect" := VNum dist ]} ]> pot_dict,
            if (radius <? dist)%F
            then for_correction ++ [(Vqb - Vpc)%F] else for_correction).
Proof.
  unfold step, site_info, site_step. intros ->.
  cbn [mbind result_bind Py.as_num].
  destruct (radius <? dist)%F; reflexivity.
Qed.

(** The loop of line 521 appends to [for_correction] exactly the
    residuals of the sites beyond the sampling radius. *)
Lemma site_loop_samples (self : t) (defect_structure : Structure)
    (defect_frac_coords : value) (radius q : float)
    (r_vecs g_vecs : list vec) (gamma potential_shift : float)
    (site_list : list (Site * float)) :
  forall (pot_dict : Py.dict) (for_correction : list float)
         (infos : list (float * float * nat)),
    mapM (site_info self defect_structure defect_frac_coords q r_vecs g_vecs
                    gamma potential_shift) (map fst site_list)
    = Return infos ->
    exists pot_dict',
      foldR (step self defect_structure defect_frac_coords (VNum radius) q
                  r_vecs g_vecs gamma potential_shift)
            (pot_dict, for_correction) site_list
      = Return (pot_dict',
                for_correction
                  ++ alignment_samples radius (sampled site_list infos)).
Proof.
  induction site_list as [|[site Vqb] l IH]; intros pd fc infos H.
  - simpl in H. injection H as <-. exists pd. simpl.
    rewrite app_nil_r. reflexivity.
  - simpl in H.
    apply result_bind_return in H as (info & Hinfo & H).
    apply result_bind_return in H as (infos' & Hrest & H).
    injection H as <-.
    destruct info as [[dist Vpc] idx].
    cbn [foldR].
    rewrite (site_step_returns _ _ _ radius _ _ _ _ _ pd fc _ Vqb _ _ _ Hinfo).
    cbn [mbind result_bind].
    edestruct IH as [pd' Hpd']; [exact Hrest|].
    exists pd'. rewrite Hpd'.
    unfold alignment_samples. cbn [sampled zip_with List.filter map].
    destruct (radius <? dist)%F.
    + cbn [map]. rewrite <- app_assoc. reflexivity.
    + reflexivity.
Qed.

(** Only the sites whose distance to the defect strictly exceeds the
    sampling radius contribute; the alignment constant stored in
    [metadata["potalign"]] is the arithmetic mean of their residuals
    [Vqb - Vpc], and 0 when no site qualifies; when
    [scipy.stats.describe] accepts the sample, the value returned is
    [-q] times that constant. *)
Lemma alignment_is_mean_residual (self : t) (defect_structure : Structure)
    (defect_frac_coords : value) (site_list : list (Site * float))
    (radius q : float) (r_vecs g_vecs : list vec)
    (gamma potential_shift : float) (infos : list (float * float * nat)) :
  get_potential_shift gamma (volume (lattice defect_structure))
  = Return potential_shift ->
  mapM (site_info self defect_structure defect_frac_coords q r_vecs g_vecs
                  gamma potential_shift) (map fst site_list)
  = Return infos ->
  metadata (snd (pot_corr defect_structure defect_frac_coords site_list
                          (VNum radius) q r_vecs g_vecs gamma self))
    !! KStr "potalign"
  = Some (VNum (alignment_constant
                  (alignment_samples radius (sampled site_list infos)))) /\
  fst (pot_corr defect_structure defect_frac_coords site_list
                (VNum radius) q r_vecs g_vecs gamma self)
  = (describe (alignment_samples radius (sampled site_list infos));;
     Return (- q * alignment_constant
                     (alignment_samples radius (sampled site_list infos)))%F).
Proof.
  intros Hps Hinfos.
  destruct (site_loop_samples self defect_structure defect_frac_coords
              radius q r_vecs g_vecs gamma potential_shift site_list
              ∅ [] infos Hinfos) as [pd Hloop].
  cbn [app] in Hloop.
  unfold pot_corr, perform_pot_corr, set_meta, modify, lift, get.
  unfold mbind, M_bind, mret, M_ret. cbn beta iota.
  rewrite Hps. cbn beta iota. fold step. rewrite Hloop. cbn beta iota.
  set (samples := alignment_samples radius (sampled site_list infos)).
  assert (Hmean :
            match samples with [] => Fin 0 | _ :: _ => F.mean samples end
            = alignment_constant samples).
  { destruct samples; reflexivity. }
  rewrite Hmean.
  destruct (describe samples) as [ex|stats]; cbn beta iota.
  - cbn [snd fst metadata]. split; [apply lookup_insert_eq|reflexivity].
  - cbn [snd fst metadata]. split; [|reflexivity].
    rewrite lookup_insert_ne by discriminate.
    rewrite lookup_insert_ne by discriminate.
    apply lookup_insert_eq.
Qed.

(** C4.  When no site lies beyond the sampling radius the method stores
    0 as the alignment constant, without dividing by the number of
    samples, and then hands the empty sample to [scipy.stats.describe]:
    as that routine rejects an empty sample, the method raises and
    returns no correction. *)
Theorem empty_sample_is_rejected (self : t) (defect_structure : Structure)
    (defect_frac_coords : value) (site_list : list (Site * float))
    (radius q : float) (r_vecs g_vecs : list vec)
    (gamma potential_shift : float) (infos : list (float * float * nat))
    (ex : exn) :
  get_potential_shift gamma (volume (lattice defect_structure))
  = Return potential_shift ->
  mapM (site_info self defect_structure defect_frac_coords q r_vecs g_vecs
                  gamma potential_shift) (map fst site_list)
  = Return infos ->
  alignment_samples radius (sampled site_list infos) = [] ->
  describe [] = Raise ex ->
  pot_corr defect_structure defect_frac_coords site_list
           (VNum radius) q r_vecs g_vecs gamma self
  = (Raise ex,
     mk (dielectric self)
        (<[ KStr "potalign" := VNum (Fin 0) ]> (metadata self))).
Proof.
  intros Hps Hinfos Hnone Hdescribe.
  destruct (site_loop_samples self defect_structure defect_frac_coords
              radius q r_vecs g_vecs gamma potential_shift site_list
              ∅ [] infos Hinfos) as [pd Hloop].
  cbn [app] in Hloop. rewrite Hnone in Hloop.
  unfold pot_corr, perform_pot_corr, set_meta, modify, lift, get.
  unfold mbind, M_bind, mret, M_ret. cbn beta iota.
  rewrite Hps. cbn beta iota. fold step. rewrite Hloop. cbn beta iota.
  rewrite Hdescribe. reflexivity.
Qed.

(** *** The convergence check *)

Lemma spread_pair (a b : float) : spread [a; b] = Return (F.abs (a - b)).
Proof. reflexivity. Qed.

(** C2.  When the sums at [[25, 28]] differ by more than 0.0001 the sums
    are redone at [[30, 35]], and then the test of line 428 is the wrong
    way round: escalated sums that agree within the tolerance make the
    method raise [ValueError], escalated sums that still differ by the
    tolerance or more are accepted. *)
Theorem escalated_check_is_inverted (self : t) (gamma : float)
    (lattice : Lattice) (pot_shift si : float)
    (g_vecs r_vecs g_vecs' r_vecs' : list (list vec))
    (a0 a1 b0 b1 : Q) :
  sums self gamma [25; 28]%Z lattice pot_shift si
  = Return (g_vecs, r_vecs, [Fin a0; Fin a1]) ->
  (es_tolerance < Qabs (a0 - a1))%Q ->
  sums self gamma [30; 35]%Z lattice pot_shift si
  = Return (g_vecs', r_vecs', [Fin b0; Fin b1]) ->
  ((Qabs (b0 - b1) < es_tolerance)%Q ->
   converged self gamma lattice pot_shift si
   = Raise (ValueError not_converged_msg)) /\
  ((es_tolerance <= Qabs (b0 - b1))%Q ->
   converged self gamma lattice pot_shift si
   = Return (g_vecs', r_vecs', [Fin b0; Fin b1])).
Proof.
  intros H1 Hgap H2. unfold converged, converged_sums.
  unfold sums in H1, H2. rewrite H1. cbn [mbind result_bind].
  rewrite spread_pair. cbn [mbind result_bind].
  change (Fin es_tolerance <? F.abs (Fin a0 - Fin a1))%F
    with (es_tolerance <? Qabs (a0 - a1))%Q.
  apply ltb_lt in Hgap. rewrite Hgap. rewrite H2. cbn [mbind result_bind].
  rewrite spread_pair. cbn [mbind result_bind].
  change (Fin es_tolerance <? F.abs (Fin b0 - Fin b1))%F
    with (es_tolerance <? Qabs (b0 - b1))%Q.
  change (F.abs (Fin b0 - Fin b1) <? Fin es_tolerance)%F
    with (Qabs (b0 - b1) <? es_tolerance)%Q.
  split; intros H.
  - apply ltb_lt in H. rewrite H. reflexivity.
  - apply ltb_ge in H. rewrite H. reflexivity.
Qed.

(** *** [get_correction] *)

Lemma kumagai_entry_param_inv (k : key) (s s' : t * DefectEntry) (v : value) :
  entry_param k s = (Return v, s') ->
  Py.dict_getitem (parameters (snd s)) k = Return v /\ s' = s.
Proof.
  unfold entry_param. intros H.
  apply M_bind_inv in H as (x & s1 & Hget & H).
  apply get_inv in Hget as [-> ->]. apply lift_inv in H. exact H.
Qed.

Lemma kumagai_set_entry_param_inv (k : key) (v : value) (s s' : t * DefectEntry)
    (u : unit) :
  set_entry_param k v s = (Return u, s') ->
  s' = (fst s, set_parameters (fun p => <[ k := v ]> p) (snd s)).
Proof.
  unfold set_entry_param. intros H.
  apply on_snd_inv in H as (x & H & ->).
  apply modify_inv in H as ->. reflexivity.
Qed.

(** What [get_correction] returns. *)
Lemma kumagai_get_correction_returns (self : t) (e : DefectEntry)
    (c : correction) (s' : t * DefectEntry) :
  correction_of (self, e) = (Return c, s') ->
  exists (structure : Structure) gamma es0 g_vecs r_vecs self1 pot_alignment,
    Py.dict_getitem (parameters e) "initial_defect_structure"
    = Return (VStructure structure) /\
    electrostatic_sum tune_for_gamma generate_R_and_G_vecs np_pi np_sqrt
                      (lattice structure) self
    = (Return (gamma, es0, g_vecs, r_vecs), self1) /\
    kumagai_electrostatic c
    = (es0 * - (F.of_Z (entry_charge e) * F.of_Z (entry_charge e))
       * Fin kumagai_to_V / Fin 2)%F /\
    kumagai_potential_alignment c
    = (- F.of_Z (entry_charge e) * pot_alignment)%F /\
    parameters (snd s') !! KStr "potalign"
    = Some (VNum (if F.truthy (F.of_Z (entry_charge e))
                  then (kumagai_potential_alignment c
                        / - F.of_Z (entry_charge e))%F
                  else Fin 0)).
Proof.
  unfold correction_of, get_correction. intros H.
  apply M_bind_inv in H as (v1 & s1 & H1 & H).
  apply kumagai_entry_param_inv in H1 as [_ ->].
  apply M_bind_inv in H as (v2 & s1 & H1 & H).
  apply kumagai_entry_param_inv in H1 as [_ ->].
  apply M_bind_inv in H as (v3 & s1 & H1 & H).
  apply kumagai_entry_param_inv in H1 as [_ ->].
  apply M_bind_inv in H as (sv & s1 & H1 & H).
  apply kumagai_entry_param_inv in H1 as [Hstruct ->].
  apply M_bind_inv in H as (v5 & s1 & H1 & H).
  apply kumagai_entry_param_inv in H1 as [_ ->].
  apply M_bind_inv in H as (structure & s1 & H1 & H).
  apply lift_inv in H1 as [Hs ->].
  destruct sv; try discriminate. injection Hs as ->.
  apply M_bind_inv in H as (s0 & s1 & H1 & H).
  apply get_inv in H1 as [-> ->]. cbn [snd] in *.
  apply M_bind_inv in H as ([[[gamma es0] g_vecs] r_vecs] & s1 & H1 & H).
  apply on_fst_inv in H1 as (self1 & Hsum & ->). cbn [fst snd] in *.
  apply M_bind_inv in H as (u & s1 & H1 & H).
  apply on_fst_inv in H1 as (self2 & _ & ->). cbn [fst snd] in *.
  apply M_bind_inv in H as (pairs & s1 & H1 & H).
  apply lift_inv in H1 as [_ ->].
  apply M_bind_inv in H as (site_list & s1 & H1 & H).
  apply lift_inv in H1 as [_ ->].
  apply M_bind_inv in H as (radius & s1 & H1 & H).
  apply on_fst_inv in H1 as (self3 & _ & ->). cbn [fst snd] in *.
  apply M_bind_inv in H as (r0 & s1 & H1 & H).
  apply lift_inv in H1 as [_ ->].
  apply M_bind_inv in H as (g0 & s1 & H1 & H).
  apply lift_inv in H1 as [_ ->].
  apply M_bind_inv in H as (pc & s1 & H1 & H).
  apply on_fst_inv in H1 as (self4 & Hpc & ->). cbn [fst snd] in *.
  apply kumagai_perform_pot_corr_returns in Hpc as (pa & -> & _).
  apply M_bind_inv in H as (self5 & s1 & H1 & H).
  apply on_fst_inv in H1 as (x & H1 & ->). cbn [fst snd] in *.
  apply get_inv in H1 as [-> ->].
  apply M_bind_inv in H as (u1 & s1 & H1 & H).
  apply kumagai_set_entry_param_inv in H1 as ->. cbn [fst snd] in *.
  apply M_bind_inv in H as (u2 & s1 & H1 & H).
  apply kumagai_set_entry_param_inv in H1 as ->. cbn [fst snd] in *.
  apply mret_inv in H as [-> ->].
  exists structure, gamma, es0, g_vecs, r_vecs, self1, pa.
  cbn [kumagai_electrostatic kumagai_potential_alignment snd parameters
       set_parameters].
  repeat split; try assumption; try reflexivity.
  rewrite lookup_insert_eq. reflexivity.
Qed.

(** The electrostatic sum does not depend on the charge, so the
    electrostatic correction is quadratic in it. *)
Lemma kumagai_electrostatic_scales (self : t) (e1 eq : DefectEntry)
    (c1 cq : correction) (s1 sq : t * DefectEntry) :
  parameters eq = parameters e1 ->
  entry_charge e1 = 1%Z ->
  correction_of (self, e1) = (Return c1, s1) ->
  correction_of (self, eq) = (Return cq, sq) ->
  kumagai_electrostatic cq
  ≡ (F.of_Z (entry_charge eq) * F.of_Z (entry_charge eq)
     * kumagai_electrostatic c1)%F.
Proof.
  intros Hparams Hone H1 Hq.
  apply kumagai_get_correction_returns in H1
    as (st1 & gamma1 & es1 & g1 & r1 & self1 & pa1 & Hst1 & Hsum1 & Hes1 & _).
  apply kumagai_get_correction_returns in Hq
    as (stq & gammaq & esq & gq & rq & selfq & paq & Hstq & Hsumq & Hesq & _).
  rewrite Hparams, Hst1 in Hstq. injection Hstq as <-.
  rewrite Hsum1 in Hsumq. injection Hsumq as <- <- <- <- <-.
  rewrite Hes1, Hesq, Hone.
  set (z := inject_Z (entry_charge eq)).
  change (F.of_Z (entry_charge eq)) with (Fin z).
  change (Fin z * Fin z)%F with (Fin (z * z)).
  change (- Fin (z * z))%F with (Fin (- (z * z))).
  change (- (F.of_Z 1 * F.of_Z 1))%F
    with (Fin (- (inject_Z 1 * inject_Z 1))).
  rewrite (mul_div_fin (z * z)), (mul_assoc (Fin (z * z))).
  apply div_proper; [|reflexivity].
  apply mul_proper; [|reflexivity].
  apply scale_product. ring.
Qed.

End Methods.

Lemma empty_sample_is_rejected_witness :
  KumagaiExample.run_pot_corr 100
  = (Raise (ValueError "The input must not be empty."),
     mk (dielectric KumagaiExample.self)
        (<[ KStr "potalign" := VNum (Fin 0) ]>
           (metadata KumagaiExample.self))).
Proof.
  apply (empty_sample_is_rejected
           Standins.kumagai_to_V Standins.np_pi Standins.np_sqrt
           Standins.np_exp Standins.np_cos Standins.erfc Standins.describe
           (Standins.distance_and_image_from_frac_coords
              KumagaiExample.cubic)
           Standins.structure_index
           KumagaiExample.self KumagaiExample.cell KumagaiExample.origin
           KumagaiExample.site_list (Fin 100) (Fin 1) [] [] (Fin 1)
           KumagaiExample.potential_shift KumagaiExample.infos).
  - vm_compute. reflexivity.
  - vm_compute. reflexivity.
  - vm_compute. reflexivity.
  - reflexivity.
Defined.

Lemma escalated_check_is_inverted_witness :
  converged_sums (KumagaiExample.generate_R_and_G_vecs (1 # 100000))
                 KumagaiExample.self (Fin 1) KumagaiExample.cubic
                 (Fin 0) (Fin 0)
  = Raise (ValueError not_converged_msg) /\
  converged_sums (KumagaiExample.generate_R_and_G_vecs (1 # 10))
                 KumagaiExample.self (Fin 1) KumagaiExample.cubic
                 (Fin 0) (Fin 0)
  = Return ([[]; []], [[]; []],
            [Fin ((3 # 10) + 0 + 0 + 0);
             Fin ((3 # 10) + (1 # 10) + 0 + 0 + 0)]).
Proof.
  split.
  - apply (escalated_check_is_inverted
             (KumagaiExample.generate_R_and_G_vecs (1 # 100000))
             KumagaiExample.self (Fin 1) KumagaiExample.cubic (Fin 0) (Fin 0)
             [[]; []] [[]; []] [[]; []] [[]; []]
             ((1 # 2) + 0 + 0 + 0)%Q ((2 # 5) + 0 + 0 + 0)%Q
             ((3 # 10) + 0 + 0 + 0)%Q ((3 # 10) + (1 # 100000) + 0 + 0 + 0)%Q).
    + reflexivity.
    + vm_compute. reflexivity.
    + reflexivity.
    + vm_compute. reflexivity.
  - apply (escalated_check_is_inverted
             (KumagaiExample.generate_R_and_G_vecs (1 # 10))
             KumagaiExample.self (Fin 1) KumagaiExample.cubic (Fin 0) (Fin 0)
             [[]; []] [[]; []] [[]; []] [[]; []]
             ((1 # 2) + 0 + 0 + 0)%Q ((2 # 5) + 0 + 0 + 0)%Q
             ((3 # 10) + 0 + 0 + 0)%Q ((3 # 10) + (1 # 10) + 0 + 0 + 0)%Q).
    + reflexivity.
    + vm_compute. reflexivity.
    + reflexivity.
    + vm_compute. intros H. discriminate H.
Defined.

(** The same on a whole entry: with escalated sums that agree to
    [0.00001], [get_correction] raises; with escalated sums that differ by
    [0.1] it returns a correction. *)
Lemma get_correction_escalation_scenario :
  fst (KumagaiExample.run (KumagaiExample.generate_R_and_G_vecs (1 # 100000)) 1)
  = Raise (ValueError not_converged_msg) /\
  (exists c,
      fst (KumagaiExample.run (KumagaiExample.generate_R_and_G_vecs (1 # 10)) 1)
      = Return c).
Proof.
  split.
  - vm_compute. reflexivity.
  - eexists. vm_compute. reflexivity.
Qed.

(** With sampling radius 5 only the third site qualifies, and the
    alignment constant is its residual. *)
Lemma alignment_scenario :
  metadata (snd (KumagaiExample.run_pot_corr 5)) !! KStr "potalign"
  = Some (VNum (alignment_constant
                  (alignment_samples (Fin 5)
                     (sampled KumagaiExample.site_list
                              KumagaiExample.infos)))) /\
  alignment_samples (Fin 5)
    (sampled KumagaiExample.site_list KumagaiExample.infos)
  = [(Fin (2 # 10)
      - snd (fst (nth 2 KumagaiExample.infos (Fin 0, Fin 0, 0%nat))))%F].
Proof. split; vm_compute; reflexivity. Qed.

End KumagaiTheorems.


(** ** Freysoldt correction *)

Module FreysoldtFacts.
Import Crystal FreysoldtCorrection FloatFacts.

(** *** Lists and arrays *)

Lemma lookup_map {A B} (f : A -> B) (l : list A) (i : nat) :
  map f l !! i = f <$> (l !! i).
Proof.
  revert i. induction l as [|x l IH]; intros [|i]; cbn; auto.
Qed.

Lemma list_getitem_of_nat {A} (l : list A) (k : nat) (x : A) :
  l !! k = Some x -> Py.list_getitem l (Z.of_nat k) = Return x.
Proof.
  intros H. unfold Py.list_getitem.
  assert (E : (Z.of_nat k <? 0)%Z = false) by (apply Z.ltb_ge; lia).
  rewrite E. cbn iota. rewrite E, Nat2Z.id, H. reflexivity.
Qed.

Lemma list_getitem_elem {A} (l : list A) (i : Z) (x : A) :
  Py.list_getitem l i = Return x -> x ∈ l.
Proof.
  unfold Py.list_getitem.
  destruct (_ <? 0)%Z; [discriminate|].
  destruct (l !! _) as [y|] eqn:E; [|discriminate].
  intros H. injection H as <-. eapply list_elem_of_lookup_2, E.
Qed.

Lemma mapM_return {A B} (f : A -> result B) (g : A -> B) (l : list A) :
  (forall a, a ∈ l -> f a = Return (g a)) ->
  mapM f l = Return (map g l).
Proof.
  induction l as [|a l IH]; intros H; [reflexivity|].
  cbn [mapM map]. rewrite (H a) by apply list_elem_of_here.
  cbn [mbind result_bind]. rewrite IH.
  - reflexivity.
  - intros b Hb. apply H, list_elem_of_further, Hb.
Qed.

Lemma mapM_elems {A B} (f : A -> result B) (P : B -> Prop) (l : list A)
    (r : list B) :
  (forall a b, f a = Return b -> P b) ->
  mapM f l = Return r -> Forall P r.
Proof.
  intros Hf. revert r. induction l as [|a l IH]; intros r H.
  - injection H as <-. constructor.
  - cbn [mapM] in H.
    apply result_bind_return in H as (b & Hb & H).
    apply result_bind_return in H as (r' & Hr' & H).
    injection H as <-. constructor; [eapply Hf, Hb | apply IH, Hr'].
Qed.

Lemma range_of_nat (a len : nat) (lo hi : Z) :
  lo = Z.of_nat a -> hi = (Z.of_nat a + Z.of_nat len)%Z ->
  Py.range lo hi = map Z.of_nat (seq a len).
Proof.
  intros -> ->. unfold Py.range.
  replace (Z.to_nat (Z.of_nat a + Z.of_nat len - Z.of_nat a)) with len by lia.
  replace (seq a len) with (seq (a + 0) len) by (f_equal; lia).
  rewrite <- (fmap_add_seq a 0 len).
  change (map Z.of_nat (Nat.add a <$> seq 0 len))
    with (map Z.of_nat (map (Nat.add a) (seq 0 len))).
  rewrite map_map. apply map_ext. intros k. lia.
Qed.

Lemma nth_lookup_Some {A} (l : list A) (i : nat) (d : A) :
  (i < length l)%nat -> l !! i = Some (nth i l d).
Proof.
  intros H. destruct (lookup_lt_is_Some_2 l i H) as [x Hx].
  rewrite Hx. f_equal. symmetry. apply nth_lookup_Some with (d := d) in Hx.
  exact Hx.
Qed.

(** A window of an array, read index by index. *)
Lemma mapM_getitem_window {A} (l : list A) (a len : nat) (d : A) :
  (a + len <= length l)%nat ->
  mapM (Py.list_getitem l) (map Z.of_nat (seq a len))
  = Return (map (fun i => nth i l d) (seq a len)).
Proof.
  intros H.
  rewrite (mapM_return _ (fun z => nth (Z.to_nat z) l d)).
  - rewrite map_map. f_equal. apply map_ext. intros i.
    rewrite Nat2Z.id. reflexivity.
  - intros z Hz.
    change (map Z.of_nat (seq a len)) with (Z.of_nat <$> seq a len) in Hz.
    apply list_elem_of_fmap in Hz as (i & -> & Hi).
    apply elem_of_seq in Hi. rewrite Nat2Z.id.
    apply list_getitem_of_nat, nth_lookup_Some. lia.
Qed.

(** *** The maximum of an array *)

Section Maximum.

Let fmax (m y : float) : float :=
  if F.is_nan m then m else if F.is_nan y then y
  else if (m <? y)%F then y else m.

Lemma fold_max_spec (l : list float) (x : float) :
  F.is_nan x = false ->
  Forall (fun y => F.is_nan y = false) l ->
  let m := fold_left fmax l x in
  F.is_nan m = false /\
  (x <=? m)%F = true /\
  (forall i y, l !! i = Some y -> (y <=? m)%F = true) /\
  (m = x \/ exists i, l !! i = Some m).
Proof.
  intros Hx Hl. revert x Hx.
  induction Hl as [|y l Hy _ IH]; intros x Hx; cbn [fold_left].
  - split; [exact Hx|]. split; [apply leb_refl, Hx|].
    split; [intros i y H; discriminate|]. auto.
  - assert (Hstep : fmax x y = if (x <? y)%F then y else x).
    { unfold fmax. rewrite Hx, Hy. reflexivity. }
    rewrite Hstep.
    assert (Hn : F.is_nan (if (x <? y)%F then y else x) = false)
      by (destruct (x <? y)%F; assumption).
    destruct (IH _ Hn) as (H0 & H1 & H2 & H3).
    assert (Hxy : (x <=? (if (x <? y)%F then y else x))%F = true
                  /\ (y <=? (if (x <? y)%F then y else x))%F = true).
    { destruct (x <? y)%F eqn:E.
      - split; [apply ltb_leb, E | apply leb_refl, Hy].
      - split; [apply leb_refl, Hx | apply leb_total; assumption]. }
    destruct Hxy as [Hx' Hy'].
    split; [exact H0|].
    split; [eapply leb_trans; eassumption|]. split.
    + intros [|i] z Hz; cbn in Hz.
      * injection Hz as <-. eapply leb_trans; eassumption.
      * eapply H2, Hz.
    + destruct H3 as [H3|[i H3]].
      * destruct (x <? y)%F.
        -- right. exists 0%nat. cbn. f_equal. symmetry. exact H3.
        -- left. exact H3.
      * right. exists (S i). exact H3.
Qed.

(** On an array without [nan], [max] returns an element that no other
    exceeds. *)
Lemma max_list_spec (l : list float) :
  l <> [] ->
  Forall (fun y => F.is_nan y = false) l ->
  exists m,
    Py.max_list l = Return m /\
    F.is_nan m = false /\
    (forall i x, l !! i = Some x -> (x <=? m)%F = true) /\
    (exists i, l !! i = Some m).
Proof.
  destruct l as [|x0 l]; [congruence|]. intros _ H.
  apply Forall_cons in H as [Hx Hl].
  destruct (fold_max_spec l x0 Hx Hl) as (H0 & H1 & H2 & H3).
  eexists. split; [reflexivity|]. fold fmax.
  split; [exact H0|]. split.
  - intros [|i] x Hi; cbn in Hi.
    + injection Hi as <-. exact H1.
    + eapply H2, Hi.
  - destruct H3 as [H3|[i H3]].
    + exists 0%nat. cbn. f_equal. symmetry. exact H3.
    + exists (S i). exact H3.
Qed.

(** As soon as an element is [nan], so is the maximum. *)
Lemma fold_max_nan (l : list float) (x : float) :
  F.is_nan x = true \/ Exists (fun y => F.is_nan y = true) l ->
  F.is_nan (fold_left fmax l x) = true.
Proof.
  revert x. induction l as [|y l IH]; intros x [Hx|Hl]; cbn [fold_left].
  - exact Hx.
  - inversion Hl.
  - apply IH. left. unfold fmax. rewrite Hx. exact Hx.
  - apply IH. apply Exists_cons in Hl as [Hy|Hl]; [left|right; exact Hl].
    unfold fmax. destruct (F.is_nan x) eqn:Hx; [exact Hx|].
    rewrite Hy. exact Hy.
Qed.

Lemma max_list_nan (l : list float) :
  Exists (fun y => F.is_nan y = true) l -> Py.max_list l = Return NaN.
Proof.
  destruct l as [|x l]; intros H; [inversion H|].
  cbn [Py.max_list]. f_equal. fold fmax.
  assert (Hn : F.is_nan (fold_left fmax l x) = true).
  { apply fold_max_nan. apply Exists_cons in H. exact H. }
  destruct (fold_left fmax l x); try discriminate. reflexivity.
Qed.

End Maximum.

End FreysoldtFacts.

Module FreysoldtTheorems.
Import Crystal FreysoldtCorrection FloatFacts FreysoldtFacts.

(** *** The frequencies of an odd grid *)

(** On a grid with an odd number of points the rolled frequencies end
    with 0. *)
Lemma frequencies_odd (nx : nat) :
  Nat.odd nx = true -> (3 <= nx)%nat ->
  exists l, l <> [] /\ frequencies nx = l ++ [0%Z].
Proof.
  intros Hodd Hnx.
  set (k := (nx / 2)%nat).
  assert (Hk : nx = (2 * k + 1)%nat).
  { pose proof (Nat.div_mod_eq nx 2) as H.
    rewrite <- Nat.bit0_mod, Nat.bit0_odd, Hodd in H.
    cbn [Nat.b2n] in H. subst k. lia. }
  assert (Hk1 : (1 <= k)%nat) by lia.
  set (l := map (fun j => (Z.of_nat j - Z.of_nat k)%Z) (seq 0 nx)).
  assert (Hlen : length l = nx) by (unfold l; rewrite length_map, length_seq; lia).
  assert (Hroll : frequencies nx = drop (k + 1) l ++ take (k + 1) l).
  { unfold frequencies. fold k. fold l. unfold Py.roll. rewrite Hlen.
    destruct nx as [|n']; [lia|].
    rewrite Z.mod_small by lia. rewrite Nat2Z.id.
    replace (S n' - k)%nat with (k + 1)%nat by lia. reflexivity. }
  assert (Hmid : l !! k = Some 0%Z).
  { unfold l. rewrite lookup_map, lookup_seq_lt by lia. cbn. f_equal. lia. }
  exists (drop (k + 1) l ++ take k l). split.
  - intros H. apply (f_equal length) in H.
    rewrite length_app, length_drop, length_take in H. cbn in H. lia.
  - rewrite Hroll. replace (k + 1)%nat with (S k) by lia.
    rewrite (take_S_r l k 0%Z Hmid). rewrite app_assoc. reflexivity.
Qed.

Section Methods.
Variables (ang_to_bohr hart_to_ev : Q).
Variable eV_to_k : Q -> float.
Variable generate_reciprocal_vectors_squared :
  vec -> vec -> vec -> Q -> list float.
Variable np_pi : Q.
Variable quad : (float -> float) -> float -> float -> float.
Variable fft : list complex -> list complex.
Variable describe : list float -> result Scipy.DescribeResult.

Let long_range := long_range_potential ang_to_bohr np_pi.
Let window_of := window_alignment ang_to_bohr hart_to_ev.
Let sample := sample_alignment ang_to_bohr hart_to_ev describe.
Let pot_corr_of := perform_pot_corr ang_to_bohr hart_to_ev np_pi fft describe.
Let es_corr_of :=
  perform_es_corr ang_to_bohr hart_to_ev eV_to_k
                  generate_reciprocal_vectors_squared np_pi quad.
Let correction_of :=
  get_correction ang_to_bohr hart_to_ev eV_to_k
                 generate_reciprocal_vectors_squared np_pi quad fft describe.

(** *** The check on the imaginary part *)


(** When every component is within the tolerance the check passes. *)
Lemma imaginary_gate_passes (self : t) (v_R : list complex) :
  v_R <> [] ->
  Forall (fun z => (F.abs (snd z) <=? madetol self)%F = true) v_R ->
  imaginary_gate self v_R = Return tt.
Proof.
  intros Hne Hall.
  assert (Hnan : Forall (fun z => F.is_nan (snd z) = false) v_R).
  { eapply Forall_impl; [exact Hall|]. intros [re im]. cbn.
    destruct im; cbn; congruence. }
  destruct (max_list_spec (map snd v_R)) as (m & Hm & _ & _ & [i Hi]).
  { destruct v_R; [congruence | discriminate]. }
  { apply Forall_fmap. exact Hnan. }
  rewrite lookup_map in Hi. revert Hi.
  destruct (v_R !! i) as [c|] eqn:Hc; [|discriminate].
  cbn. intros Hi. injection Hi as <-.
  rewrite Forall_lookup in Hall. specialize (Hall i c Hc). cbn in Hall.
  unfold imaginary_gate. rewrite Hm. cbn [mbind result_bind].
  rewrite (leb_ltb_false _ _ Hall). reflexivity.
Qed.

(** A [nan] among the imaginary components silences the check: the
    maximum is [nan], and no comparison with [nan] holds. *)
Lemma imaginary_gate_nan (self : t) (v_R : list complex) :
  Exists (fun z => F.is_nan (snd z) = true) v_R ->
  imaginary_gate self v_R = Return tt.
Proof.
  intros H. unfold imaginary_gate.
  rewrite (max_list_nan (map snd v_R)).
  - cbn [mbind result_bind F.abs]. destruct (madetol self); reflexivity.
  - apply Exists_fmap. exact H.
Qed.

(** [perform_pot_corr] phase by phase. *)
Lemma perform_pot_corr_phases (axis_grid pureavg defavg : list float)
    (lattice : Lattice) (q : float) (defect_frac_position : value)
    (axis : Z) (widthsample : float) (self : t) :
  pot_corr_of axis_grid pureavg defavg lattice q defect_frac_position axis
              widthsample self
  = match shift_to_origin axis_grid pureavg defavg lattice
                          defect_frac_position axis with
    | Raise ex => (Raise ex, self)
    | Return (pureavg', defavg') =>
        match long_range self (length axis_grid) lattice q axis with
        | Raise ex => (Raise ex, self)
        | Return v_G =>
            match imaginary_gate self (fft v_G) with
            | Raise ex => (Raise ex, self)
            | Return _ =>
                sample axis_grid pureavg' defavg' lattice q axis widthsample
                       (fft v_G) self
            end
        end
    end.
Proof.
  unfold pot_corr_of, perform_pot_corr, long_range, sample.
  unfold mbind, M_bind, lift, get. cbn beta iota.
  destruct (shift_to_origin _ _ _ _ _ _) as [ex|[p d]]; [reflexivity|].
  cbn beta iota.
  destruct (long_range_potential _ _ _ _ _ _ _) as [ex|v_G]; [reflexivity|].
  cbn beta iota.
  destruct (imaginary_gate self (fft v_G)) as [ex|[]]; reflexivity.
Qed.

(** What [sample_alignment] returns is [-q] times the alignment constant
    of the window, which it also stores in [self.pot_corr]. *)
Lemma sample_alignment_returns (axis_grid pureavg defavg : list float)
    (lattice : Lattice) (q : float) (axis : Z) (widthsample : float)
    (v_R : list complex) (self self' : t) (r : float) :
  sample axis_grid pureavg defavg lattice q axis widthsample v_R self
  = (Return r, self') ->
  exists w,
    window_of axis_grid pureavg defavg lattice widthsample v_R = Return w /\
    r = (- q * w_C w)%F /\
    pot_corr self' = Some r.
Proof.
  unfold sample, sample_alignment, set_meta2. intros H.
  apply M_bind_inv in H as (w & s1 & Hw & H).
  apply lift_inv in Hw as [Hw ->].
  exists w. split; [exact Hw|].
  apply M_bind_inv in H as (u1 & s1 & H1 & H).
  apply modify_inv in H1 as ->.
  apply M_bind_inv in H as (u2 & s2 & H2 & H).
  apply M_bind_inv in H2 as (x & s1 & Hget & H2).
  apply get_inv in Hget as [-> ->].
  apply M_bind_inv in H2 as (inner & s1 & Hin & H2).
  apply lift_inv in Hin as [_ ->].
  apply modify_inv in H2 as ->.
  apply M_bind_inv in H as (stats & s3 & H3 & H).
  apply lift_inv in H3 as [_ ->].
  apply M_bind_inv in H as (u3 & s4 & H4 & H).
  apply M_bind_inv in H4 as (x & s1 & Hget & H4).
  apply get_inv in Hget as [-> ->].
  apply M_bind_inv in H4 as (inner2 & s1 & Hin & H4).
  apply lift_inv in Hin as [_ ->].
  apply modify_inv in H4 as ->.
  apply mret_inv in H as [-> ->].
  split; reflexivity.
Qed.

(** *** [nan] through the potential alignment *)

(** The entry of [v_G] at a vanishing frequency, for charge 0. *)
Lemma vanishing_frequency_nan (self : t) (dg : float) :
  let y := (F.of_Z 0 * dg * (F.of_Z 0 * dg))%F in
  (Fin 4 * Fin np_pi / (dielectric self * y) * - F.of_Z 0
   * rho_rec (q_model self) y)%F = NaN.
Proof.
  cbn zeta.
  assert (Hy : (exists t, (F.of_Z 0 * dg * (F.of_Z 0 * dg))%F = Fin t
                          /\ (t == 0)%Q)
               \/ (F.of_Z 0 * dg * (F.of_Z 0 * dg))%F = NaN).
  { destruct dg; cbn; [left | right; reflexivity..].
    eexists. split; [reflexivity|]. ring. }
  destruct Hy as [(t & -> & Ht) | ->].
  - assert (Hb : (exists u, (dielectric self * Fin t)%F = Fin u /\ (u == 0)%Q)
                 \/ (dielectric self * Fin t)%F = NaN).
    { assert (Hc1 : (t ?= 0)%Q = Eq) by (apply Qeq_alt; exact Ht).
      assert (Hc2 : (0 ?= t)%Q = Eq) by (apply Qeq_alt; symmetry; exact Ht).
      destruct (dielectric self); cbn; rewrite ?Hc1, ?Hc2; cbn;
        [left | right; reflexivity..].
      eexists. split; [reflexivity|]. rewrite Ht. ring. }
    destruct Hb as [(u & -> & Hu) | ->].
    + rewrite (mul_zero_of_div_zero _ u (- inject_Z 0)); [reflexivity| |].
      * exact Hu.
      * reflexivity.
    + rewrite div_nan_r. reflexivity.
  - rewrite mul_nan_r, div_nan_r. reflexivity.
Qed.

(** On an odd grid the model potential of a neutral defect holds a
    [nan]: the last frequency vanishes, and numpy divides by zero. *)
Lemma long_range_potential_nan (self : t) (nx : nat) (lattice : Lattice)
    (axis : Z) (v_G : list complex) :
  Nat.odd nx = true -> (3 <= nx)%nat ->
  long_range self nx lattice (F.of_Z 0) axis = Return v_G ->
  Exists (fun z => fst z = NaN) v_G.
Proof.
  intros Hodd Hnx. unfold long_range, long_range_potential. intros H.
  apply result_bind_return in H as (dg0 & _ & H).
  apply result_bind_return in H as (v0 & _ & H).
  destruct nx as [|n']; [lia|]. cbn beta iota zeta in H.
  assert (Heven : Nat.even (S n') = false).
  { rewrite <- Nat.negb_odd, Hodd. reflexivity. }
  rewrite Heven in H. injection H as <-.
  destruct (frequencies_odd (S n') Hodd Hnx) as (l & Hl & ->).
  destruct l as [|j l]; [congruence|].
  rewrite !map_app. cbn [map app tail].
  apply Exists_cons_tl. rewrite !map_app. apply Exists_app. right.
  cbn [map]. apply Exists_cons_hd. cbn [fst].
  apply vanishing_frequency_nan.
Qed.

Lemma Return_inj {A} (a b : A) : Return a = Return b -> a = b.
Proof. congruence. Qed.

Lemma tail_length {A} (l : list A) : length (tail l) = (length l - 1)%nat.
Proof. destruct l; cbn; lia. Qed.

Lemma roll_length {A} (l : list A) (shift : Z) :
  length (Py.roll l shift) = length l.
Proof.
  unfold Py.roll. destruct (length l) as [|n] eqn:E; [exact E|].
  rewrite length_app, length_drop, length_take. lia.
Qed.

(** The model potential has one entry per grid point. *)
Lemma long_range_potential_length (self : t) (nx : nat) (lattice : Lattice)
    (q : float) (axis : Z) (v_G : list complex) :
  long_range self nx lattice q axis = Return v_G -> length v_G = nx.
Proof.
  unfold long_range, long_range_potential. intros H.
  apply result_bind_return in H as (dg0 & _ & H).
  apply result_bind_return in H as (v0 & _ & H).
  destruct nx as [|n']; [discriminate|]. cbn beta iota zeta in H.
  remember (S n') as nx eqn:E.
  assert (Hlen : length (frequencies nx) = nx).
  { unfold frequencies. rewrite roll_length, length_map, length_seq.
    reflexivity. }
  injection H as <-.
  destruct (Nat.even nx); rewrite ?length_insert; cbn [length];
    rewrite !length_map, tail_length, !length_map, Hlen; lia.
Qed.

Lemma zip_with_sub_nan (a b : list float) :
  Forall (fun x => x = NaN) b ->
  Forall (fun x => x = NaN) (zip_with F.sub a b).
Proof.
  intros Hb. revert a. induction Hb as [|y b -> _ IH]; intros [|x a]; cbn;
    try constructor.
  - apply sub_nan_r.
  - apply IH.
Qed.

Lemma map_all_nan {A} (f : A -> float) (l : list A) :
  (forall x, f x = NaN) -> Forall (fun x => x = NaN) (map f l).
Proof. intros H. induction l; constructor; auto. Qed.

Lemma map_sub_nan (x : float) (b : list float) :
  Forall (fun y => y = NaN) b ->
  Forall (fun y => y = NaN) (map (fun y => x - y)%F b).
Proof.
  induction 1 as [|y b -> _ IH]; constructor; [apply sub_nan_r | exact IH].
Qed.

Lemma np_sub_nan (a b short : list float) :
  Forall (fun x => x = NaN) b ->
  Py.np_sub a b = Return short ->
  Forall (fun x => x = NaN) short.
Proof.
  intros Hb. unfold Py.np_sub.
  destruct (bool_decide _).
  - intros H. injection H as <-. apply zip_with_sub_nan, Hb.
  - destruct b as [|y [|y' b]].
    + destruct a as [|x [|x' a]]; intros H; try discriminate.
      injection H as <-. constructor.
    + apply Forall_cons in Hb as [-> _].
      destruct a as [|x [|x' a]]; intros H; injection H as <-; cbn [map];
        repeat (apply Forall_cons_2; [apply sub_nan_r|]);
        first [apply Forall_nil_2
              | apply map_all_nan; intros z; apply sub_nan_r].
    + destruct a as [|x [|x' a]]; intros H; try discriminate.
      injection H as <-. exact (map_sub_nan x (y :: y' :: b) Hb).
Qed.

Lemma np_sub_same_length (a b : list float) :
  length a = length b -> Py.np_sub a b = Return (zip_with F.sub a b).
Proof. intros H. unfold Py.np_sub. rewrite bool_decide_true; auto. Qed.

Lemma cdiv_real_nan (im c : float) : fst (cdiv_real (NaN, im) c) = NaN.
Proof. unfold cdiv_real. destruct (_ =? _)%F; reflexivity. Qed.

(** When every real part of the transform is [nan], so is the alignment
    constant. *)
Lemma window_alignment_nan (axis_grid pureavg defavg : list float)
    (lattice : Lattice) (widthsample : float) (v_R : list complex)
    (w : window) :
  Forall (fun z => fst z = NaN) v_R ->
  window_of axis_grid pureavg defavg lattice widthsample v_R = Return w ->
  w_C w = NaN.
Proof.
  intros Hnan. unfold window_of, window_alignment. cbn zeta. intros H.
  assert (Hreal : Forall (fun x => x = NaN)
                         (real_space ang_to_bohr hart_to_ev lattice v_R)).
  { unfold real_space. apply Forall_fmap.
    eapply Forall_impl; [exact Hnan|]. intros [re im] Hre. cbn in Hre.
    subst re. unfold compose. rewrite cdiv_real_nan. reflexivity. }
  apply result_bind_return in H as (dft_diff & _ & H).
  apply result_bind_return in H as (short & Hshort & H).
  apply (np_sub_nan _ _ _ Hreal) in Hshort.
  apply result_bind_return in H as (x1 & _ & H).
  apply result_bind_return in H as (x0 & _ & H).
  apply result_bind_return in H as (checkdis & _ & H).
  apply result_bind_return in H as (tmppot & Htmp & H).
  apply result_bind_return in H as (u1 & _ & H).
  apply result_bind_return in H as (u2 & _ & H).
  apply result_bind_return in H as (final_shift & _ & H).
  injection H as <-. cbn [w_C].
  rewrite mean_all_nan; [reflexivity|].
  eapply mapM_elems; [|exact Htmp].
  intros i x Hx. apply list_getitem_elem in Hx.
  rewrite Forall_forall in Hshort. apply Hshort, Hx.
Qed.

(** For a neutral defect on an odd grid, what [perform_pot_corr] returns
    is [nan]. *)
Lemma perform_pot_corr_nan (axis_grid pureavg defavg : list float)
    (lattice : Lattice) (defect_frac_position : value) (axis : Z)
    (widthsample : float) (self self' : t) (r : float) :
  spreads_nan fft ->
  Nat.odd (length axis_grid) = true -> (3 <= length axis_grid)%nat ->
  pot_corr_of axis_grid pureavg defavg lattice (F.of_Z 0)
              defect_frac_position axis widthsample self
  = (Return r, self') ->
  r = NaN.
Proof.
  intros Hfft Hodd Hlen. rewrite perform_pot_corr_phases.
  destruct (shift_to_origin _ _ _ _ _ _) as [ex|[p d]]; [discriminate|].
  destruct (long_range _ _ _ _ _) as [ex|v_G] eqn:Hv; [discriminate|].
  destruct (imaginary_gate self (fft v_G)) as [ex|[]]; [discriminate|].
  intros H. apply sample_alignment_returns in H as (w & Hw & -> & _).
  pose proof (long_range_potential_length _ _ _ _ _ _ Hv) as Hn.
  apply long_range_potential_nan in Hv; [|assumption..].
  apply window_alignment_nan in Hw;
    [|apply Hfft; [rewrite Hn; exact Hodd | exact Hv]].
  rewrite Hw. apply mul_nan_r.
Qed.

Lemma axes_loop_nan (lattice : Lattice) (defect_frac_coords : value)
    (axes : list (list float * list float * list float * Z)) :
  spreads_nan fft ->
  Forall (fun '(x, _, _, _) =>
            Nat.odd (length x) = true /\ (3 <= length x)%nat) axes ->
  forall (acc tracker : list float) (self self' : t),
    foldM (fun pot_corr_tracker '(x, pureavg, defavg, ax) =>
             tmp_pot_corr ← pot_corr_of x pureavg defavg lattice (F.of_Z 0)
                                        defect_frac_coords ax (Fin 1);
             mret (pot_corr_tracker ++ [tmp_pot_corr]))
          acc axes self = (Return tracker, self') ->
    Forall (fun pc => pc = NaN) acc ->
    Forall (fun pc => pc = NaN) tracker.
Proof.
  intros Hfft Hodd.
  induction Hodd as [|[[[x pureavg] defavg] ax] axes [Ho Hl] _ IH];
    intros acc tracker self self' H Hacc.
  - apply mret_inv in H as [-> _]. exact Hacc.
  - rewrite foldM_cons in H.
    apply M_bind_inv in H as (acc' & s1 & Hstep & H).
    apply M_bind_inv in Hstep as (pc & s2 & Hpc & Hstep).
    apply mret_inv in Hstep as [-> ->].
    apply perform_pot_corr_nan in Hpc; [|assumption..]. subst pc.
    eapply IH; [exact H|].
    apply Forall_app. split; [exact Hacc|].
    apply Forall_cons_2; [reflexivity | apply Forall_nil_2].
Qed.

Lemma freysoldt_entry_param_inv (k : key) (s s' : t * DefectEntry) (v : value) :
  entry_param k s = (Return v, s') ->
  Py.dict_getitem (parameters (snd s)) k = Return v /\ s' = s.
Proof.
  unfold entry_param. intros H.
  apply M_bind_inv in H as (x & s1 & Hget & H).
  apply get_inv in Hget as [-> ->]. apply lift_inv in H. exact H.
Qed.

Lemma freysoldt_set_entry_param_inv (k : key) (v : value) (s s' : t * DefectEntry)
    (u : unit) :
  set_entry_param k v s = (Return u, s') ->
  s' = (fst s, set_parameters (fun p => <[ k := v ]> p) (snd s)).
Proof.
  unfold set_entry_param. intros H.
  apply on_snd_inv in H as (x & H & ->).
  apply modify_inv in H as ->. reflexivity.
Qed.

(** What [get_correction] returns. *)
Lemma freysoldt_get_correction_returns (self : t) (e : DefectEntry)
    (c : correction) (s' : t * DefectEntry) :
  correction_of (self, e) = (Return c, s') ->
  exists (structure : Structure) axes (tracker : list float) (self1 : t)
         (defect_frac_coords : value),
    select_axes self (parameters e) = Return axes /\
    Py.dict_getitem (parameters e) "initial_defect_structure"
    = Return (VStructure structure) /\
    es_corr_of self (lattice structure) (F.of_Z (entry_charge e))
               (Fin (1 # 10000))
    = Return (freysoldt_electrostatic c) /\
    axes_loop ang_to_bohr hart_to_ev np_pi fft describe
              (lattice structure) (F.of_Z (entry_charge e))
              defect_frac_coords axes self
    = (Return tracker, self1) /\
    freysoldt_potential_alignment c = F.mean tracker /\
    parameters (snd s') !! KStr "potalign"
    = Some (VNum (if F.truthy (F.of_Z (entry_charge e))
                  then (freysoldt_potential_alignment c
                        / - F.of_Z (entry_charge e))%F
                  else Fin 0)).
Proof.
  unfold correction_of, get_correction. intros H.
  apply M_bind_inv in H as (s0 & s1 & H1 & H).
  apply get_inv in H1 as [-> ->]. cbn [fst snd] in *.
  apply M_bind_inv in H as (axes & s1 & H1 & H).
  apply lift_inv in H1 as [Haxes ->].
  apply M_bind_inv in H as (structure & s1 & H1 & H).
  apply M_bind_inv in H1 as (sv & s2 & Hsv & H1).
  apply freysoldt_entry_param_inv in Hsv as [Hstruct ->].
  apply lift_inv in H1 as [Hs ->].
  destruct sv; try discriminate. injection Hs as ->.
  apply M_bind_inv in H as (dfc & s1 & H1 & H).
  apply freysoldt_entry_param_inv in H1 as [_ ->].
  apply M_bind_inv in H as (es & s1 & H1 & H).
  apply lift_inv in H1 as [Hes ->].
  apply M_bind_inv in H as (tracker & s1 & H1 & H).
  apply on_fst_inv in H1 as (self1 & Hloop & ->). cbn [fst snd] in *.
  apply M_bind_inv in H as (self2 & s1 & H1 & H).
  apply on_fst_inv in H1 as (x & H1 & ->). cbn [fst snd] in *.
  apply get_inv in H1 as [-> ->].
  apply M_bind_inv in H as (u1 & s1 & H1 & H).
  apply freysoldt_set_entry_param_inv in H1 as ->. cbn [fst snd] in *.
  apply M_bind_inv in H as (u2 & s1 & H1 & H).
  apply freysoldt_set_entry_param_inv in H1 as ->. cbn [fst snd] in *.
  apply mret_inv in H as [-> ->].
  exists structure, axes, tracker, self1, dfc.
  cbn [freysoldt_electrostatic freysoldt_potential_alignment snd parameters
       set_parameters].
  split; [exact Haxes|]. split; [exact Hstruct|]. split; [exact Hes|].
  split; [exact Hloop|]. split; [reflexivity|].
  rewrite lookup_insert_eq. reflexivity.
Qed.

(** *** The alignment constant *)

(** The real part of the quotient of a complex number by a real one,
    when the imaginary part is finite. *)
Lemma cdiv_real_fst (re im c : float) :
  F.is_finite im = true -> fst (cdiv_real (re, im) c) ≡ (re / c)%F.
Proof.
  destruct im as [i| | |]; try discriminate. intros _.
  unfold cdiv_real. destruct c as [y| | |].
  - cbn [F.abs F.eqb]. unfold Num.eqb.
    destruct (Qeq_bool (Qabs y) 0) eqn:E; cbn [fst].
    + apply Qeq_bool_iff in E.
      assert (Hy : (y == 0)%Q).
      { assert (Hle : (Qabs y <= 0)%Q) by (rewrite E; apply Qle_refl).
        apply Qabs_Qle_condition in Hle as [Hlo Hhi].
        apply Qle_antisym; [exact Hhi | exact Hlo]. }
      apply div_proper; [reflexivity|]. apply fin_equiv. rewrite E, Hy.
      reflexivity.
    + assert (Hy : ~ (y == 0)%Q).
      { intros Hy. rewrite Hy in E. discriminate E. }
      rewrite (div_zero_l y Hy).
      rewrite (mul_fin_zero i 0) by reflexivity.
      rewrite (mul_fin_zero 0 0) by reflexivity.
      rewrite !add_zero_r by reflexivity.
      apply mul_inv, Hy.
  - destruct re; cbn; try exact I. unfold equiv, float_equiv. cbn. ring.
  - destruct re; cbn; try exact I. unfold equiv, float_equiv. cbn. ring.
  - destruct re; exact I.
Qed.

(** The model potential in real space, as the method computes it, is the
    real part of the transform over the volume, in eV. *)
Lemma real_space_lookup (lattice : Lattice) (v_R : list complex) (i : nat)
    (z : complex) :
  F.is_finite (snd z) = true ->
  v_R !! i = Some z ->
  exists x y,
    real_space ang_to_bohr hart_to_ev lattice v_R !! i = Some x /\
    long_range_real ang_to_bohr hart_to_ev lattice v_R !! i = Some y /\
    x ≡ y.
Proof.
  intros Hfin Hz. unfold real_space, long_range_real.
  rewrite !lookup_map, Hz. cbn [fmap option_fmap option_map].
  eexists _, _. split; [reflexivity|]. split; [reflexivity|].
  destruct z as [re im]. cbn [snd] in Hfin.
  rewrite (cdiv_real_fst re im _ Hfin). reflexivity.
Qed.

(** The residual the method samples at a point of the grid. *)
Lemma short_range_lookup (pureavg defavg : list float) (lattice : Lattice)
    (v_R : list complex) (i : nat) :
  Forall (fun z => F.is_finite (snd z) = true) v_R ->
  length pureavg = length v_R -> length defavg = length v_R ->
  (i < length v_R)%nat ->
  nth i (zip_with F.sub (zip_with F.sub defavg pureavg)
                  (real_space ang_to_bohr hart_to_ev lattice v_R)) NaN
  ≡ residual pureavg defavg
             (long_range_real ang_to_bohr hart_to_ev lattice v_R) i.
Proof.
  intros Hfin Hp Hd Hi.
  destruct (lookup_lt_is_Some_2 v_R i Hi) as [z Hz].
  destruct (lookup_lt_is_Some_2 pureavg i) as [p Hpi]; [lia|].
  destruct (lookup_lt_is_Some_2 defavg i) as [d Hdi]; [lia|].
  assert (Hzf : F.is_finite (snd z) = true).
  { rewrite Forall_lookup in Hfin. exact (Hfin i z Hz). }
  destruct (real_space_lookup lattice v_R i z Hzf Hz) as (x & y & Hx & Hy & E).
  unfold residual. rewrite !nth_lookup, !lookup_zip_with, Hdi, Hpi, Hx, Hy.
  cbn. rewrite E. reflexivity.
Qed.

(** On a well-formed grid [window_alignment] returns, and its constant
    [C] is minus the mean of the residual over the sampling window. *)
Lemma window_alignment_returns (axis_grid pureavg defavg : list float)
    (lattice : Lattice) (widthsample : float) (v_R : list complex)
    (x0 x1 : float) (checkdis : nat) :
  axis_grid !! 0%nat = Some x0 -> axis_grid !! 1%nat = Some x1 ->
  length pureavg = length axis_grid -> length defavg = length axis_grid ->
  length v_R = length axis_grid ->
  Forall (fun z => F.is_finite (snd z) = true) v_R ->
  F.trunc (widthsample / Fin 2 / (x1 - x0)) = Return (Z.of_nat checkdis) ->
  (checkdis <= length axis_grid / 2)%nat ->
  (length axis_grid / 2 + checkdis < length axis_grid)%nat ->
  exists w,
    window_of axis_grid pureavg defavg lattice widthsample v_R = Return w /\
    w_tmppot w <> [] /\
    w_C w ≡ alignment_constant pureavg defavg
              (long_range_real ang_to_bohr hart_to_ev lattice v_R) checkdis.
Proof.
  intros Hx0 Hx1 Hp Hd Hv Hfin Htrunc Hlo Hhi.
  set (n := length axis_grid) in *.
  set (real := real_space ang_to_bohr hart_to_ev lattice v_R).
  set (short := zip_with F.sub (zip_with F.sub defavg pureavg) real).
  assert (Hreal : length real = n).
  { unfold real, real_space. rewrite length_map. exact Hv. }
  assert (Hshort : length short = n).
  { unfold short. rewrite !length_zip_with. lia. }
  set (a := (n / 2 - checkdis)%nat).
  set (len := (2 * checkdis + 1)%nat).
  set (tmppot := map (fun i => nth i short NaN) (seq a len)).
  set (C := (- F.mean tmppot)%F).
  unfold window_of, window_alignment. cbn zeta. fold real.
  rewrite (np_sub_same_length defavg pureavg) by lia.
  cbn [mbind result_bind].
  rewrite (np_sub_same_length _ real) by (rewrite length_zip_with; lia).
  cbn [mbind result_bind]. fold short.
  rewrite (list_getitem_of_nat axis_grid 1 x1 Hx1
           : Py.list_getitem axis_grid 1%Z = Return x1).
  rewrite (list_getitem_of_nat axis_grid 0 x0 Hx0
           : Py.list_getitem axis_grid 0%Z = Return x0).
  cbn [mbind result_bind]. rewrite Htrunc. cbn [mbind result_bind].
  rewrite Hshort.
  rewrite (range_of_nat a len (Z.of_nat (n / 2) - Z.of_nat checkdis)%Z)
    by (unfold a, len; lia).
  rewrite (mapM_getitem_window short a len NaN)
    by (rewrite Hshort; unfold a, len; lia).
  cbn [mbind result_bind]. fold tmppot.
  destruct (lookup_lt_is_Some_2 axis_grid a) as [ya Hya];
    [fold n; unfold a; lia|].
  destruct (lookup_lt_is_Some_2 axis_grid (n / 2 + checkdis)) as [yb Hyb];
    [fold n; lia|].
  replace (Z.of_nat (n / 2) - Z.of_nat checkdis)%Z with (Z.of_nat a)
    by (unfold a; lia).
  replace (Z.of_nat (n / 2) + Z.of_nat checkdis)%Z
    with (Z.of_nat (n / 2 + checkdis)) by lia.
  rewrite (list_getitem_of_nat axis_grid _ ya Hya).
  rewrite (list_getitem_of_nat axis_grid _ yb Hyb).
  cbn [mbind result_bind]. fold C.
  rewrite (range_of_nat 0 (length real) 0%Z) by lia.
  rewrite (mapM_return _ (fun j => (nth (Z.to_nat j) short NaN + C)%F)).
  - cbn [mbind result_bind]. eexists. split; [reflexivity|].
    cbn [w_tmppot w_C]. split.
    + unfold tmppot, len. rewrite Nat.add_1_r. discriminate.
    + unfold C, alignment_constant, sampling_window.
      apply neg_proper, mean_proper.
      unfold long_range_real at 2. rewrite length_map, Hv. fold n a len.
      unfold tmppot. apply Forall2_fmap, Forall_Forall2_diag, Forall_forall.
      intros i Hi. apply elem_of_seq in Hi.
      apply short_range_lookup; [exact Hfin|lia..].
  - intros z Hz.
    change (map Z.of_nat (seq 0 (length real)))
      with (Z.of_nat <$> seq 0 (length real)) in Hz.
    apply list_elem_of_fmap in Hz as (i & -> & Hi).
    apply elem_of_seq in Hi. rewrite Nat2Z.id.
    rewrite (list_getitem_of_nat short i (nth i short NaN)).
    + reflexivity.
    + apply nth_lookup_Some. lia.
Qed.

(** Once [window_alignment] has returned, [sample_alignment] returns
    [-q * C] when the metadata holds its two dictionaries and [describe]
    accepts the sample. *)
Lemma sample_alignment_runs (axis_grid pureavg defavg : list float)
    (lattice : Lattice) (q : float) (axis : Z) (widthsample : float)
    (v_R : list complex) (self : t) (w : window) (d1 d2 : Py.dict)
    (stats : Scipy.DescribeResult) :
  window_of axis_grid pureavg defavg lattice widthsample v_R = Return w ->
  metadata self !! KStr "pot_plot_data" = Some (VDict d1) ->
  metadata self !! KStr "pot_corr_uncertainty_md" = Some (VDict d2) ->
  describe (w_tmppot w) = Return stats ->
  exists self',
    sample axis_grid pureavg defavg lattice q axis widthsample v_R self
    = (Return (- q * w_C w)%F, self').
Proof.
  intros Hw H1 H2 Hd.
  unfold sample, sample_alignment, set_meta2, modify, lift, get.
  unfold mbind, M_bind, mret, M_ret. cbn beta iota.
  fold window_of. rewrite Hw. cbn beta iota.
  unfold Py.dict_getitem. cbn [metadata set_pot_corr].
  rewrite H1. cbn [result_bind Py.as_dict]. cbn beta iota.
  rewrite Hd. cbn beta iota. cbn [metadata set_metadata].
  rewrite lookup_insert_ne by discriminate. cbn [metadata set_pot_corr].
  rewrite H2.
  cbn [result_bind Py.as_dict]. cbn beta iota.
  eexists. reflexivity.
Qed.

(** *** The electrostatic term *)

(** What the loop of [converge] returns is the value of the function at
    the cutoff where it stops. *)
Lemma converge_loop_value (fuel : nat) (f : Q -> result float)
    (step : Q) (tol : float) (max_h : Q) :
  forall g h v h',
    Utils.converge_loop fuel f step tol max_h g h = Return (v, h') ->
    f h' = Return v.
Proof.
  induction fuel as [|fuel IH]; intros g h v h' H; [discriminate|].
  cbn [Utils.converge_loop] in H.
  apply result_bind_return in H as (g2 & Hg2 & H).
  destruct (max_h <? h + step)%Q; [discriminate|].
  destruct (F.abs (g - g2) <? tol)%F.
  - injection H as <- <-. exact Hg2.
  - eapply IH, H.
Qed.

Lemma converge_value (f : Q -> result float) (step : Q) (tol : float)
    (max_h : Q) (v : float) :
  Utils.converge f step tol max_h = Return v ->
  exists h, Utils.stopping_cutoff f step tol max_h = Return h /\
            f h = Return v.
Proof.
  unfold Utils.converge, Utils.stopping_cutoff. intros H.
  apply result_bind_return in H as ([v' h] & Hrun & H).
  injection H as <-. rewrite Hrun. exists h. split; [reflexivity|].
  unfold Utils.converge_run in Hrun.
  apply result_bind_return in Hrun as (g & _ & Hrun).
  eapply converge_loop_value, Hrun.
Qed.

(** The isolated and the periodic energy of charge [x] are [x^2] times
    those of charge 1 at the same cutoff. *)
Lemma e_iso_scales (self : t) (x : Q) (step : float) (encut : Q)
    (i_x i_1 : float) :
  e_iso eV_to_k np_pi quad self (Fin x) step encut = Return i_x ->
  e_iso eV_to_k np_pi quad self (Fin 1) step encut = Return i_1 ->
  i_x ≡ (Fin (x * x) * i_1)%F.
Proof.
  unfold e_iso. intros Hx H1.
  apply Return_inj in Hx. apply Return_inj in H1. subst i_x i_1.
  change (Fin x * Fin x)%F with (Fin (x * x)).
  change (Fin 1 * Fin 1)%F with (Fin (1 * 1)).
  rewrite (mul_div_fin (x * x)).
  apply div_proper; [|reflexivity].
  apply scale_product. ring.
Qed.

Lemma e_per_scales (self : t) (x : Q) (a1 a2 a3 : vec) (vol : float)
    (encut : Q) (p_x p_1 : float) :
  e_per generate_reciprocal_vectors_squared np_pi self (Fin x) a1 a2 a3 vol
        encut = Return p_x ->
  e_per generate_reciprocal_vectors_squared np_pi self (Fin 1) a1 a2 a3 vol
        encut = Return p_1 ->
  p_x ≡ (Fin (x * x) * p_1)%F.
Proof.
  unfold e_per. intros Hx H1.
  apply Return_inj in Hx. apply Return_inj in H1. subst p_x p_1.
  set (S := fold_left _ _ _).
  set (c := Num.round6 np_pi).
  change (Fin x * Fin x * Fin 2 * Fin c)%F with (Fin (x * x * 2 * c)).
  change (Fin 1 * Fin 1 * Fin 2 * Fin c)%F with (Fin (1 * 1 * 2 * c)).
  change (Fin x * Fin x * Fin 4 * Fin c)%F with (Fin (x * x * 4 * c)).
  change (Fin 1 * Fin 1 * Fin 4 * Fin c)%F with (Fin (1 * 1 * 4 * c)).
  rewrite (mul_add_fin (x * x)). apply add_proper.
  - rewrite (mul_assoc (Fin (x * x)) S), (mul_comm (Fin (x * x)) S).
    rewrite <- (mul_assoc S). apply mul_proper; [reflexivity|].
    rewrite (mul_div_fin (x * x)). apply div_proper; [|reflexivity].
    apply fin_equiv. ring.
  - rewrite (mul_div_fin (x * x)). apply div_proper; [|reflexivity].
    rewrite (mul_assoc (Fin (x * x))). apply mul_proper; [|reflexivity].
    apply fin_equiv. ring.
Qed.

(** The electrostatic correction of charge [x] is [x^2] times the
    difference of the unit-charge energies, each taken at the cutoff where
    its convergence loop stopped for charge [x], over the dielectric
    constant, in eV and rounded to six decimals. *)
Lemma perform_es_corr_form (self : t) (lattice : Lattice) (x : Q)
    (step r : float) (a1 a2 a3 : vec) (i p : float) (h1 h2 : Q) :
  mscale ang_to_bohr (matrix lattice) = (a1, a2, a3) ->
  es_corr_of self lattice (Fin x) step = Return r ->
  Utils.stopping_cutoff (e_iso eV_to_k np_pi quad self (Fin x) step)
                        5 (madetol self) (energy_cutoff self) = Return h1 ->
  Utils.stopping_cutoff
    (e_per generate_reciprocal_vectors_squared np_pi self (Fin x) a1 a2 a3
           (dot a1 (cross a2 a3)))
    5 (madetol self) (energy_cutoff self) = Return h2 ->
  e_iso eV_to_k np_pi quad self (Fin 1) step h1 = Return i ->
  e_per generate_reciprocal_vectors_squared np_pi self (Fin 1) a1 a2 a3
        (dot a1 (cross a2 a3)) h2 = Return p ->
  r ≡ F.round6 (Fin (x * x) * (i - p) / dielectric self * Fin hart_to_ev)%F.
Proof.
  intros Ha H Hh1 Hh2 Hi Hp.
  unfold es_corr_of, perform_es_corr in H. rewrite Ha in H.
  apply result_bind_return in H as (eiso & Hiso & H).
  apply result_bind_return in H as (eper & Hper & H).
  injection H as <-.
  apply converge_value in Hiso as (h1' & Hh1' & Hiso).
  apply converge_value in Hper as (h2' & Hh2' & Hper).
  rewrite Hh1 in Hh1'. injection Hh1' as <-.
  rewrite Hh2 in Hh2'. injection Hh2' as <-.
  rewrite (e_iso_scales _ _ _ _ _ _ Hiso Hi).
  rewrite (e_per_scales _ _ _ _ _ _ _ _ _ Hper Hp).
  rewrite <- mul_sub_fin. reflexivity.
Qed.

(** The cutoffs and the unit-charge energies of the lemma above exist
    whenever [perform_es_corr] returns. *)
Lemma perform_es_corr_cutoffs (self : t) (lattice : Lattice) (x : Q)
    (step r : float) (a1 a2 a3 : vec) :
  mscale ang_to_bohr (matrix lattice) = (a1, a2, a3) ->
  es_corr_of self lattice (Fin x) step = Return r ->
  exists h1 h2 i p,
    Utils.stopping_cutoff (e_iso eV_to_k np_pi quad self (Fin x) step)
                          5 (madetol self) (energy_cutoff self)
    = Return h1 /\
    Utils.stopping_cutoff
      (e_per generate_reciprocal_vectors_squared np_pi self (Fin x) a1 a2 a3
             (dot a1 (cross a2 a3)))
      5 (madetol self) (energy_cutoff self) = Return h2 /\
    e_iso eV_to_k np_pi quad self (Fin 1) step h1 = Return i /\
    e_per generate_reciprocal_vectors_squared np_pi self (Fin 1) a1 a2 a3
          (dot a1 (cross a2 a3)) h2 = Return p.
Proof.
  intros Ha H.
  unfold es_corr_of, perform_es_corr in H. rewrite Ha in H.
  apply result_bind_return in H as (eiso & Hiso & H).
  apply result_bind_return in H as (eper & Hper & H).
  apply converge_value in Hiso as (h1 & Hh1 & _).
  apply converge_value in Hper as (h2 & Hh2 & _).
  exists h1, h2. eexists _, _.
  split; [exact Hh1|]. split; [exact Hh2|]. split; reflexivity.
Qed.

(** *** The check on the imaginary part, in [perform_pot_corr] *)

(** When every imaginary component is within a finite tolerance and the
    grid is well formed, [perform_pot_corr] returns [-q * C], with [C] the
    alignment constant of the rolled planar averages and of the real part
    of the transform. *)
Lemma perform_pot_corr_value (axis_grid pureavg defavg : list float)
    (lattice : Lattice) (q : float) (defect_frac_position : value) (axis : Z)
    (widthsample : float) (self : t) (pureavg' defavg' : list float)
    (v_G : list complex) (x0 x1 : float) (checkdis : nat) (d1 d2 : Py.dict) :
  shift_to_origin axis_grid pureavg defavg lattice defect_frac_position axis
  = Return (pureavg', defavg') ->
  long_range self (length axis_grid) lattice q axis = Return v_G ->
  Forall (fun z => (F.abs (snd z) <=? madetol self)%F = true) (fft v_G) ->
  F.is_finite (madetol self) = true ->
  axis_grid !! 0%nat = Some x0 -> axis_grid !! 1%nat = Some x1 ->
  length pureavg' = length axis_grid ->
  length defavg' = length axis_grid ->
  length (fft v_G) = length axis_grid ->
  F.trunc (widthsample / Fin 2 / (x1 - x0)) = Return (Z.of_nat checkdis) ->
  (checkdis <= length axis_grid / 2)%nat ->
  (length axis_grid / 2 + checkdis < length axis_grid)%nat ->
  metadata self !! KStr "pot_plot_data" = Some (VDict d1) ->
  metadata self !! KStr "pot_corr_uncertainty_md" = Some (VDict d2) ->
  (forall l, l <> [] -> exists stats, describe l = Return stats) ->
  exists (r : float) (self' : t),
    pot_corr_of axis_grid pureavg defavg lattice q defect_frac_position axis
                widthsample self
    = (Return r, self') /\
    r ≡ (- q * alignment_constant
                 pureavg' defavg'
                 (long_range_real ang_to_bohr hart_to_ev lattice (fft v_G))
                 checkdis)%F.
Proof.
  intros Hshift Hv_G Hall Htol Hx0 Hx1 Hp Hd Hv Htrunc Hlo Hhi
         Hm1 Hm2 Hdescribe.
  rewrite perform_pot_corr_phases, Hshift, Hv_G.
  assert (Hne : fft v_G <> []).
  { intros E. rewrite E in Hv. cbn in Hv.
    apply lookup_lt_Some in Hx0. lia. }
  rewrite (imaginary_gate_passes _ _ Hne Hall).
  assert (Hfin : Forall (fun z => F.is_finite (snd z) = true) (fft v_G)).
  { eapply Forall_impl; [exact Hall|]. intros [re im]. cbn [snd].
    destruct (madetol self); try discriminate Htol.
    destruct im; cbn; congruence. }
  destruct (window_alignment_returns axis_grid pureavg' defavg' lattice
              widthsample (fft v_G) x0 x1 checkdis
              Hx0 Hx1 Hp Hd Hv Hfin Htrunc Hlo Hhi)
    as (w & Hw & Htmp & HC).
  destruct (Hdescribe _ Htmp) as [stats Hstats].
  destruct (sample_alignment_runs axis_grid pureavg' defavg' lattice q axis
              widthsample (fft v_G) self w d1 d2 stats Hw Hm1 Hm2 Hstats)
    as [self' Hrun].
  exists (- q * w_C w)%F, self'. split; [exact Hrun|].
  rewrite HC. reflexivity.
Qed.


End Methods.


End FreysoldtTheorems.


(** ** The charge in the two charge corrections *)

(** The transform used in the examples spreads a [nan]. *)
Module StandinsFacts.
Import FloatFacts.

Lemma imap_exists {A B} (P : A -> Prop) (R : B -> Prop) (l : list A) :
  forall f : nat -> A -> B,
    (forall j x, P x -> R (f j x)) -> Exists P l -> Exists R (imap f l).
Proof.
  induction l as [|x l IH]; intros f Hf H; [inversion H|].
  cbn [imap]. apply Exists_cons in H as [H|H].
  - apply Exists_cons_hd, Hf, H.
  - apply Exists_cons_tl, IH; [|exact H]. intros j y. apply Hf.
Qed.

Lemma cadd_sum_nan (l : list (float * float)) (init : float * float) :
  Exists (fun z => fst z = NaN) l ->
  fst (foldr Standins.cadd init l) = NaN.
Proof.
  induction l as [|x l IH]; intros H; [inversion H|].
  cbn [foldr]. unfold Standins.cadd at 1. cbn [fst].
  apply Exists_cons in H as [H|H].
  - rewrite H. reflexivity.
  - rewrite (IH H). apply add_nan_r.
Qed.

Lemma fft_spreads_nan : FreysoldtCorrection.spreads_nan Standins.fft.
Proof.
  intros v _ H. unfold Standins.fft. apply Forall_forall. intros z Hz.
  change (map ?f ?l) with (f <$> l) in Hz.
  apply list_elem_of_fmap in Hz as (k & -> & _).
  apply cadd_sum_nan.
  eapply imap_exists; [|exact H].
  intros j [re im] Hre. cbn [fst] in Hre. subst re.
  destruct (_ =? _)%nat; [reflexivity|].
  unfold Standins.cmul. cbn [fst snd].
  destruct (Standins.twiddle (j * k) (length v)) as [c s].
  cbn [fst snd]. reflexivity.
Qed.

End StandinsFacts.

Module ChargeTheorems.
Import Crystal FloatFacts.

(** C1.  A defect entry of charge 0 whose planar averages are given on
    grids with an odd number of points does not get a Freysoldt
    potential-alignment energy of 0: whenever [get_correction] returns,
    that energy is [nan].  With an odd number of points the last
    frequency of line 241 is 0; numpy divides by it without raising, the
    entry of [v_G] there is [inf * 0 = nan] for charge 0, its transform is
    [nan], the check of line 249 is silent on [nan], and line 263 takes the
    mean of [nan].  The ['potalign'] parameter is nevertheless set to 0,
    since line 133 tests the charge. *)
Theorem neutral_defect_on_odd_grid
    (ang_to_bohr hart_to_ev : Q) (eV_to_k : Q -> float)
    (generate_reciprocal_vectors_squared : vec -> vec -> vec -> Q -> list float)
    (np_pi : Q) (quad : (float -> float) -> float -> float -> float)
    (fft : list (float * float) -> list (float * float))
    (describe : list float -> result Scipy.DescribeResult)
    (self : FreysoldtCorrection.t) (e : DefectEntry)
    (axes : list (list float * list float * list float * Z))
    (c : FreysoldtCorrection.correction)
    (s' : FreysoldtCorrection.t * DefectEntry) :
  entry_charge e = 0%Z ->
  FreysoldtCorrection.spreads_nan fft ->
  FreysoldtCorrection.select_axes self (parameters e) = Return axes ->
  Forall (fun '(x, _, _, _) =>
            Nat.odd (length x) = true /\ (3 <= length x)%nat) axes ->
  FreysoldtCorrection.get_correction
    ang_to_bohr hart_to_ev eV_to_k generate_reciprocal_vectors_squared
    np_pi quad fft describe (self, e) = (Return c, s') ->
  FreysoldtCorrection.freysoldt_potential_alignment c = NaN /\
  ~ FreysoldtCorrection.freysoldt_potential_alignment c ≡ Fin 0 /\
  parameters (snd s') !! KStr "potalign" = Some (VNum (Fin 0)).
Proof.
  intros Hq Hfft Haxes Hodd H.
  apply FreysoldtTheorems.freysoldt_get_correction_returns in H
    as (structure & axes' & tracker & self1 & dfc
        & Haxes' & _ & _ & Hloop & Hpot & Hparam).
  rewrite Haxes in Haxes'. injection Haxes' as <-.
  rewrite Hq in Hloop, Hparam.
  assert (Hnan : FreysoldtCorrection.freysoldt_potential_alignment c = NaN).
  { rewrite Hpot. apply mean_all_nan.
    eapply (FreysoldtTheorems.axes_loop_nan
              ang_to_bohr hart_to_ev np_pi fft describe
              (lattice structure) dfc axes Hfft Hodd [] tracker self self1);
      [exact Hloop | constructor]. }
  split; [exact Hnan|]. split.
  - rewrite Hnan. intros Habs. exact Habs.
  - exact Hparam.
Qed.

(** C1 on a neutral vacancy in a cubic cell of side 10 whose planar
    averages are sampled on three grid points per axis: [get_correction]
    returns, with [nan] for the potential-alignment energy. *)
Lemma neutral_defect_on_odd_grid_witness :
  exists c s',
    FreysoldtExample.run_odd FreysoldtExample.default_model 0
    = (Return c, s') /\
    FreysoldtCorrection.freysoldt_potential_alignment c = NaN /\
    ~ FreysoldtCorrection.freysoldt_potential_alignment c ≡ Fin 0 /\
    parameters (snd s') !! KStr "potalign" = Some (VNum (Fin 0)).
Proof.
  assert (Hret : succeeds
                   (fst (FreysoldtExample.run_odd
                           FreysoldtExample.default_model 0)) = true)
    by (vm_compute; reflexivity).
  revert Hret.
  destruct (FreysoldtExample.run_odd FreysoldtExample.default_model 0)
    as [[ex|c] s'] eqn:E; intros Hret; [discriminate Hret|].
  exists c, s'. split; [reflexivity|].
  apply (neutral_defect_on_odd_grid
           Standins.ang_to_bohr Standins.hart_to_ev Standins.eV_to_k
           Standins.generate_reciprocal_vectors_squared Standins.np_pi
           Standins.quad Standins.fft Standins.describe
           (FreysoldtExample.self FreysoldtExample.default_model 10)
           (FreysoldtExample.odd_entry 10 0)
           [(FreysoldtExample.odd_grid, FreysoldtExample.odd_bulk_avg,
             FreysoldtExample.odd_defect_avg, 0%Z);
            (FreysoldtExample.odd_grid, FreysoldtExample.odd_bulk_avg,
             FreysoldtExample.odd_defect_avg, 1%Z);
            (FreysoldtExample.odd_grid, FreysoldtExample.odd_bulk_avg,
             FreysoldtExample.odd_defect_avg, 2%Z)]
           c s').
  - reflexivity.
  - exact StandinsFacts.fft_spreads_nan.
  - vm_compute. reflexivity.
  - repeat constructor.
  - exact E.
Defined.

(** Neither law of C6 holds for the Freysoldt correction.  The
    electrostatic term is rounded to six decimals: in a cubic cell of side
    100 with dielectric constant 250 and a model charge that vanishes away
    from [g = 0], charge 1 gives [0.000000] and charge 2 gives
    [0.000002].  The potential-alignment term is [-q * C] where [C] itself
    holds the model potential of charge [q]: on the same planar averages,
    charges 1 and -1 give corrections that are not opposite. *)
Lemma freysoldt_charge_laws_fail :
  (exists a b,
      FreysoldtExample.es_corr FreysoldtExample.point_model 250 100 2
      = Return a /\
      FreysoldtExample.es_corr FreysoldtExample.point_model 250 100 1
      = Return b /\
      ~ a ≡ (Fin (2 * 2) * b)%F) /\
  (exists r r' s s',
      FreysoldtExample.run_pot_corr 1 = (Return r, s) /\
      FreysoldtExample.run_pot_corr (- (1)) = (Return r', s') /\
      ~ r' ≡ (- r)%F).
Proof.
  split.
  - exists (Fin (inject_Z 2 / 1000000)), (Fin (inject_Z 0 / 1000000)).
    split; [vm_compute; reflexivity|].
    split; [vm_compute; reflexivity|].
    vm_compute. intros H. discriminate H.
  - assert (H : match fst (FreysoldtExample.run_pot_corr 1),
                       fst (FreysoldtExample.run_pot_corr (- (1))) with
                 | Return r, Return r' =>
                     negb (F.is_nan r') && negb (r' =? - r)%F
                 | _, _ => false
                 end = true)
      by (vm_compute; reflexivity).
    revert H.
    destruct (FreysoldtExample.run_pot_corr 1) as [[ex|r] s] eqn:E1;
      destruct (FreysoldtExample.run_pot_corr (- (1)))
        as [[ex'|r'] s'] eqn:E2;
      cbn [fst]; intros H; try discriminate H.
    exists r, r', s, s'. split; [reflexivity|]. split; [reflexivity|].
    apply andb_true_iff in H as [Hn Hne].
    apply negb_true_iff in Hn. apply negb_true_iff in Hne.
    intros Heq. rewrite (eqb_of_equiv _ _ Heq Hn) in Hne. discriminate Hne.
Qed.

(** C6 (as amended).  The Kumagai electrostatic correction for charge [q]
    is [q^2] times the one for charge 1.  The Freysoldt electrostatic
    correction for charge [q] is [q^2] times the difference of the
    unit-charge isolated and periodic energies, each taken at the cutoff
    where its convergence loop stops for charge [q], over the dielectric
    constant, in eV and rounded to six decimals.  The Freysoldt
    potential-alignment correction for charge [q] is [-q * C], where [C]
    is minus the mean, over the sampling window, of the difference of the
    planar averages less the long-range model potential of charge [q]. *)
Theorem charge_scaling_of_corrections :
  (forall (kumagai_to_V : Q) (tune_for_gamma : Lattice -> matrix3 -> float)
          (generate_R_and_G_vecs :
             float -> list Z -> Lattice -> matrix3 ->
             list (list vec) * list float * list (list vec) * list float)
          (np_pi : Q) (np_sqrt np_exp np_cos erfc : float -> float)
          (describe : list float -> result Scipy.DescribeResult)
          (distance_and_image_from_frac_coords : Site -> vec -> float * vec)
          (structure_index : Structure -> Site -> result nat)
          (self : KumagaiCorrection.t) (e1 eq : DefectEntry)
          (c1 cq : KumagaiCorrection.correction)
          (s1 sq : KumagaiCorrection.t * DefectEntry),
      parameters eq = parameters e1 ->
      entry_charge e1 = 1%Z ->
      KumagaiCorrection.get_correction
        kumagai_to_V tune_for_gamma generate_R_and_G_vecs np_pi np_sqrt
        np_exp np_cos erfc describe distance_and_image_from_frac_coords
        structure_index (self, e1) = (Return c1, s1) ->
      KumagaiCorrection.get_correction
        kumagai_to_V tune_for_gamma generate_R_and_G_vecs np_pi np_sqrt
        np_exp np_cos erfc describe distance_and_image_from_frac_coords
        structure_index (self, eq) = (Return cq, sq) ->
      KumagaiCorrection.kumagai_electrostatic cq
      ≡ (F.of_Z (entry_charge eq) * F.of_Z (entry_charge eq)
         * KumagaiCorrection.kumagai_electrostatic c1)%F) /\
  (forall (ang_to_bohr hart_to_ev : Q) (eV_to_k : Q -> float)
          (generate_reciprocal_vectors_squared :
             vec -> vec -> vec -> Q -> list float)
          (np_pi : Q) (quad : (float -> float) -> float -> float -> float)
          (self : FreysoldtCorrection.t) (lattice : Lattice) (q : Q)
          (step r : float) (a1 a2 a3 : vec),
      mscale ang_to_bohr (matrix lattice) = (a1, a2, a3) ->
      FreysoldtCorrection.perform_es_corr
        ang_to_bohr hart_to_ev eV_to_k generate_reciprocal_vectors_squared
        np_pi quad self lattice (Fin q) step = Return r ->
      exists (h1 h2 : Q) (i p : float),
        Utils.stopping_cutoff
          (FreysoldtCorrection.e_iso eV_to_k np_pi quad self (Fin q) step)
          5 (FreysoldtCorrection.madetol self)
          (FreysoldtCorrection.energy_cutoff self) = Return h1 /\
        Utils.stopping_cutoff
          (FreysoldtCorrection.e_per generate_reciprocal_vectors_squared
             np_pi self (Fin q) a1 a2 a3 (dot a1 (cross a2 a3)))
          5 (FreysoldtCorrection.madetol self)
          (FreysoldtCorrection.energy_cutoff self) = Return h2 /\
        FreysoldtCorrection.e_iso eV_to_k np_pi quad self (Fin 1) step h1
        = Return i /\
        FreysoldtCorrection.e_per generate_reciprocal_vectors_squared np_pi
          self (Fin 1) a1 a2 a3 (dot a1 (cross a2 a3)) h2 = Return p /\
        r ≡ F.round6 (Fin (q * q) * (i - p)
                      / FreysoldtCorrection.dielectric self
                      * Fin hart_to_ev)%F) /\
  (forall (ang_to_bohr hart_to_ev np_pi : Q)
          (fft : list (float * float) -> list (float * float))
          (describe : list float -> result Scipy.DescribeResult)
          (axis_grid pureavg defavg : list float) (lattice : Lattice)
          (q : float) (defect_frac_position : value) (axis : Z)
          (widthsample : float) (self : FreysoldtCorrection.t)
          (pureavg' defavg' : list float) (v_G : list (float * float))
          (x0 x1 : float) (checkdis : nat) (d1 d2 : Py.dict),
      FreysoldtCorrection.shift_to_origin
        axis_grid pureavg defavg lattice defect_frac_position axis
      = Return (pureavg', defavg') ->
      FreysoldtCorrection.long_range_potential
        ang_to_bohr np_pi self (length axis_grid) lattice q axis
      = Return v_G ->
      Forall (fun z => (F.abs (snd z) <=? FreysoldtCorrection.madetol self)%F
                       = true) (fft v_G) ->
      F.is_finite (FreysoldtCorrection.madetol self) = true ->
      axis_grid !! 0%nat = Some x0 -> axis_grid !! 1%nat = Some x1 ->
      length pureavg' = length axis_grid ->
      length defavg' = length axis_grid ->
      length (fft v_G) = length axis_grid ->
      F.trunc (widthsample / Fin 2 / (x1 - x0)) = Return (Z.of_nat checkdis) ->
      (checkdis <= length axis_grid / 2)%nat ->
      (length axis_grid / 2 + checkdis < length axis_grid)%nat ->
      FreysoldtCorrection.metadata self !! KStr "pot_plot_data"
      = Some (VDict d1) ->
      FreysoldtCorrection.metadata self !! KStr "pot_corr_uncertainty_md"
      = Some (VDict d2) ->
      (forall l, l <> [] -> exists stats, describe l = Return stats) ->
      exists (r : float) (self' : FreysoldtCorrection.t),
        FreysoldtCorrection.perform_pot_corr
          ang_to_bohr hart_to_ev np_pi fft describe
          axis_grid pureavg defavg lattice q defect_frac_position axis
          widthsample self = (Return r, self') /\
        r ≡ (- q * FreysoldtCorrection.alignment_constant
                     pureavg' defavg'
                     (FreysoldtCorrection.long_range_real
                        ang_to_bohr hart_to_ev lattice (fft v_G))
                     checkdis)%F).
Proof.
  split; [|split].
  - intros. eapply KumagaiTheorems.kumagai_electrostatic_scales; eassumption.
  - intros until a3. intros Ha H.
    destruct (FreysoldtTheorems.perform_es_corr_cutoffs
                _ _ _ _ _ _ _ _ _ _ _ _ _ _ Ha H)
      as (h1 & h2 & i & p & Hh1 & Hh2 & Hi & Hp).
    exists h1, h2, i, p.
    split; [exact Hh1|]. split; [exact Hh2|].
    split; [exact Hi|]. split; [exact Hp|].
    eapply FreysoldtTheorems.perform_es_corr_form; eassumption.
  - intros. eapply FreysoldtTheorems.perform_pot_corr_value; eassumption.
Qed.

(** C6 on the examples: the Kumagai correction of charges 1 and 3, the
    Freysoldt electrostatic correction of charge 2 in the cell of the
    counterexample, and the Freysoldt potential alignment of charge -1. *)
Lemma charge_scaling_of_corrections_witness :
  (exists c1 c3 s1 s3,
      KumagaiExample.run KumagaiExample.generate_converged 1
      = (Return c1, s1) /\
      KumagaiExample.run KumagaiExample.generate_converged 3
      = (Return c3, s3) /\
      KumagaiCorrection.kumagai_electrostatic c3
      ≡ (F.of_Z 3 * F.of_Z 3 * KumagaiCorrection.kumagai_electrostatic c1)%F) /\
  (exists (h1 h2 : Q) (i p : float),
      Utils.stopping_cutoff
        (FreysoldtCorrection.e_iso Standins.eV_to_k Standins.np_pi
           Standins.quad
           (FreysoldtExample.self FreysoldtExample.point_model 250)
           (Fin 2) (Fin (1 # 10000)))
        5 (Fin (1 # 10000)) 520 = Return h1 /\
      Fin (inject_Z 2 / 1000000)
      ≡ F.round6 (Fin (2 * 2) * (i - p) / Fin 250
                  * Fin Standins.hart_to_ev)%F /\
      FreysoldtCorrection.e_iso Standins.eV_to_k Standins.np_pi Standins.quad
        (FreysoldtExample.self FreysoldtExample.point_model 250)
        (Fin 1) (Fin (1 # 10000)) h1 = Return i) /\
  (exists (r : float) (self' : FreysoldtCorrection.t),
      FreysoldtExample.run_pot_corr (- (1)) = (Return r, self') /\
      r ≡ (- Fin (- (1))
           * FreysoldtCorrection.alignment_constant
               FreysoldtExample.bulk_avg FreysoldtExample.defect_avg
               (FreysoldtCorrection.long_range_real
                  Standins.ang_to_bohr Standins.hart_to_ev
                  (FreysoldtExample.cubic 10)
                  (Standins.fft (FreysoldtExample.v_G (- (1)))))
               0)%F).
Proof.
  split; [|split].
  - assert (H1 : succeeds
                    (fst (KumagaiExample.run
                            KumagaiExample.generate_converged 1)) = true)
      by (vm_compute; reflexivity).
    assert (H3 : succeeds
                    (fst (KumagaiExample.run
                            KumagaiExample.generate_converged 3)) = true)
      by (vm_compute; reflexivity).
    revert H1 H3.
    destruct (KumagaiExample.run KumagaiExample.generate_converged 1)
      as [[ex|c1] s1] eqn:E1; intros H1; [discriminate H1|].
    destruct (KumagaiExample.run KumagaiExample.generate_converged 3)
      as [[ex|c3] s3] eqn:E3; intros H3; [discriminate H3|].
    exists c1, c3, s1, s3. split; [reflexivity|]. split; [reflexivity|].
    exact (proj1 charge_scaling_of_corrections
             _ _ _ _ _ _ _ _ _ _ _ _
             (KumagaiExample.entry 1) (KumagaiExample.entry 3)
             _ _ _ _ eq_refl eq_refl E1 E3).
  - destruct (proj1 (proj2 charge_scaling_of_corrections)
                Standins.ang_to_bohr Standins.hart_to_ev Standins.eV_to_k
                Standins.generate_reciprocal_vectors_squared Standins.np_pi
                Standins.quad
                (FreysoldtExample.self FreysoldtExample.point_model 250)
                (FreysoldtExample.cubic 100) 2%Q (Fin (1 # 10000))
                (Fin (inject_Z 2 / 1000000))
                _ _ _ eq_refl)
      as (h1 & h2 & i & p & Hh1 & _ & Hi & _ & Hr).
    + vm_compute. reflexivity.
    + exists h1, h2, i, p. split; [exact Hh1|]. split; [exact Hr|exact Hi].
  - refine (proj2 (proj2 charge_scaling_of_corrections)
              Standins.ang_to_bohr Standins.hart_to_ev Standins.np_pi
              Standins.fft Standins.describe
              FreysoldtExample.grid FreysoldtExample.bulk_avg
              FreysoldtExample.defect_avg
              (FreysoldtExample.cubic 10) (Fin (- (1)))
              FreysoldtExample.origin 0%Z (Fin 1)
              (FreysoldtExample.self FreysoldtExample.default_model 10)
              FreysoldtExample.bulk_avg FreysoldtExample.defect_avg
              (FreysoldtExample.v_G (- (1)))
              (Fin 0) (Fin (5 # 2)) 0%nat ∅ ∅
              _ _ _ _ _ _ _ _ _ _ _ _ _ _ _).
    + vm_compute. reflexivity.
    + vm_compute. reflexivity.
    + apply Forall_forall. intros z Hz.
      apply list_elem_of_lookup in Hz as [j Hj].
      destruct j as [|[|[|[|j]]]]; vm_compute in Hj;
        first [discriminate Hj | injection Hj as <-; vm_compute; reflexivity].
    + reflexivity.
    + reflexivity.
    + reflexivity.
    + reflexivity.
    + reflexivity.
    + vm_compute. reflexivity.
    + vm_compute. reflexivity.
    + cbn. lia.
    + cbn. lia.
    + vm_compute. reflexivity.
    + vm_compute. reflexivity.
    + intros [|x l] H; [congruence | eexists; reflexivity].
Defined.

End ChargeTheorems.
